(** * giasuthongminh: the content-addressed result cache and its pipeline

    A shallow embedding of the cache and pipeline code of the document
    reader: [services/hashUtils.ts] (fingerprint), [services/storageService.ts]
    (IndexedDB store and history), [services/fileUtils.ts] (upload gate),
    [services/geminiService.ts] (generation gateway, in its two versions) and
    the two top-level flows [processContent] and [handleProcess] of [App.tsx].

    JavaScript strings are sequences of UTF-16 code units; they are modelled
    as [list N].  Promises are modelled by their outcome ([Resolved] or
    [Rejected]); an [async] function is a state-passing computation over the
    browser state (React state, IndexedDB contents, log of gateway calls,
    blobs registered under an object URL). *)

From Stdlib Require Import NArith ZArith Ascii String List Lia Bool.
From stdpp Require Import base option list sorting gmap.

Import ListNotations.
Local Open Scope N_scope.

(** ** JavaScript strings *)

Abbreviation jsstring := (list N).

(** An ASCII literal as a JavaScript string. *)
Definition js (s : string) : jsstring :=
  map N_of_ascii (list_ascii_of_string s).

(** Truthiness of a string value: only the empty string is falsy. *)
Definition truthy (s : jsstring) : bool :=
  match s with [] => false | _ :: _ => true end.

(** [s.substring(0, n)] for a non-negative integer [n]. *)
Definition substring0 (n : N) (s : jsstring) : jsstring :=
  firstn (N.to_nat n) s.

(** [s.split(sep)] for a separator of one code unit: the pieces between
    the occurrences of [sep]; never empty. *)
Fixpoint split (sep : N) (s : jsstring) : list jsstring :=
  match s with
  | [] => [[]]
  | c :: rest =>
      if c =? sep then [] :: split sep rest
      else match split sep rest with
           | [] => [[c]]
           | piece :: pieces => (c :: piece) :: pieces
           end
  end.

(** [WhiteSpace] and [LineTerminator] code points, as [String.prototype.trim]
    strips them. *)
Definition isWhiteSpace (c : N) : bool :=
  (c =? 9) || (c =? 10) || (c =? 11) || (c =? 12) || (c =? 13) || (c =? 32)
  || (c =? 160) || (c =? 5760) || ((8192 <=? c) && (c <=? 8202))
  || (c =? 8232) || (c =? 8233) || (c =? 8239) || (c =? 8287)
  || (c =? 12288) || (c =? 65279).

Fixpoint trimStart (s : jsstring) : jsstring :=
  match s with
  | c :: rest => if isWhiteSpace c then trimStart rest else s
  | [] => []
  end.

Definition trimEnd (s : jsstring) : jsstring := rev (trimStart (rev s)).

(** [s.trim()] *)
Definition trim (s : jsstring) : jsstring := trimEnd (trimStart s).

(** [s.padStart(n, fill)] for a filler of one code unit. *)
Definition padStart (n : nat) (fill : N) (s : jsstring) : jsstring :=
  repeat fill (n - length s) ++ s.

(** The digit of [Number.prototype.toString(16)] for a value below 16:
    ['0'..'9'] then ['a'..'f']. *)
Definition hexDigit (d : N) : N := if d <? 10 then 48 + d else 87 + d.

Fixpoint toString16_digits (fuel : nat) (n : N) (acc : jsstring) : jsstring :=
  match fuel with
  | O => acc
  | S fuel' =>
      let acc' := hexDigit (n mod 16) :: acc in
      if n / 16 =? 0 then acc' else toString16_digits fuel' (n / 16) acc'
  end.

(** [n.toString(16)] for a non-negative integer: the fuel is the number of
    binary digits, which is never less than the number of hex digits. *)
Definition toString16 (n : N) : jsstring :=
  toString16_digits (S (N.to_nat (N.log2 n))) n [].

(** ** [TextEncoder.encode]: UTF-8 of a sequence of UTF-16 code units

    A surrogate pair is one code point of four bytes; a lone surrogate is
    replaced by U+FFFD. *)

Definition isHighSurrogate (c : N) : bool := (55296 <=? c) && (c <=? 56319).
Definition isLowSurrogate (c : N) : bool := (56320 <=? c) && (c <=? 57343).

Definition utf8_1 (c : N) : list N := [c].
Definition utf8_2 (c : N) : list N := [192 + c / 64; 128 + c mod 64].
Definition utf8_3 (c : N) : list N :=
  [224 + c / 4096; 128 + (c / 64) mod 64; 128 + c mod 64].
Definition utf8_4 (c : N) : list N :=
  [240 + c / 262144; 128 + (c / 4096) mod 64; 128 + (c / 64) mod 64;
   128 + c mod 64].
Definition replacementChar : list N := utf8_3 65533.

Fixpoint TextEncoder_encode (s : jsstring) : list N :=
  match s with
  | [] => []
  | c :: rest =>
      if c <? 128 then utf8_1 c ++ TextEncoder_encode rest
      else if c <? 2048 then utf8_2 c ++ TextEncoder_encode rest
      else if isHighSurrogate c then
        match rest with
        | d :: rest' =>
            if isLowSurrogate d
            then utf8_4 (65536 + (c - 55296) * 1024 + (d - 56320))
                   ++ TextEncoder_encode rest'
            else replacementChar ++ TextEncoder_encode rest
        | [] => replacementChar
        end
      else if isLowSurrogate c then replacementChar ++ TextEncoder_encode rest
      else utf8_3 c ++ TextEncoder_encode rest
  end.

(** ** [crypto.subtle.digest('SHA-256', _)]: FIPS 180-4 on 32-bit words *)

Module SHA256.

Definition mask32 : N := 4294967295.
Definition w32 (x : N) : N := N.land x mask32.
Definition add32 (a b : N) : N := w32 (a + b).
Definition rotr (n x : N) : N :=
  N.lor (N.shiftr (w32 x) n) (w32 (N.shiftl (w32 x) (32 - n))).
Definition shr (n x : N) : N := N.shiftr (w32 x) n.
Definition not32 (x : N) : N := N.lxor (w32 x) mask32.

Definition Ch (e f g : N) : N := N.lxor (N.land e f) (N.land (not32 e) g).
Definition Maj (a b c : N) : N :=
  N.lxor (N.lxor (N.land a b) (N.land a c)) (N.land b c).
Definition Sigma0 (a : N) : N :=
  N.lxor (N.lxor (rotr 2 a) (rotr 13 a)) (rotr 22 a).
Definition Sigma1 (e : N) : N :=
  N.lxor (N.lxor (rotr 6 e) (rotr 11 e)) (rotr 25 e).
Definition sigma0 (x : N) : N :=
  N.lxor (N.lxor (rotr 7 x) (rotr 18 x)) (shr 3 x).
Definition sigma1 (x : N) : N :=
  N.lxor (N.lxor (rotr 17 x) (rotr 19 x)) (shr 10 x).

(** The constants, by their definition: the first 32 bits of the
    fractional parts of the cube roots (round constants) and of the square
    roots (initial chaining value) of the first primes. *)
Definition is_prime (n : nat) : bool :=
  (2 <=? n)%nat
  && forallb (fun k => negb (n mod k =? 0)%nat) (seq 2 (n - 2)).

Definition first_primes : list N :=
  map N.of_nat (filter is_prime (seq 2 310)).

Definition cube_root_floor (n : N) : N :=
  fold_left
    (fun r bit =>
       let r' := r + N.shiftl 1 bit in
       if r' * r' * r' <=? n then r' else r)
    (rev (map N.of_nat (seq 0 40))) 0.

Definition cube_root_fraction (p : N) : N :=
  w32 (cube_root_floor (N.shiftl p 96)).

Definition square_root_fraction (p : N) : N :=
  w32 (N.sqrt (N.shiftl p 64)).

Definition K : list N := map cube_root_fraction first_primes.

(** The eight working variables, and the chaining value. *)
Record state := mkState { a : N; b : N; c : N; d : N; e : N; f : N; g : N; h : N }.

Definition H0 : state :=
  mkState (square_root_fraction 2) (square_root_fraction 3)
          (square_root_fraction 5) (square_root_fraction 7)
          (square_root_fraction 11) (square_root_fraction 13)
          (square_root_fraction 17) (square_root_fraction 19).

(** Padding: a [1] bit, zeros, and the bit length on eight bytes, to a
    multiple of 64 bytes. *)
Definition be_bytes (n : nat) (x : N) : list N :=
  map (fun i => (N.shiftr x (8 * N.of_nat i)) mod 256) (rev (seq 0 n)).

Definition pad (msg : list N) : list N :=
  let len := length msg in
  msg ++ [128] ++ repeat 0 ((64 - (len + 9) mod 64) mod 64)%nat
      ++ be_bytes 8 (8 * N.of_nat len).

Fixpoint chunks (fuel : nat) (n : nat) (l : list N) : list (list N) :=
  match fuel with
  | O => []
  | S fuel' =>
      match l with
      | [] => []
      | _ :: _ => firstn n l :: chunks fuel' n (skipn n l)
      end
  end.

Definition be_word (bytes : list N) : N :=
  fold_left (fun acc x => acc * 256 + x mod 256) bytes 0.

Definition block_words (block : list N) : list N :=
  map be_word (chunks 16 4 block).

(** The message schedule: sixteen words of the block, extended to 64. *)
Fixpoint extend (k : nat) (w : list N) : list N :=
  match k with
  | O => w
  | S k' =>
      let t := length w in
      let wt :=
        add32 (add32 (sigma1 (nth (t - 2) w 0)) (nth (t - 7) w 0))
              (add32 (sigma0 (nth (t - 15) w 0)) (nth (t - 16) w 0)) in
      extend k' (w ++ [wt])
  end.

Definition schedule (block : list N) : list N := extend 48 (block_words block).

Definition round (s : state) (kw : N * N) : state :=
  let t1 := add32 (add32 (add32 (h s) (Sigma1 (e s))) (Ch (e s) (f s) (g s)))
                  (add32 (fst kw) (snd kw)) in
  let t2 := add32 (Sigma0 (a s)) (Maj (a s) (b s) (c s)) in
  mkState (add32 t1 t2) (a s) (b s) (c s) (add32 (d s) t1) (e s) (f s) (g s).

Definition compress (hv : state) (block : list N) : state :=
  let s := fold_left round (combine K (schedule block)) hv in
  mkState (add32 (a hv) (a s)) (add32 (b hv) (b s)) (add32 (c hv) (c s))
          (add32 (d hv) (d s)) (add32 (e hv) (e s)) (add32 (f hv) (f s))
          (add32 (g hv) (g s)) (add32 (h hv) (h s)).

Definition word_bytes (w : N) : list N :=
  [ (N.shiftr w 24) mod 256; (N.shiftr w 16) mod 256;
    (N.shiftr w 8) mod 256; w mod 256 ].

Definition state_bytes (s : state) : list N :=
  word_bytes (a s) ++ word_bytes (b s) ++ word_bytes (c s) ++ word_bytes (d s)
  ++ word_bytes (e s) ++ word_bytes (f s) ++ word_bytes (g s) ++ word_bytes (h s).

(** The digest: 32 bytes. *)
Definition digest (msg : list N) : list N :=
  let padded := pad msg in
  state_bytes (fold_left compress (chunks (length padded) 64 padded) H0).

End SHA256.

(** ** [services/hashUtils.ts] *)

(** [computeContentHash]: the SHA-256 of the UTF-8 encoding of [content],
    every byte printed as two hex digits. *)
Definition computeContentHash (content : jsstring) : jsstring :=
  let msgBuffer := TextEncoder_encode content in
  let hashArray := SHA256.digest msgBuffer in
  concat (map (fun b => padStart 2 48 (toString16 b)) hashArray).


(** ** [types.ts] *)

Inductive AppState := IDLE | ANALYZING | SYNTHESIZING | PLAYING | ERROR.

Inductive InputMode := FILE | TEXT.

#[global] Instance InputMode_eq_dec : EqDecision InputMode.
Proof. solve_decision. Defined.

Record VideoRecommendation := { title : jsstring; query : jsstring }.

Record SolutionItem := {
  questionDisplay : jsstring;
  questionReading : jsstring;
  solutionDisplay : jsstring;
  solutionReading : jsstring;
  imagePrompt : option jsstring;
  illustrationImage : option jsstring
}.

Record ProcessingResult := {
  script : jsstring;
  audioBase64 : option jsstring;
  relatedVideos : list VideoRecommendation;
  solutions : list SolutionItem
}.

Module HistoryEntry.
Record t := mk { id : jsstring; timestamp : Z; title : jsstring }.
End HistoryEntry.

(** The browser's [File]: its MIME type, its size in bytes, and what a
    [FileReader] makes of it ([None]: the reader fires [onerror]). *)
Module File.
Record t := mk { type : jsstring; size : N; base64Data : option jsstring }.
End File.

Module FileData.
Record t := mk { file : File.t; mimeType : jsstring }.
End FileData.

(** [CachedItem] of [storageService.ts] *)
Module CachedItem.
Record t := mk { id : jsstring; timestamp : Z; data : ProcessingResult }.
End CachedItem.

(** ** [services/fileUtils.ts] *)

Definition validTypes : list jsstring :=
  [ js "application/pdf";
    js "image/jpeg";
    js "image/png";
    js "image/webp";
    js "application/vnd.openxmlformats-officedocument.wordprocessingml.document";
    js "application/msword" ].

Inductive ValidationError := UnsupportedFormat | FileTooLarge.

(** [Array.prototype.includes] on strings *)
Definition includes (l : list jsstring) (x : jsstring) : bool :=
  existsb (fun y => bool_decide (y = x)) l.

(** [validateFile]: [None] is the source's [null]. *)
Definition validateFile (file : File.t) : option ValidationError :=
  if negb (includes validTypes (File.type file)) then Some UnsupportedFormat
  else if 20 * 1024 * 1024 <? File.size file then Some FileTooLarge
  else None.

(** ** Promises, errors and the browser *)

Inductive StoreOp := OpPut | OpGet | OpGetAll | OpDelete.

Inductive Error :=
  | TranscriptionError          (* thrown by generateReadingScript *)
  | NoAudioData                 (* thrown inside synthesizeSpeech *)
  | SpeechError                 (* thrown by synthesizeSpeech *)
  | ApiError                    (* whatever ai.models.generateContent throws *)
  | SyntaxError                 (* JSON.parse *)
  | FileReadError               (* FileReader's error event *)
  | StoreOpenError              (* request.error of indexedDB.open *)
  | StoreRequestError (op : StoreOp) (* request.error of a store request *)
  | InvalidCharacterError       (* atob on a string that is not base64 *)
  | RangeError.                 (* a DataView write outside its buffer *)

(** The state a promise settles in. *)
Inductive Outcome (A : Type) :=
  | Resolved (value : A)
  | Rejected (reason : Error).
Arguments Resolved {A} value.
Arguments Rejected {A} reason.

(** What can go wrong with one IndexedDB operation: opening the database
    fails, or the request on the object store fails. *)
Inductive Fault := Healthy | OpenFails | RequestFails.

(** *** The generation API as the code sees it *)

Inductive Model := Gemini_2_5_flash | Gemini_2_5_flash_preview_tts
                 | Gemini_2_5_flash_image.

(** The prompt texts; a template carries the text interpolated into it. *)
Inductive SystemPrompt := PromptOCR | PromptSafe | PromptOCR_IUPAC.

Inductive PromptTemplate :=
  | UserInstruction | UserInstructionIUPAC
  | VideoQueriesPrompt | VideoQueriesPromptShort
  | SolvePromptSVG | SolvePromptImage
  | EnforcedImagePrompt.

Inductive Part :=
  | InlineData (mime : jsstring) (data : jsstring)
  | Text (text : jsstring)
  | Prompt (template : PromptTemplate) (interpolated : jsstring).

Record Request := {
  model : Model;
  systemInstruction : option SystemPrompt;
  parts : list Part
}.

Inductive FinishReason := STOP | MAX_TOKENS | SAFETY | RECITATION | OTHER.

(** The fields of a [GenerateContentResponse] the code reads:
    [candidates?.[0]?.finishReason], [text], and for every part of
    [candidates?.[0]?.content?.parts] its [inlineData]: [None] for a part
    without [inlineData], [Some data] for a part that has one, [data]
    being its [data] field ([None] when that is undefined). *)
Record Response := {
  finishReason : option FinishReason;
  text : option jsstring;
  inlineParts : list (option (option jsstring))
}.

Record DualScriptResponse := {
  displayScript : jsstring;
  readingScript : jsstring
}.

(** Everything outside the code: the clock, the IndexedDB faults, the
    generation API, [JSON.parse] at the three result types ([None]: it
    throws), [atob] ([None]: it throws, the string is not base64), the URL
    that [URL.createObjectURL] gives to the n-th audio blob registered
    (every call gets a URL of its own), and
    [String.prototype.toLowerCase]. *)
Record Platform := {
  Date_now : Z;
  idb_fault : StoreOp -> Fault;
  generateContent : Request -> Outcome Response;
  JSON_parse_script : jsstring -> option DualScriptResponse;
  JSON_parse_videos : jsstring -> option (list VideoRecommendation);
  JSON_parse_solutions : jsstring -> option (list SolutionItem);
  atob : jsstring -> option jsstring;
  URL_createObjectURL : nat -> jsstring;
  toLowerCase : jsstring -> jsstring
}.

Inductive StatusMessage :=
  | NoMessage
  | ProcessingFile | CheckingCache | AnalyzingDocument | CreatingVoice
  | AnalyzingDocumentShort | ReadingOCR | SolvingAndDrawing
  | FindingVideos | CreatingVoiceShort
  | ErrorMessage (error : Error)           (* error.message *)
  | ErrorOccurred (error : Error).         (* a fixed prefix + message *)

(** The [useState] cells of [App]. *)
Record React := {
  appState : AppState;
  mode : InputMode;
  textInput : jsstring;
  file : option FileData.t;
  result : option ProcessingResult;
  statusMessage : StatusMessage;
  isCachedResult : bool
}.

(** The browser: React state, the object store [analysis_cache] (keyed by
    its key path [id]), the pending [setTimeout] callbacks that show a
    restored result, the requests sent to the generation API so far, and
    the bytes of the audio blobs that [createWavUrlFromPcm] has registered
    with [URL.createObjectURL], oldest first. *)
Record Browser := {
  react : React;
  idb : gmap jsstring (Z * ProcessingResult);
  timers : list (N * ProcessingResult);
  calls : list Request;
  objectURLs : list (list N)
}.

(** An [async] computation: it runs from a browser state to the outcome
    of its promise and the browser state at that point. *)
Definition Async (A : Type) : Type := Browser -> Outcome A * Browser.

Definition resolve {A} (x : A) : Async A := fun b => (Resolved x, b).

Definition throw {A} (e : Error) : Async A := fun b => (Rejected e, b).

(** [await m] followed by [k]: a rejection of [m] is thrown past [k]. *)
Definition await {A B} (m : Async A) (k : A -> Async B) : Async B :=
  fun b =>
    match m b with
    | (Resolved x, b') => k x b'
    | (Rejected e, b') => (Rejected e, b')
    end.

(** [try { body } catch (error) { handler }] *)
Definition try_catch {A} (body : Async A) (handler : Error -> Async A)
  : Async A :=
  fun b =>
    match body b with
    | (Resolved x, b') => (Resolved x, b')
    | (Rejected e, b') => handler e b'
    end.

Declare Scope async_scope.
Delimit Scope async_scope with async.
Bind Scope async_scope with Async.
Notation "'let*' x := m 'in' k" := (await m (fun x => k))
  (at level 10, x pattern, m at level 100, k at level 200) : async_scope.
Notation "m ;; k" := (await m (fun _ => k))
  (at level 100, k at level 200, right associativity) : async_scope.
Local Open Scope async_scope.

(** A promise handed to [return] inside an [async] function: the function's
    own promise adopts it, after the function body has been left. *)
Definition adopt {A} (p : Async (Async A)) : Async A :=
  let* returned := p in returned.

(** ** Sorting and the order of keys *)

(** [Array.prototype.sort(compareFn)]: a stable sort; [a] stays before [b]
    when [compareFn(a, b) <= 0].  Insertion from the right keeps the order
    of elements that compare equal. *)
Fixpoint sort_insert {A} (compareFn : A -> A -> Z) (x : A) (l : list A)
  : list A :=
  match l with
  | [] => [x]
  | y :: l' =>
      if (compareFn x y <=? 0)%Z then x :: l
      else y :: sort_insert compareFn x l'
  end.

Definition sort {A} (compareFn : A -> A -> Z) (l : list A) : list A :=
  fold_right (sort_insert compareFn) [] l.

(** The order of IndexedDB on string keys: by code units. *)
Fixpoint key_compare (k1 k2 : jsstring) : Z :=
  match k1, k2 with
  | [], [] => 0%Z
  | [], _ :: _ => (-1)%Z
  | _ :: _, [] => 1%Z
  | c1 :: k1', c2 :: k2' =>
      if c1 <? c2 then (-1)%Z
      else if c2 <? c1 then 1%Z
      else key_compare k1' k2'
  end.

(** ** [services/storageService.ts] *)

Section Storage.

Variable P : Platform.

(** [openDB]: resolves with the database unless opening fails. *)
Definition openDB (op : StoreOp) : Async unit :=
  match idb_fault P op with
  | OpenFails => throw StoreOpenError
  | _ => resolve tt
  end.

(** The promise around one request on the object store: [onsuccess]
    resolves it with the effect of the request, [onerror] rejects it with
    [request.error]. *)
Definition request {A} (op : StoreOp) (effect : Browser -> A * Browser)
  : Async A :=
  fun b =>
    match idb_fault P op with
    | RequestFails => (Rejected (StoreRequestError op), b)
    | _ => let (x, b') := effect b in (Resolved x, b')
    end.

Definition set_idb (m : gmap jsstring (Z * ProcessingResult)) (b : Browser)
  : Browser :=
  {| react := react b; idb := m; timers := timers b; calls := calls b;
     objectURLs := objectURLs b |}.

(** [store.put(item)]: upsert under the key path [id]. *)
Definition store_put (item : CachedItem.t) (b : Browser) : unit * Browser :=
  (tt, set_idb (<[CachedItem.id item :=
                   (CachedItem.timestamp item, CachedItem.data item)]> (idb b)) b).

(** [store.get(hash)]: the record, or [undefined]. *)
Definition store_get (hash : jsstring) (b : Browser)
  : option CachedItem.t * Browser :=
  (match idb b !! hash with
   | Some (ts, d) => Some (CachedItem.mk hash ts d)
   | None => None
   end, b).

(** [store.getAll()]: the records in ascending order of their keys. *)
Definition store_getAll (b : Browser) : list CachedItem.t * Browser :=
  (map (fun kv => CachedItem.mk (fst kv) (fst (snd kv)) (snd (snd kv)))
       (sort (fun kv1 kv2 => key_compare (fst kv1) (fst kv2))
             (map_to_list (idb b))), b).

(** [store.delete(id)] *)
Definition store_delete (id : jsstring) (b : Browser) : unit * Browser :=
  (tt, set_idb (delete id (idb b)) b).

(** [saveToCache].  Only [await openDB()] sits under the [try]: the promise
    of the request is returned without [await], so it settles after the
    [try] block has been left. *)
Definition saveToCache (hash : jsstring) (result : ProcessingResult)
  : Async unit :=
  adopt (try_catch
    (let* db := openDB OpPut in
     let item := CachedItem.mk hash (Date_now P) result in
     resolve (request OpPut (store_put item)))
    (fun error => (* console.error *) resolve (resolve tt))).

(** [getFromCache]: [None] is the source's [null]. *)
Definition getFromCache (hash : jsstring) : Async (option ProcessingResult) :=
  adopt (try_catch
    (let* db := openDB OpGet in
     resolve (let* result := request OpGet (store_get hash) in
              resolve (match result with
                       | Some item => Some (CachedItem.data item)
                       | None => None
                       end)))
    (fun error => (* console.error *) resolve (resolve None))).

(** The title of a history entry:
    [script.split('\n')[0].substring(0, 60) + (script.length > 60 ? '...' : '')] *)
Definition history_title (script : jsstring) : jsstring :=
  substring0 60 (hd [] (split 10 script))
    ++ (if (60 <? length script)%nat then js "..." else []).

Definition history_entry (item : CachedItem.t) : HistoryEntry.t :=
  HistoryEntry.mk (CachedItem.id item) (CachedItem.timestamp item)
                  (history_title (script (CachedItem.data item))).

(** The comparator of the sort: [(a, b) => b.timestamp - a.timestamp] *)
Definition newest_first (a b : HistoryEntry.t) : Z :=
  (HistoryEntry.timestamp b - HistoryEntry.timestamp a)%Z.

(** [getHistory] *)
Definition getHistory : Async (list HistoryEntry.t) :=
  adopt (try_catch
    (let* db := openDB OpGetAll in
     resolve (let* results := request OpGetAll store_getAll in
              let history := sort newest_first (map history_entry results) in
              resolve history))
    (fun error => (* console.error *) resolve (resolve []))).

(** [deleteFromCache] *)
Definition deleteFromCache (id : jsstring) : Async unit :=
  adopt (try_catch
    (let* db := openDB OpDelete in
     resolve (request OpDelete (store_delete id)))
    (fun error => (* console.error *) resolve (resolve tt))).

End Storage.

(** ** The WAV container of [createWavUrlFromPcm] *)

(** A [DataView] on an [ArrayBuffer] is the list of its bytes; a write
    outside the buffer throws a [RangeError] ([None]). *)
Definition setUint8 (view : list N) (offset : nat) (value : N)
  : option (list N) :=
  if (offset + 1 <=? length view)%nat
  then Some (<[offset := value mod 256]> view)
  else None.

(** [view.setUint16(offset, value, true)]: little endian *)
Definition setUint16 (view : list N) (offset : nat) (value : N)
  : option (list N) :=
  if (offset + 2 <=? length view)%nat
  then Some (<[offset := value mod 256]>
               (<[S offset := (value / 256) mod 256]> view))
  else None.

(** [view.setUint32(offset, value, true)]: little endian *)
Definition setUint32 (view : list N) (offset : nat) (value : N)
  : option (list N) :=
  if (offset + 4 <=? length view)%nat
  then Some (<[offset := value mod 256]>
               (<[S offset := (value / 256) mod 256]>
                  (<[S (S offset) := (value / 65536) mod 256]>
                     (<[S (S (S offset)) := (value / 16777216) mod 256]>
                        view))))
  else None.

(** [writeString] *)
Fixpoint writeString (view : list N) (offset : nat) (string : jsstring)
  : option (list N) :=
  match string with
  | [] => Some view
  | c :: rest =>
      view' ← setUint8 view offset c;
      writeString view' (S offset) rest
  end.

(** [pcmBytes[i] = pcmData.charCodeAt(i)] for [i] from [i0] on, where
    [pcmBytes] is the [Uint8Array] on the buffer from byte 44: the value
    is stored modulo 256. *)
Fixpoint fill_pcm (buffer : list N) (i0 : nat) (pcmData : jsstring)
  : list N :=
  match pcmData with
  | [] => buffer
  | c :: rest => fill_pcm (<[(44 + i0)%nat := c mod 256]> buffer) (S i0) rest
  end.

(** The buffer [createWavUrlFromPcm] hands to [Blob], for the binary
    string [pcmData] that [atob] returned. *)
Definition wav_buffer (pcmData : jsstring) : option (list N) :=
  let numChannels := 1 in
  let sampleRate := 24000 in
  let bitsPerSample := 16 in
  let blockAlign := numChannels * bitsPerSample / 8 in
  let byteRate := sampleRate * blockAlign in
  let dataSize := length pcmData in
  let subChunk2Size := N.of_nat dataSize in
  let chunkSize := 36 + subChunk2Size in
  let buffer := repeat 0 (44 + dataSize) in
  view ← writeString buffer 0 (js "RIFF");
  view ← setUint32 view 4 chunkSize;
  view ← writeString view 8 (js "WAVE");
  view ← writeString view 12 (js "fmt ");
  view ← setUint32 view 16 16;
  view ← setUint16 view 20 1;
  view ← setUint16 view 22 numChannels;
  view ← setUint32 view 24 sampleRate;
  view ← setUint32 view 28 byteRate;
  view ← setUint16 view 32 blockAlign;
  view ← setUint16 view 34 bitsPerSample;
  view ← writeString view 36 (js "data");
  view ← setUint32 view 40 subChunk2Size;
  Some (fill_pcm view 0 pcmData).

(** Reading a header back: an unsigned little-endian number. *)
Definition getUint32 (view : list N) (offset : nat) : N :=
  nth offset view 0 + 256 * nth (S offset) view 0
  + 65536 * nth (S (S offset)) view 0
  + 16777216 * nth (S (S (S offset))) view 0.

Definition getUint16 (view : list N) (offset : nat) : N :=
  nth offset view 0 + 256 * nth (S offset) view 0.

(** ** React state and the gateway, shared by both versions of the code *)

Definition set_react (f : React -> React) : Async unit :=
  fun b => (Resolved tt,
            {| react := f (react b); idb := idb b; timers := timers b;
               calls := calls b; objectURLs := objectURLs b |}).

Definition setAppState (s : AppState) : Async unit :=
  set_react (fun r =>
    {| appState := s; mode := mode r; textInput := textInput r;
       file := file r; result := result r;
       statusMessage := statusMessage r;
       isCachedResult := isCachedResult r |}).

Definition setResult (x : option ProcessingResult) : Async unit :=
  set_react (fun r =>
    {| appState := appState r; mode := mode r; textInput := textInput r;
       file := file r; result := x;
       statusMessage := statusMessage r;
       isCachedResult := isCachedResult r |}).

Definition setStatusMessage (m : StatusMessage) : Async unit :=
  set_react (fun r =>
    {| appState := appState r; mode := mode r; textInput := textInput r;
       file := file r; result := result r;
       statusMessage := m;
       isCachedResult := isCachedResult r |}).

Definition setIsCachedResult (c : bool) : Async unit :=
  set_react (fun r =>
    {| appState := appState r; mode := mode r; textInput := textInput r;
       file := file r; result := result r;
       statusMessage := statusMessage r;
       isCachedResult := c |}).

(** [setTimeout(() => { setResult(shown); setIsCachedResult(true);
    setAppState(PLAYING) }, delay)]: the callback is queued. *)
Definition setTimeout_show (delay : N) (shown : ProcessingResult)
  : Async unit :=
  fun b => (Resolved tt,
            {| react := react b; idb := idb b;
               timers := timers b ++ [(delay, shown)]; calls := calls b;
               objectURLs := objectURLs b |}).

(** The queued callbacks fire, oldest first. *)
Definition show (r : React) (shown : ProcessingResult) : React :=
  {| appState := PLAYING; mode := mode r; textInput := textInput r;
     file := file r; result := Some shown;
     statusMessage := statusMessage r; isCachedResult := true |}.

Definition run_timers (b : Browser) : Browser :=
  {| react := fold_left show (map snd (timers b)) (react b);
     idb := idb b; timers := []; calls := calls b;
     objectURLs := objectURLs b |}.

(** [Promise.all] of two promises: both computations have been started,
    so both run; the first rejection wins. *)
Definition both {A B} (p : Async A) (q : Async B) : Async (A * B) :=
  fun b =>
    let (ra, b1) := p b in
    let (rb, b2) := q b1 in
    (match ra, rb with
     | Resolved x, Resolved y => Resolved (x, y)
     | Rejected e, _ => Rejected e
     | _, Rejected e => Rejected e
     end, b2).

Fixpoint Promise_all {A} (ps : list (Async A)) : Async (list A) :=
  match ps with
  | [] => resolve []
  | p :: ps' => fun b =>
      let (r, b') := both p (Promise_all ps') b in
      (match r with
       | Resolved (x, xs) => Resolved (x :: xs)
       | Rejected e => Rejected e
       end, b')
  end.

(** [readFileToBase64] of [fileUtils.ts]: the base64 part of the data URL,
    or the reader's error. *)
Definition readFileToBase64 (f : File.t) : Async jsstring :=
  match File.base64Data f with
  | Some base64Data => resolve base64Data
  | None => throw FileReadError
  end.

Section Gateway.

Variable P : Platform.

(** [ai.models.generateContent]: the request is sent (and logged), the
    platform answers. *)
Definition ai_generateContent (req : Request) : Async Response :=
  fun b => (generateContent P req,
            {| react := react b; idb := idb b; timers := timers b;
               calls := calls b ++ [req]; objectURLs := objectURLs b |}).

(** [JSON.parse(text)] at a result type *)
Definition JSON_parse {A} (parse : jsstring -> option A) (t : jsstring)
  : Async A :=
  match parse t with
  | Some v => resolve v
  | None => throw SyntaxError
  end.

(** [callGeminiWithPrompt], the same in both versions: [None] (the
    source's [null]) for a blocked answer, an answer without text, and
    anything thrown. *)
Definition callGeminiWithPrompt (m : Model) (systemPrompt : SystemPrompt)
    (userPrompt : PromptTemplate) (parts0 : list Part)
  : Async (option DualScriptResponse) :=
  try_catch
    (let finalParts := parts0 ++ [Prompt userPrompt []] in
     let* response := ai_generateContent
       {| model := m; systemInstruction := Some systemPrompt;
          parts := finalParts |} in
     match finishReason response with
     | Some RECITATION | Some SAFETY => (* console.warn *) resolve None
     | _ =>
         match text response with
         | Some t =>
             if truthy t
             then let* parsed := JSON_parse (JSON_parse_script P) t in
                  resolve (Some parsed)
             else resolve None
         | None => resolve None
         end
     end)
    (fun error => (* console.warn *) resolve None).

(** The parts both versions of [generateReadingScript] build. *)
Definition input_parts (textInput0 : jsstring)
    (fileBase64 mimeType0 : option jsstring) : list Part :=
  (match fileBase64, mimeType0 with
   | Some data, Some mime =>
       if truthy data && truthy mime then [InlineData mime data] else []
   | _, _ => []
   end)
  ++ (if truthy textInput0 then [Text textInput0] else []).

(** [createWavUrlFromPcm]: [atob] throws on a string that is not base64;
    the WAV buffer becomes a blob, and [URL.createObjectURL] registers the
    blob under a URL of its own. *)
Definition createWavUrlFromPcm (base64Pcm : jsstring) : Async jsstring :=
  fun b =>
    match atob P base64Pcm with
    | None => (Rejected InvalidCharacterError, b)
    | Some pcmData =>
        match wav_buffer pcmData with
        | None => (Rejected RangeError, b)
        | Some buffer =>
            (Resolved (URL_createObjectURL P (length (objectURLs b))),
             {| react := react b; idb := idb b; timers := timers b;
                calls := calls b; objectURLs := objectURLs b ++ [buffer] |})
        end
    end.

(** [getAudioDataUrl] *)
Definition getAudioDataUrl (base64Audio : jsstring) : Async jsstring :=
  createWavUrlFromPcm base64Audio.

(** [synthesizeSpeech], the same in both versions up to the messages. *)
Definition synthesizeSpeech (script0 : jsstring) : Async jsstring :=
  try_catch
    (let* response := ai_generateContent
       {| model := Gemini_2_5_flash_preview_tts; systemInstruction := None;
          parts := [Text script0] |} in
     let base64Audio := mjoin (mjoin (head (inlineParts response))) in
     match base64Audio with
     | Some audio => if truthy audio then resolve audio else throw NoAudioData
     | None => throw NoAudioData
     end)
    (fun error => (* console.error *) throw SpeechError).

(** [getRelatedVideoQueries], the same in both versions up to the prompt. *)
Definition getRelatedVideoQueries_with (prompt : PromptTemplate)
    (script0 : jsstring) : Async (list VideoRecommendation) :=
  try_catch
    (let* response := ai_generateContent
       {| model := Gemini_2_5_flash; systemInstruction := None;
          parts := [Prompt prompt (substring0 3000 script0)] |} in
     match text response with
     | Some t =>
         if truthy t then JSON_parse (JSON_parse_videos P) t else resolve []
     | None => resolve []
     end)
    (fun e => (* console.error *) resolve []).

End Gateway.

(** ** Version 1: [services/geminiService.ts] and [processContent] *)

Module V1.
Section V1.

Variable P : Platform.

(** [generateReadingScript]: the strict OCR prompt, then the paraphrase
    prompt when the first attempt gave no result. *)
Definition generateReadingScript (textInput0 : jsstring)
    (fileBase64 mimeType0 : option jsstring) : Async DualScriptResponse :=
  let m := Gemini_2_5_flash in
  let parts0 := input_parts textInput0 fileBase64 mimeType0 in
  let* result1 := callGeminiWithPrompt P m PromptOCR UserInstruction parts0 in
  match result1 with
  | Some r => resolve r
  | None =>
      let* result2 :=
        callGeminiWithPrompt P m PromptSafe UserInstruction parts0 in
      match result2 with
      | Some r => resolve r
      | None => throw TranscriptionError
      end
  end.

Definition getRelatedVideoQueries (script0 : jsstring)
  : Async (list VideoRecommendation) :=
  getRelatedVideoQueries_with P VideoQueriesPrompt script0.

(** [analyzeAndSolve] *)
Definition analyzeAndSolve (script0 : jsstring) : Async (list SolutionItem) :=
  try_catch
    (let* response := ai_generateContent P
       {| model := Gemini_2_5_flash; systemInstruction := None;
          parts := [Prompt SolvePromptSVG (substring0 10000 script0)] |} in
     match text response with
     | Some t =>
         if truthy t then JSON_parse (JSON_parse_solutions P) t
         else resolve []
     | None => resolve []
     end)
    (fun e => (* console.error *) resolve []).

(** [audioBase64] replaced by a playable URL, as the player expects it. *)
Definition with_audio (r : ProcessingResult) (audio : option jsstring)
  : ProcessingResult :=
  {| script := script r; audioBase64 := audio;
     relatedVideos := relatedVideos r; solutions := solutions r |}.

(** [processContent] of [App.tsx] *)
Definition processContent : Async unit :=
  fun b0 =>
  let st := react b0 in
  try_catch
    (setAppState ANALYZING;;
     let* prepared :=
       match mode st, file st with
       | FILE, Some fd =>
           setStatusMessage ProcessingFile;;
           let* base64File := readFileToBase64 (FileData.file fd) in
           resolve (Some base64File, Some (FileData.mimeType fd), base64File)
       | _, _ => resolve (None, None, trim (textInput st))
       end in
     let '(base64File, mimeType0, inputContentForHash) := prepared in
     setStatusMessage CheckingCache;;
     let contentHash := computeContentHash inputContentForHash in
     let* cachedResult := getFromCache P contentHash in
     match cachedResult with
     | Some cachedResult =>
         let* restoredAudioUrl :=
           match audioBase64 cachedResult with
           | Some audio =>
               if truthy audio
               then let* url := getAudioDataUrl P audio in resolve (Some url)
               else resolve None
           | None => resolve None
           end in
         setTimeout_show 800 (with_audio cachedResult restoredAudioUrl)
     | None =>
         setIsCachedResult false;;
         setStatusMessage AnalyzingDocument;;
         let* scripts :=
           generateReadingScript
             (match mode st with TEXT => textInput st | FILE => [] end)
             base64File mimeType0 in
         setAppState SYNTHESIZING;;
         setStatusMessage CreatingVoice;;
         let* settled :=
           both (synthesizeSpeech P (readingScript scripts))
                (both (getRelatedVideoQueries (displayScript scripts))
                      (analyzeAndSolve (displayScript scripts))) in
         let '(audio, (videos, solved)) := settled in
         let finalResult :=
           {| script := displayScript scripts; audioBase64 := Some audio;
              relatedVideos := videos; solutions := solved |} in
         saveToCache P contentHash finalResult;;
         let* audioUrl := getAudioDataUrl P audio in
         setResult (Some (with_audio finalResult (Some audioUrl)));;
         setAppState PLAYING
     end)
    (fun error =>
       (* console.error *)
       setAppState ERROR;;
       setStatusMessage (ErrorMessage error))
    b0.

End V1.
End V1.

(** ** Version 2: the gateway with image generation and [handleProcess] *)

Module V2.
Section V2.

Variable P : Platform.

(** [generateReadingScript]: one attempt. *)
Definition generateReadingScript (textInput0 : jsstring)
    (fileBase64 mimeType0 : option jsstring) : Async DualScriptResponse :=
  let m := Gemini_2_5_flash in
  let parts0 := input_parts textInput0 fileBase64 mimeType0 in
  let* result1 :=
    callGeminiWithPrompt P m PromptOCR_IUPAC UserInstructionIUPAC parts0 in
  match result1 with
  | Some r => resolve r
  | None => throw TranscriptionError
  end.

Definition getRelatedVideoQueries (script0 : jsstring)
  : Async (list VideoRecommendation) :=
  getRelatedVideoQueries_with P VideoQueriesPromptShort script0.

(** [for (const part of parts) if (part.inlineData) return
    part.inlineData.data] *)
Fixpoint first_inlineData (l : list (option (option jsstring)))
  : option jsstring :=
  match l with
  | [] => None
  | Some data :: _ => data
  | None :: rest => first_inlineData rest
  end.

(** [generateChemicalImage]: the [data] of the first part that has
    [inlineData], whatever that data is; [None] is the source's
    [undefined]. *)
Definition generateChemicalImage (imagePrompt0 : jsstring)
  : Async (option jsstring) :=
  if negb (truthy imagePrompt0) then resolve None
  else
    try_catch
      (let* response := ai_generateContent P
         {| model := Gemini_2_5_flash_image; systemInstruction := None;
            parts := [Text imagePrompt0] |} in
       resolve (first_inlineData (inlineParts response)))
      (fun e => (* console.error *) resolve None).

Definition with_illustration (item : SolutionItem) (image : option jsstring)
  : SolutionItem :=
  {| questionDisplay := questionDisplay item;
     questionReading := questionReading item;
     solutionDisplay := solutionDisplay item;
     solutionReading := solutionReading item;
     imagePrompt := imagePrompt item;
     illustrationImage := image |}.

(** The image step of one item: only for a prompt of substance. *)
Definition illustrate (item : SolutionItem) : Async SolutionItem :=
  match imagePrompt item with
  | Some prompt =>
      if truthy prompt && (10 <? length (trim prompt))%nat
         && negb (bool_decide (toLowerCase P prompt = js "none"))
      then
        try_catch
          (let enforcedPrompt :=
             js "Scientifically accurate chemical structure, " ++ prompt
             ++ js ", 2D flat view, high quality, white background" in
           let* imageBase64 := generateChemicalImage enforcedPrompt in
           resolve (with_illustration item imageBase64))
          (fun err => (* console.warn *) resolve item)
      else resolve item
  | None => resolve item
  end.

(** [analyzeAndSolve] *)
Definition analyzeAndSolve (script0 : jsstring)
    (fileBase64 mimeType0 : option jsstring) : Async (list SolutionItem) :=
  try_catch
    (let parts0 :=
       (match fileBase64, mimeType0 with
        | Some data, Some mime =>
            if truthy data && truthy mime then [InlineData mime data] else []
        | _, _ => []
        end)
       ++ [Prompt SolvePromptImage (substring0 10000 script0)] in
     let* response := ai_generateContent P
       {| model := Gemini_2_5_flash; systemInstruction := None;
          parts := parts0 |} in
     match text response with
     | Some t =>
         if truthy t then
           let* items := JSON_parse (JSON_parse_solutions P) t in
           let* itemsWithImages := Promise_all (map illustrate items) in
           resolve itemsWithImages
         else resolve []
     | None => resolve []
     end)
    (fun e => (* console.error *) resolve []).

(** [handleProcess] of [App.tsx] *)
Definition handleProcess : Async unit :=
  fun b0 =>
  let st := react b0 in
  if bool_decide (mode st = TEXT) && negb (truthy (trim (textInput st)))
  then resolve tt b0
  else if bool_decide (mode st = FILE) && negb (bool_decide (is_Some (file st)))
  then resolve tt b0
  else
  (setAppState ANALYZING;;
   setStatusMessage AnalyzingDocumentShort;;
   setResult None;;
   try_catch
     (let* prepared :=
        match mode st, file st with
        | FILE, Some fd =>
            let* fileBase64 := readFileToBase64 (FileData.file fd) in
            resolve (computeContentHash fileBase64, Some fileBase64,
                     Some (FileData.mimeType fd))
        | _, _ => resolve (computeContentHash (textInput st), None, None)
        end in
      let '(contentHash, fileBase64, mimeType0) := prepared in
      let* cached := getFromCache P contentHash in
      match cached with
      | Some cached =>
          setResult (Some cached);;
          setIsCachedResult true;;
          setAppState IDLE
      | None =>
          setStatusMessage ReadingOCR;;
          let* scripts :=
            generateReadingScript
              (match mode st with TEXT => textInput st | FILE => [] end)
              fileBase64 mimeType0 in
          setStatusMessage SolvingAndDrawing;;
          let* solved :=
            analyzeAndSolve (displayScript scripts) fileBase64 mimeType0 in
          setStatusMessage FindingVideos;;
          let* videos := getRelatedVideoQueries (displayScript scripts) in
          setStatusMessage CreatingVoiceShort;;
          let* audio := synthesizeSpeech P (readingScript scripts) in
          let newResult :=
            {| script := displayScript scripts; audioBase64 := Some audio;
               relatedVideos := videos; solutions := solved |} in
          saveToCache P contentHash newResult;;
          setResult (Some newResult);;
          setAppState IDLE
      end)
     (fun error =>
        (* console.error *)
        setAppState ERROR;;
        setStatusMessage (ErrorOccurred error))) b0.

End V2.
End V2.

(** * Vocabulary of the statements *)

(** ** Fingerprints *)

Definition isLowerHex (c : N) : bool :=
  ((48 <=? c) && (c <=? 57)) || ((97 <=? c) && (c <=? 102)).

(** One byte prints as exactly two lowercase hex digits. *)
Definition hex_pair_ok (s : jsstring) : bool :=
  (length s =? 2)%nat && forallb isLowerHex s.

(** Reading a fingerprint back: the value of a lowercase hex digit, and
    the bytes that a string of such digits spells, two digits a byte. *)
Definition hex_value (c : N) : option N :=
  if (48 <=? c) && (c <=? 57) then Some (c - 48)
  else if (97 <=? c) && (c <=? 102) then Some (c - 87)
  else None.

Fixpoint unhex (s : jsstring) : option (list N) :=
  match s with
  | [] => Some []
  | [_] => None
  | hi :: lo :: rest =>
      h ← hex_value hi;
      l ← hex_value lo;
      bytes ← unhex rest;
      Some (16 * h + l :: bytes)
  end.

(** Well-formed UTF-16: code units below 65536 in which every surrogate
    stands in a pair, a high one followed by a low one. *)
Fixpoint well_formed (s : jsstring) : bool :=
  match s with
  | [] => true
  | c :: rest =>
      (c <? 65536)
      && if isHighSurrogate c then
           match rest with
           | d :: rest' => isLowSurrogate d && well_formed rest'
           | [] => false
           end
         else negb (isLowSurrogate c) && well_formed rest
  end.

(** A byte prints as the two digits that spell it. *)
Definition hex_pair_reads (b : N) : bool :=
  bool_decide (unhex (padStart 2 48 (toString16 b)) = Some [b]).

(** ** Uploads *)

(** The accepted files, as the claim lists them. *)
Definition accepted_type (t : jsstring) : Prop :=
  t = js "application/pdf" \/ t = js "image/jpeg" \/ t = js "image/png"
  \/ t = js "image/webp"
  \/ t = js "application/vnd.openxmlformats-officedocument.wordprocessingml.document"
  \/ t = js "application/msword".


(** ** The history listing *)

(** Newest first; entries of the same instant may follow each other. *)
Definition not_older (e1 e2 : HistoryEntry.t) : Prop :=
  (HistoryEntry.timestamp e2 <= HistoryEntry.timestamp e1)%Z.

(** [line] is the first line of [s]: what stands before the first line
    feed, or all of [s] when there is none. *)
Definition first_line_of (s line : jsstring) : Prop :=
  (10 ∉ line) /\ (s = line \/ exists rest, s = line ++ 10 :: rest).

(** The title as the claim describes it: the first line cut to 60 code
    units, with the ellipsis exactly when the cut removed something. *)
Definition claimed_title (script0 : jsstring) : jsstring :=
  let line := hd [] (split 10 script0) in
  substring0 60 line ++ (if (60 <? length line)%nat then js "..." else []).

(** ** Sample platforms and data *)

Definition ascii_toLowerCase (s : jsstring) : jsstring :=
  map (fun c => if (65 <=? c) && (c <=? 90) then c + 32 else c) s.

(** Base64 as [atob] reads it (forgiving-base64 decode of the HTML
    standard): ASCII white space is dropped, one or two padding signs at the
    end of a multiple of four are dropped, a remainder of one or any other
    character is an error, and every four characters give three bytes. *)
Definition base64_value (c : N) : option N :=
  if (65 <=? c) && (c <=? 90) then Some (c - 65)
  else if (97 <=? c) && (c <=? 122) then Some (c - 71)
  else if (48 <=? c) && (c <=? 57) then Some (c + 4)
  else if c =? 43 then Some 62
  else if c =? 47 then Some 63
  else None.

Definition isAsciiWhitespace (c : N) : bool :=
  (c =? 9) || (c =? 10) || (c =? 12) || (c =? 13) || (c =? 32).

Definition drop_last_padding (s : jsstring) : jsstring :=
  match rev s with
  | 61 :: rest => rev rest
  | _ => s
  end.

Fixpoint base64_groups (fuel : nat) (sextets : list N) : list N :=
  match fuel, sextets with
  | S fuel', a :: b :: c :: d :: rest =>
      let n := a * 262144 + b * 4096 + c * 64 + d in
      n / 65536 :: (n / 256) mod 256 :: n mod 256 :: base64_groups fuel' rest
  | _, [a; b; c] =>
      let n := a * 4096 + b * 64 + c in
      [n / 1024; (n / 4) mod 256]
  | _, [a; b] => [(a * 64 + b) / 16]
  | _, _ => []
  end.

Definition base64_decode (s : jsstring) : option jsstring :=
  let s1 := filter (fun c => negb (isAsciiWhitespace c)) s in
  let s2 := if (length s1 mod 4 =? 0)%nat
            then drop_last_padding (drop_last_padding s1) else s1 in
  if (length s2 mod 4 =? 1)%nat then None
  else sextets ← mapM base64_value s2;
       Some (base64_groups (length sextets) sextets).

(** The URL of the n-th blob: a prefix and the number, in hexadecimal. *)
Definition blob_url (n : nat) : jsstring :=
  js "blob:" ++ toString16 (N.of_nat n).

(** A platform with a working store and an unreachable generation API. *)
Definition offline : Platform :=
  {| Date_now := 1700000000000;
     idb_fault := fun _ => Healthy;
     generateContent := fun _ => Rejected ApiError;
     JSON_parse_script := fun _ => None;
     JSON_parse_videos := fun _ => None;
     JSON_parse_solutions := fun _ => None;
     atob := base64_decode;
     URL_createObjectURL := blob_url;
     toLowerCase := ascii_toLowerCase |}.

(** The state of [App] when it mounts. *)
Definition mounted : React :=
  {| appState := IDLE; mode := FILE; textInput := []; file := None;
     result := None; statusMessage := NoMessage; isCachedResult := false |}.

Definition browser (r : React) (store : gmap jsstring (Z * ProcessingResult))
  : Browser :=
  {| react := r; idb := store; timers := []; calls := [];
     objectURLs := [] |}.

Definition typed (t : jsstring) : React :=
  {| appState := IDLE; mode := TEXT; textInput := t; file := None;
     result := None; statusMessage := NoMessage; isCachedResult := false |}.

Definition water : ProcessingResult :=
  {| script := js "2H2 + O2 -> 2H2O";
     audioBase64 := Some (js "UklGRg==");
     relatedVideos := [ {| title := js "Water"; query := js "hydrogen oxygen" |} ];
     solutions := [] |}.

(** A script of two lines, the first one short, 73 code units in all. *)
Definition two_lines : jsstring :=
  js "Hi" ++ [10] ++ repeat 97 70.

Definition long_note : ProcessingResult :=
  {| script := two_lines; audioBase64 := None; relatedVideos := [];
     solutions := [] |}.

(** ** Talking to the gateway *)

Definition add_calls (t : list Request) (b : Browser) : Browser :=
  {| react := react b; idb := idb b; timers := timers b;
     calls := calls b ++ t; objectURLs := objectURLs b |}.

(** A computation that does nothing but send requests to the generation
    API: its outcome and its requests do not depend on the browser. *)
Definition gateway_only {A} (m : Async A) : Prop :=
  exists r t, forall b, m b = (r, add_calls t b).

(** The outcome of such a computation, and the requests it sends. *)
Definition outcome_of {A} (m : Async A) : Outcome A :=
  fst (m (browser mounted ∅)).

Definition requests_of {A} (m : Async A) : list Request :=
  calls (snd (m (browser mounted ∅))).

(** What one attempt of [callGeminiWithPrompt] can use of the answer to
    its request: nothing when the call throws, when the answer is blocked
    (RECITATION or SAFETY), when it has no text, or when the text does not
    parse. *)
Definition usable_answer (P : Platform) (req : Request)
  : option DualScriptResponse :=
  match generateContent P req with
  | Resolved response =>
      match finishReason response with
      | Some RECITATION | Some SAFETY => None
      | _ =>
          match text response with
          | Some t => if truthy t then JSON_parse_script P t else None
          | None => None
          end
      end
  | Rejected _ => None
  end.

(** The request of one transcription attempt. *)
Definition transcription_request (systemPrompt : SystemPrompt)
    (userPrompt : PromptTemplate) (textInput0 : jsstring)
    (fileBase64 mimeType0 : option jsstring) : Request :=
  {| model := Gemini_2_5_flash; systemInstruction := Some systemPrompt;
     parts := input_parts textInput0 fileBase64 mimeType0
              ++ [Prompt userPrompt []] |}.

(** ** Runs of the two flows *)

Inductive Version := Version1 | Version2.

(** Submitting the input: [processContent] in version 1, [handleProcess]
    in version 2. *)
Definition submit (v : Version) (P : Platform) : Async unit :=
  match v with
  | Version1 => V1.processContent P
  | Version2 => V2.handleProcess P
  end.

(** The guards at the head of [handleProcess]; [processContent] has none. *)
Definition accepted (v : Version) (st : React) : Prop :=
  match v with
  | Version1 => True
  | Version2 =>
      match mode st with
      | TEXT => trim (textInput st) <> []
      | FILE => file st <> None
      end
  end.

(** The content a run fingerprints: the base64 data of the file in file
    mode with a file ([None] when it cannot be read), else the text,
    trimmed in version 1 and as typed in version 2. *)
Definition hashed_content (v : Version) (st : React) : option jsstring :=
  match mode st, file st with
  | FILE, Some fd => File.base64Data (FileData.file fd)
  | _, _ =>
      Some (match v with
            | Version1 => trim (textInput st)
            | Version2 => textInput st
            end)
  end.

(** The arguments a run passes to the gateway. *)
Definition text_arg (st : React) : jsstring :=
  match mode st with TEXT => textInput st | FILE => [] end.

Definition file_arg (st : React) : option jsstring :=
  match mode st, file st with
  | FILE, Some fd => File.base64Data (FileData.file fd)
  | _, _ => None
  end.

Definition mime_arg (st : React) : option jsstring :=
  match mode st, file st with
  | FILE, Some fd => Some (FileData.mimeType fd)
  | _, _ => None
  end.

(** The state in which a finished run shows its result. *)
Definition done_state (v : Version) : AppState :=
  match v with Version1 => PLAYING | Version2 => IDLE end.

(** The browser once the callbacks queued with [setTimeout] have fired;
    version 2 queues none. *)
Definition settled (v : Version) (b : Browser) : Browser :=
  match v with Version1 => run_timers b | Version2 => b end.

(** The 44 bytes of a WAV header for [dataSize] bytes of 16-bit mono PCM
    at 24 kHz. *)
Definition le16 (v : N) : list N := [v mod 256; (v / 256) mod 256].

Definition le32 (v : N) : list N :=
  [v mod 256; (v / 256) mod 256; (v / 65536) mod 256;
   (v / 16777216) mod 256].

Definition wav_header (dataSize : N) : list N :=
  js "RIFF" ++ le32 (36 + dataSize) ++ js "WAVE" ++ js "fmt "
  ++ le32 16 ++ le16 1 ++ le16 1 ++ le32 24000 ++ le32 48000
  ++ le16 2 ++ le16 16 ++ js "data" ++ le32 dataSize.

(** The bytes of the WAV blob made of decoded audio. *)
Definition wav_blob (pcmData : jsstring) : list N :=
  wav_header (N.of_nat (length pcmData))
  ++ map (fun c => c mod 256) pcmData.

(** The URL the next blob registered in [b] gets, and [b] with one more
    blob registered. *)
Definition next_url (P : Platform) (b : Browser) : jsstring :=
  URL_createObjectURL P (length (objectURLs b)).

Definition register (blobs : list (list N)) (b : Browser) : Browser :=
  {| react := react b; idb := idb b; timers := timers b; calls := calls b;
     objectURLs := objectURLs b ++ blobs |}.

(** The audio of a stored result that has to be made playable: none when
    the field is null or the empty string. *)
Definition audio_to_restore (r : ProcessingResult) : option jsstring :=
  match audioBase64 r with
  | Some audio => if truthy audio then Some audio else None
  | None => None
  end.

(** What a run puts in the result cell for the result [r].  Version 2
    puts [r] as it is.  Version 1 replaces the audio field: by null when
    there is no [audio] to decode, else by the URL of a new blob holding
    the WAV file of the decoded audio; when [atob] throws there is nothing
    to show ([None]).  With the result come the blobs that this
    registers. *)
Definition display (v : Version) (P : Platform) (b : Browser)
    (r : ProcessingResult) (audio : option jsstring)
  : option (ProcessingResult * list (list N)) :=
  match v with
  | Version2 => Some (r, [])
  | Version1 =>
      match audio with
      | None => Some (V1.with_audio r None, [])
      | Some base64Audio =>
          pcmData ← atob P base64Audio;
          Some (V1.with_audio r (Some (next_url P b)), [wav_blob pcmData])
      end
  end.

(** What a run puts in the result cell for a result whose audio got the
    URL [url]: version 1 replaces the audio field by the URL, version 2
    keeps the result as it is (its player decodes the audio later). *)
Definition shown (v : Version) (r : ProcessingResult) (url : option jsstring)
  : ProcessingResult :=
  match v with
  | Version1 => V1.with_audio r url
  | Version2 => r
  end.

(** The run can show the audio: in version 1 the run itself decodes it
    with [atob]; a run of version 2 never decodes it. *)
Definition playable (v : Version) (P : Platform) (audio : jsstring) : Prop :=
  match v with
  | Version1 => atob P audio <> None
  | Version2 => True
  end.

(** Two results that differ at most in the audio field. *)
Definition same_but_audio (r1 r2 : ProcessingResult) : Prop :=
  script r1 = script r2 /\ relatedVideos r1 = relatedVideos r2
  /\ solutions r1 = solutions r2.

(** The message of the error state. *)
Definition error_message (v : Version) (e : Error) : StatusMessage :=
  match v with
  | Version1 => ErrorMessage e
  | Version2 => ErrorOccurred e
  end.

(** The stages of a run after a cache miss. *)
Definition transcribe (v : Version) (P : Platform) (st : React)
  : Async DualScriptResponse :=
  match v with
  | Version1 =>
      V1.generateReadingScript P (text_arg st) (file_arg st) (mime_arg st)
  | Version2 =>
      V2.generateReadingScript P (text_arg st) (file_arg st) (mime_arg st)
  end.

Definition solve (v : Version) (P : Platform) (st : React)
    (scripts : DualScriptResponse) : Async (list SolutionItem) :=
  match v with
  | Version1 => V1.analyzeAndSolve P (displayScript scripts)
  | Version2 =>
      V2.analyzeAndSolve P (displayScript scripts) (file_arg st) (mime_arg st)
  end.

Definition suggest (v : Version) (P : Platform)
    (scripts : DualScriptResponse) : Async (list VideoRecommendation) :=
  match v with
  | Version1 => V1.getRelatedVideoQueries P (displayScript scripts)
  | Version2 => V2.getRelatedVideoQueries P (displayScript scripts)
  end.

(** The value of a stage that degrades to the empty sequence. *)
Definition value_of {A} (m : Async (list A)) : list A :=
  match outcome_of m with
  | Resolved l => l
  | Rejected _ => []
  end.

(** The requests of the three stages after the transcription, in the
    order each version sends them. *)
Definition later_requests (v : Version) (P : Platform) (st : React)
    (scripts : DualScriptResponse) : list Request :=
  match v with
  | Version1 =>
      requests_of (synthesizeSpeech P (readingScript scripts))
      ++ requests_of (suggest v P scripts)
      ++ requests_of (solve v P st scripts)
  | Version2 =>
      requests_of (solve v P st scripts)
      ++ requests_of (suggest v P scripts)
      ++ requests_of (synthesizeSpeech P (readingScript scripts))
  end.

(** The result a run assembles. *)
Definition assembled (v : Version) (P : Platform) (st : React)
    (scripts : DualScriptResponse) (audio : jsstring) : ProcessingResult :=
  {| script := displayScript scripts;
     audioBase64 := Some audio;
     relatedVideos := value_of (suggest v P scripts);
     solutions := value_of (solve v P st scripts) |}.

(** The React state a run ends in: the inputs stay. *)
Definition ends (st : React) (a : AppState) (res : option ProcessingResult)
    (msg : StatusMessage) (cached : bool) : React :=
  {| appState := a; mode := mode st; textInput := textInput st;
     file := file st; result := res; statusMessage := msg;
     isCachedResult := cached |}.

(** The result cell when a run fails: version 2 clears it on entry. *)
Definition result_on_entry (v : Version) (st : React)
  : option ProcessingResult :=
  match v with Version1 => result st | Version2 => None end.

(** The browser after a run, case by case: the file cannot be read; the
    probe of the cache fails, hits or misses; the transcription fails; the
    speech synthesis fails; the record is written, or is not; the audio
    can be shown, or cannot be decoded. *)
Definition after_miss (v : Version) (P : Platform) (b : Browser)
    (content : jsstring) (cached : bool) : Browser :=
  let st := react b in
  let g := transcribe v P st in
  match outcome_of g with
  | Rejected e =>
      {| react := ends st ERROR (result_on_entry v st) (error_message v e)
                    cached;
         idb := idb b; timers := timers b;
         calls := calls b ++ requests_of g; objectURLs := objectURLs b |}
  | Resolved scripts =>
      let sent := requests_of g ++ later_requests v P st scripts in
      match outcome_of (synthesizeSpeech P (readingScript scripts)) with
      | Rejected e =>
          {| react := ends st ERROR (result_on_entry v st)
                        (error_message v e) cached;
             idb := idb b; timers := timers b; calls := calls b ++ sent;
             objectURLs := objectURLs b |}
      | Resolved audio =>
          let final := assembled v P st scripts audio in
          match idb_fault P OpPut with
          | RequestFails =>
              {| react := ends st ERROR (result_on_entry v st)
                            (error_message v (StoreRequestError OpPut))
                            cached;
                 idb := idb b; timers := timers b; calls := calls b ++ sent;
                 objectURLs := objectURLs b |}
          | fault =>
              let stored :=
                match fault with
                | Healthy =>
                    <[computeContentHash content := (Date_now P, final)]>
                      (idb b)
                | _ => idb b
                end in
              match display v P b final (Some audio) with
              | Some (res, blobs) =>
                  {| react :=
                       ends st (done_state v) (Some res)
                         (match v with
                          | Version1 => CreatingVoice
                          | Version2 => CreatingVoiceShort
                          end) cached;
                     idb := stored; timers := timers b;
                     calls := calls b ++ sent;
                     objectURLs := objectURLs b ++ blobs |}
              | None =>
                  {| react := ends st ERROR (result_on_entry v st)
                                (error_message v InvalidCharacterError)
                                cached;
                     idb := stored; timers := timers b;
                     calls := calls b ++ sent;
                     objectURLs := objectURLs b |}
              end
          end
      end
  end.

Definition after_submit (v : Version) (P : Platform) (b : Browser)
  : Browser :=
  let st := react b in
  match hashed_content v st with
  | None =>
      {| react := ends st ERROR (result_on_entry v st)
                    (error_message v FileReadError) (isCachedResult st);
         idb := idb b; timers := timers b; calls := calls b;
         objectURLs := objectURLs b |}
  | Some content =>
      match fst (getFromCache P (computeContentHash content) b) with
      | Rejected e =>
          {| react := ends st ERROR (result_on_entry v st)
                        (error_message v e) (isCachedResult st);
             idb := idb b; timers := timers b; calls := calls b;
             objectURLs := objectURLs b |}
      | Resolved (Some r) =>
          match display v P b r (audio_to_restore r) with
          | Some (res, blobs) =>
              match v with
              | Version1 =>
                  {| react := ends st ANALYZING (result st) CheckingCache
                                (isCachedResult st);
                     idb := idb b;
                     timers := timers b ++ [(800, res)];
                     calls := calls b;
                     objectURLs := objectURLs b ++ blobs |}
              | Version2 =>
                  {| react := ends st IDLE (Some res) AnalyzingDocumentShort
                                true;
                     idb := idb b; timers := timers b; calls := calls b;
                     objectURLs := objectURLs b ++ blobs |}
              end
          | None =>
              {| react := ends st ERROR (result_on_entry v st)
                            (error_message v InvalidCharacterError)
                            (isCachedResult st);
                 idb := idb b; timers := timers b; calls := calls b;
                 objectURLs := objectURLs b |}
          end
      | Resolved None =>
          after_miss v P b content
            (match v with
             | Version1 => false
             | Version2 => isCachedResult st
             end)
      end
  end.

(** ** The requests and answers of the later stages *)

Definition tts_request (script0 : jsstring) : Request :=
  {| model := Gemini_2_5_flash_preview_tts; systemInstruction := None;
     parts := [Text script0] |}.

Definition suggest_request (v : Version) (scripts : DualScriptResponse)
  : Request :=
  {| model := Gemini_2_5_flash; systemInstruction := None;
     parts := [Prompt (match v with
                       | Version1 => VideoQueriesPrompt
                       | Version2 => VideoQueriesPromptShort
                       end)
                      (substring0 3000 (displayScript scripts))] |}.

Definition solve_request (v : Version) (st : React)
    (scripts : DualScriptResponse) : Request :=
  match v with
  | Version1 =>
      {| model := Gemini_2_5_flash; systemInstruction := None;
         parts := [Prompt SolvePromptSVG
                     (substring0 10000 (displayScript scripts))] |}
  | Version2 =>
      {| model := Gemini_2_5_flash; systemInstruction := None;
         parts :=
           (match file_arg st, mime_arg st with
            | Some data, Some mime =>
                if truthy data && truthy mime then [InlineData mime data]
                else []
            | _, _ => []
            end)
           ++ [Prompt SolvePromptImage
                 (substring0 10000 (displayScript scripts))] |}
  end.

(** A stage that asks for a JSON list fails when the call throws or when
    the text of the answer does not parse; an answer without text is an
    empty list. *)
Definition stage_fails {A} (P : Platform)
    (parse : jsstring -> option (list A)) (req : Request) : Prop :=
  (exists e, generateContent P req = Rejected e)
  \/ (exists response t,
        generateContent P req = Resolved response
        /\ text response = Some t /\ truthy t = true /\ parse t = None).

(** The list such a stage reads off the answer. *)
Definition stage_answer {A} (P : Platform)
    (parse : jsstring -> option (list A)) (req : Request) : list A :=
  match generateContent P req with
  | Resolved response =>
      match text response with
      | Some t => if truthy t then default [] (parse t) else []
      | None => []
      end
  | Rejected _ => []
  end.

(** Requests to the image model only. *)
Definition image_requests (l : list Request) : Prop :=
  Forall (fun r => model r = Gemini_2_5_flash_image) l.

(** An attempt with nothing to use: the call throws, the answer is blocked,
    it has no text, or the text does not parse. *)
Definition nothing_usable (P : Platform) (req : Request) : Prop :=
  (exists e, generateContent P req = Rejected e)
  \/ (exists response,
        generateContent P req = Resolved response
        /\ (finishReason response = Some RECITATION
            \/ finishReason response = Some SAFETY
            \/ text response = None
            \/ text response = Some []
            \/ exists t, text response = Some t
                         /\ JSON_parse_script P t = None)).

(** ** More sample platforms *)

Definition sample_scripts : DualScriptResponse :=
  {| displayScript := js "Fe + 2HCl -> FeCl2 + H2";
     readingScript := js "Iron and Hydrochloric Acid" |}.

Definition sample_item : SolutionItem :=
  {| questionDisplay := js "Balance Fe + HCl";
     questionReading := js "Balance Iron and Hydrochloric Acid";
     solutionDisplay := js "Fe + 2HCl -> FeCl2 + H2";
     solutionReading := js "Iron chloride and Hydrogen";
     imagePrompt := Some [];
     illustrationImage := None |}.

(** An API that answers every request. *)
Definition answers (req : Request) : Outcome Response :=
  match model req with
  | Gemini_2_5_flash_preview_tts =>
      Resolved {| finishReason := Some STOP; text := None;
                  inlineParts := [Some (Some (js "UklGRg=="))] |}
  | Gemini_2_5_flash_image =>
      Resolved {| finishReason := Some STOP; text := None;
                  inlineParts := [None; Some (Some (js "iVBORw0KGgo="))] |}
  | Gemini_2_5_flash =>
      Resolved {| finishReason := Some STOP; text := Some (js "[{}]");
                  inlineParts := [] |}
  end.

Definition platform (gen : Request -> Outcome Response)
    (faults : StoreOp -> Fault) : Platform :=
  {| Date_now := 1700000000000;
     idb_fault := faults;
     generateContent := gen;
     JSON_parse_script := fun _ => Some sample_scripts;
     JSON_parse_videos :=
       fun _ => Some [ {| title := js "Iron"; query := js "iron acid" |} ];
     JSON_parse_solutions := fun _ => Some [sample_item];
     atob := base64_decode;
     URL_createObjectURL := blob_url;
     toLowerCase := ascii_toLowerCase |}.

Definition healthy (op : StoreOp) : Fault := Healthy.

(** The request on the store fails for one operation. *)
Definition request_fails (failing : StoreOp) (op : StoreOp) : Fault :=
  match failing, op with
  | OpPut, OpPut | OpGet, OpGet | OpGetAll, OpGetAll | OpDelete, OpDelete =>
      RequestFails
  | _, _ => Healthy
  end.

(** Opening the database fails for every operation. *)
Definition cannot_open (op : StoreOp) : Fault := OpenFails.

Definition online : Platform := platform answers healthy.

(** The strict prompt meets a network error; the other calls succeed. *)
Definition primary_throws (req : Request) : Outcome Response :=
  match systemInstruction req with
  | Some PromptOCR => Rejected ApiError
  | _ => answers req
  end.

(** Every transcription attempt is blocked by the safety filter. *)
Definition blocks (req : Request) : Outcome Response :=
  match systemInstruction req with
  | Some _ =>
      Resolved {| finishReason := Some SAFETY; text := None;
                  inlineParts := [] |}
  | None => answers req
  end.

(** The solver and the suggestions are down; the rest answers. *)
Definition is_stage_prompt (p : Part) : bool :=
  match p with
  | Prompt SolvePromptSVG _ | Prompt SolvePromptImage _
  | Prompt VideoQueriesPrompt _ | Prompt VideoQueriesPromptShort _ => true
  | _ => false
  end.

Definition stages_down (req : Request) : Outcome Response :=
  if existsb is_stage_prompt (parts req) then Rejected ApiError
  else answers req.

(** The speech model is down; the rest answers. *)
Definition speech_down (req : Request) : Outcome Response :=
  match model req with
  | Gemini_2_5_flash_preview_tts => Rejected ApiError
  | _ => answers req
  end.

(** ** Sample submissions *)

Definition water_text : jsstring := js "2H2 + O2 -> 2H2O".

(** The text has been submitted before: its record is in the store. *)
Definition water_cached : Browser :=
  browser (typed water_text) {[ computeContentHash water_text := (5%Z, water) ]}.

(** Nothing typed, in text mode, and a record under the fingerprint of the
    empty text. *)
Definition empty_cached : Browser :=
  browser (typed []) {[ computeContentHash [] := (5%Z, water) ]}.

(** A first submission of a text, with an empty store. *)
Definition iron_fresh : Browser := browser (typed (js "Fe + HCl")) ∅.

(** * More of the code *)

(** ** [components/HistoryList.tsx] *)

(** The [useState] cells of the history panel. *)
Record HistoryListState := {
  history : list HistoryEntry.t;
  isLoading : bool
}.

Section HistoryList.

Variable P : Platform.

(** [loadHistory]: no [try]; a rejection of [getHistory] leaves the panel
    as [setIsLoading(true)] made it. *)
Definition loadHistory (s : HistoryListState) (b : Browser)
  : Outcome unit * (HistoryListState * Browser) :=
  let loading := {| history := history s; isLoading := true |} in
  match getHistory P b with
  | (Resolved data, b') =>
      (Resolved tt, ({| history := data; isLoading := false |}, b'))
  | (Rejected e, b') => (Rejected e, (loading, b'))
  end.

(** [handleDelete]: [confirmed] is the answer to [window.confirm].  The
    call of [loadHistory] is not awaited: its effects take place, its
    outcome is dropped. *)
Definition handleDelete (confirmed : bool) (id : jsstring)
    (s : HistoryListState) (b : Browser)
  : Outcome unit * (HistoryListState * Browser) :=
  if confirmed then
    match deleteFromCache P id b with
    | (Resolved _, b') => (Resolved tt, snd (loadHistory s b'))
    | (Rejected e, b') => (Rejected e, (s, b'))
    end
  else (Resolved tt, (s, b)).

End HistoryList.

(** ** The other handlers of [App.tsx] *)

Definition setFile (f : option FileData.t) : Async unit :=
  set_react (fun r =>
    {| appState := appState r; mode := mode r; textInput := textInput r;
       file := f; result := result r;
       statusMessage := statusMessage r;
       isCachedResult := isCachedResult r |}).

Definition setTextInput (t : jsstring) : Async unit :=
  set_react (fun r =>
    {| appState := appState r; mode := mode r; textInput := t;
       file := file r; result := result r;
       statusMessage := statusMessage r;
       isCachedResult := isCachedResult r |}).

Definition setMode (m : InputMode) : Async unit :=
  set_react (fun r =>
    {| appState := appState r; mode := m; textInput := textInput r;
       file := file r; result := result r;
       statusMessage := statusMessage r;
       isCachedResult := isCachedResult r |}).

(** [handleReset], the same in both versions. *)
Definition handleReset : Async unit :=
  setAppState IDLE;;
  setResult None;;
  setFile None;;
  setTextInput [];;
  setIsCachedResult false.

(** [loadFromHistory] of the second version: [showHistory] is the cell
    that keeps the panel open, and the value returned is that cell after
    the call.  No [try]: a rejection of [getFromCache] leaves all cells as
    they were. *)
Definition V2_loadFromHistory (P : Platform) (id : jsstring)
    (showHistory : bool) : Async bool :=
  let* cached := getFromCache P id in
  match cached with
  | Some cached =>
      setResult (Some cached);;
      setIsCachedResult true;;
      setAppState IDLE;;
      (* setShowHistory(false) *) resolve false
  | None => resolve showHistory
  end.

(** ** The rest of [services/fileUtils.ts] *)

(** [s.startsWith(sub)] and [s.includes(sub)] *)
Fixpoint startsWith (s sub : jsstring) : bool :=
  match sub, s with
  | [], _ => true
  | _ :: _, [] => false
  | c :: sub', d :: s' => (c =? d) && startsWith s' sub'
  end.

Fixpoint String_includes (s sub : jsstring) : bool :=
  startsWith s sub
  || match s with
     | [] => false
     | _ :: s' => String_includes s' sub
     end.

(** [getFileIconName] *)
Definition getFileIconName (mimeType : jsstring) : jsstring :=
  if String_includes mimeType (js "pdf") then js "pdf"
  else if String_includes mimeType (js "image") then js "image"
  else if String_includes mimeType (js "word")
          || String_includes mimeType (js "document") then js "word"
  else js "file".

(** What [reader.onload] of [readFileToBase64] resolves with:
    [result.split(',')[1]]; [None] is [undefined]. *)
Definition dataURL_base64 (result0 : jsstring) : option jsstring :=
  split 44 result0 !! 1%nat.

(** ** [components/InputSection.tsx] *)

#[global] Instance AppState_eq_dec : EqDecision AppState.
Proof. solve_decision. Defined.

(** The [useState] cells of the input section. *)
Record InputSectionState := {
  dragActive : bool;
  error : option ValidationError
}.

(** The props [mode], [text], [file] are cells of [App]: a handler goes
    from the cells of both components to the cells of both. *)
Definition with_file (f : option FileData.t) (r : React) : React :=
  {| appState := appState r; mode := mode r; textInput := textInput r;
     file := f; result := result r; statusMessage := statusMessage r;
     isCachedResult := isCachedResult r |}.

Definition with_mode (m : InputMode) (r : React) : React :=
  {| appState := appState r; mode := m; textInput := textInput r;
     file := file r; result := result r; statusMessage := statusMessage r;
     isCachedResult := isCachedResult r |}.

Definition with_text (t : jsstring) (r : React) : React :=
  {| appState := appState r; mode := mode r; textInput := t;
     file := file r; result := result r; statusMessage := statusMessage r;
     isCachedResult := isCachedResult r |}.

(** [handleFile].  The preview URL it also stores is for display only and
    is not part of [FileData.t] here. *)
Definition handleFile (uploadedFile : File.t)
    (rs : React * InputSectionState) : React * InputSectionState :=
  let (r, s) := rs in
  match validateFile uploadedFile with
  | Some validationError =>
      (r, {| dragActive := dragActive s; error := Some validationError |})
  | None =>
      (with_file (Some (FileData.mk uploadedFile (File.type uploadedFile))) r,
       {| dragActive := dragActive s; error := None |})
  end.

(** The drag events the drop zone listens to. *)
Inductive DragType := dragenter | dragover | dragleave.

(** [handleDrag] *)
Definition handleDrag (type : DragType) (rs : React * InputSectionState)
  : React * InputSectionState :=
  let (r, s) := rs in
  match type with
  | dragenter | dragover => (r, {| dragActive := true; error := error s |})
  | dragleave => (r, {| dragActive := false; error := error s |})
  end.

(** [handleDrop]: [files] is [e.dataTransfer.files]. *)
Definition handleDrop (files : list File.t) (rs : React * InputSectionState)
  : React * InputSectionState :=
  let (r, s) := rs in
  let rs' := (r, {| dragActive := false; error := error s |}) in
  match files with
  | f :: _ => handleFile f rs'
  | [] => rs'
  end.

(** [handleChange]: [files] is [e.target.files]. *)
Definition handleChange (files : list File.t) (rs : React * InputSectionState)
  : React * InputSectionState :=
  match files with
  | f :: _ => handleFile f rs
  | [] => rs
  end.

(** An item of the clipboard: its type and what [getAsFile()] returns. *)
Record ClipboardItem := { item_type : jsstring; getAsFile : option File.t }.

(** [handlePaste]: the first item of an image type that yields a file
    switches to file mode and is handled as an upload. *)
Fixpoint handlePaste (items : list ClipboardItem)
    (rs : React * InputSectionState) : React * InputSectionState :=
  match items with
  | [] => rs
  | item :: rest =>
      if String_includes (item_type item) (js "image") then
        match getAsFile item with
        | Some blob => handleFile blob (with_mode FILE (fst rs), snd rs)
        | None => handlePaste rest rs
        end
      else handlePaste rest rs
  end.

(** [clearFile] *)
Definition clearFile (rs : React * InputSectionState)
  : React * InputSectionState :=
  (with_file None (fst rs), snd rs).

(** The [disabled] attribute of the action button, with
    [isProcessing = (appState !== IDLE)] as both versions of [App] pass
    it. *)
Definition process_disabled (r : React) : bool :=
  negb (bool_decide (appState r = IDLE))
  || (bool_decide (mode r = TEXT) && negb (truthy (trim (textInput r))))
  || (bool_decide (mode r = FILE) && negb (bool_decide (is_Some (file r)))).

(** What the user can do in the input section. *)
Inductive InputEvent :=
  | Drag (type : DragType)
  | Drop (files : list File.t)
  | Change (files : list File.t)
  | Paste (items : list ClipboardItem)
  | ClearFile
  | SelectMode (m : InputMode)
  | Type_ (t : jsstring).

Definition input_step (rs : React * InputSectionState) (ev : InputEvent)
  : React * InputSectionState :=
  match ev with
  | Drag type => handleDrag type rs
  | Drop files => handleDrop files rs
  | Change files => handleChange files rs
  | Paste items => handlePaste items rs
  | ClearFile => clearFile rs
  | SelectMode m => (with_mode m (fst rs), snd rs)
  | Type_ t => (with_text t (fst rs), snd rs)
  end.

(** The file slot holds nothing, or a file that [validateFile] accepts,
    under its own MIME type. *)
Definition file_validated (r : React) : Prop :=
  match file r with
  | None => True
  | Some fd =>
      validateFile (FileData.file fd) = None
      /\ FileData.mimeType fd = File.type (FileData.file fd)
  end.

(** ** Vocabulary of the further statements *)

(** The request for the illustration of one image prompt. *)
Definition image_request (prompt : jsstring) : Request :=
  {| model := Gemini_2_5_flash_image; systemInstruction := None;
     parts := [Text (js "Scientifically accurate chemical structure, "
                     ++ prompt
                     ++ js ", 2D flat view, high quality, white background")]
  |}.

(** The image prompt of an item when it is of substance: more than ten
    code units once trimmed, and not the word none in any case. *)
Definition substantial_prompt (P : Platform) (item : SolutionItem)
  : option jsstring :=
  match imagePrompt item with
  | Some prompt =>
      if (10 <? length (trim prompt))%nat
         && negb (bool_decide (toLowerCase P prompt = js "none"))
      then Some prompt else None
  | None => None
  end.

(** The image an answer of the image model carries, if any. *)
Definition image_of (P : Platform) (prompt : jsstring) : option jsstring :=
  match generateContent P (image_request prompt) with
  | Resolved response => V2.first_inlineData (inlineParts response)
  | Rejected _ => None
  end.

(** A solved exercise that asks for a drawing, and a platform whose
    solver returns it before an exercise without drawing. *)
Definition benzene_item : SolutionItem :=
  {| questionDisplay := js "Draw benzene";
     questionReading := js "Draw benzene";
     solutionDisplay := js "C6H6";
     solutionReading := js "A ring of six carbon atoms";
     imagePrompt := Some (js "benzene ring C6H6");
     illustrationImage := None |}.

Definition drawing : Platform :=
  {| Date_now := 1700000000000;
     idb_fault := healthy;
     generateContent := answers;
     JSON_parse_script := fun _ => Some sample_scripts;
     JSON_parse_videos := fun _ => Some [];
     JSON_parse_solutions := fun _ => Some [benzene_item; sample_item];
     atob := base64_decode;
     URL_createObjectURL := blob_url;
     toLowerCase := ascii_toLowerCase |}.

(** A code unit at the head of [c :: rest] that is a surrogate without its
    partner: a low surrogate (its high one would stand before), or a high
    surrogate not followed by a low one. *)
Definition lone_surrogate (c : N) (rest : jsstring) : bool :=
  isLowSurrogate c
  || (isHighSurrogate c
      && match rest with
         | d :: _ => negb (isLowSurrogate d)
         | [] => true
         end).

(** The text does not end in the middle of a pair. *)
Definition ends_whole (s : jsstring) : bool :=
  match last s with
  | Some c => negb (isHighSurrogate c)
  | None => true
  end.
(** * Properties *)

(** ** The fingerprint *)

Lemma byte_hex_table :
  forallb (fun b => hex_pair_ok (padStart 2 48 (toString16 b)))
          (map N.of_nat (seq 0 256)) = true.
Proof. vm_compute. reflexivity. Qed.

Lemma byte_hex (b : N) :
  b < 256 -> hex_pair_ok (padStart 2 48 (toString16 b)) = true.
Proof.
  intros Hb.
  pose proof byte_hex_table as Htable.
  rewrite forallb_forall in Htable.
  apply Htable.
  apply in_map_iff. exists (N.to_nat b). split.
  - apply N2Nat.id.
  - apply in_seq. lia.
Qed.

Lemma concat_hex_pairs (l : list jsstring) :
  Forall (fun s => hex_pair_ok s = true) l ->
  length (concat l) = (2 * length l)%nat
  /\ Forall (fun c => isLowerHex c = true) (concat l).
Proof.
  induction 1 as [|s l Hs Hl [IHlen IHhex]]; simpl.
  - split; [reflexivity | constructor].
  - unfold hex_pair_ok in Hs.
    apply andb_true_iff in Hs as [Hlen Hall].
    apply Nat.eqb_eq in Hlen.
    split.
    + rewrite length_app, IHlen, Hlen. lia.
    + apply Forall_app. split; [|exact IHhex].
      apply Forall_forall. intros c Hc.
      rewrite forallb_forall in Hall. apply Hall.
      apply list_elem_of_In. exact Hc.
Qed.

Lemma word_bytes_small (w : N) : Forall (fun x => x < 256) (SHA256.word_bytes w).
Proof.
  unfold SHA256.word_bytes.
  repeat constructor; apply N.mod_lt; discriminate.
Qed.

Lemma digest_bytes (msg : list N) :
  length (SHA256.digest msg) = 32%nat
  /\ Forall (fun x => x < 256) (SHA256.digest msg).
Proof.
  unfold SHA256.digest.
  generalize (fold_left SHA256.compress
                (SHA256.chunks (length (SHA256.pad msg)) 64 (SHA256.pad msg))
                SHA256.H0).
  intros s. unfold SHA256.state_bytes. split.
  - reflexivity.
  - repeat (apply Forall_app; split); apply word_bytes_small.
Qed.

Lemma computeContentHash_shape (content : jsstring) :
  length (computeContentHash content) = 64%nat
  /\ Forall (fun c => isLowerHex c = true) (computeContentHash content).
Proof.
  unfold computeContentHash.
  destruct (digest_bytes (TextEncoder_encode content)) as [Hlen Hsmall].
  set (hashArray := SHA256.digest (TextEncoder_encode content)) in *.
  destruct (concat_hex_pairs
              (map (fun b => padStart 2 48 (toString16 b)) hashArray))
    as [Hl Hh].
  - apply Forall_map. eapply Forall_impl; [exact Hsmall|].
    intros b Hb. apply byte_hex. exact Hb.
  - split; [|exact Hh].
    rewrite Hl, length_map, Hlen. reflexivity.
Qed.

Lemma byte_unhex_table :
  forallb hex_pair_reads (map N.of_nat (seq 0 256)) = true.
Proof. vm_compute. reflexivity. Qed.

Lemma byte_unhex (b : N) :
  b < 256 -> unhex (padStart 2 48 (toString16 b)) = Some [b].
Proof.
  intros Hb.
  pose proof byte_unhex_table as Htable.
  rewrite forallb_forall in Htable.
  assert (Hin : In b (map N.of_nat (seq 0 256))).
  { apply in_map_iff. exists (N.to_nat b). split.
    - apply N2Nat.id.
    - apply in_seq. lia. }
  apply Htable in Hin. unfold hex_pair_reads in Hin.
  apply bool_decide_eq_true_1 in Hin. exact Hin.
Qed.

Lemma unhex_pair_app (pair rest : jsstring) (b : N) :
  hex_pair_ok pair = true ->
  unhex pair = Some [b] ->
  unhex (pair ++ rest) = (bytes ← unhex rest; Some (b :: bytes)).
Proof.
  unfold hex_pair_ok. intros Hok Hpair.
  apply andb_true_iff in Hok as [Hlen _]. apply Nat.eqb_eq in Hlen.
  destruct pair as [|hi [|lo [|x pair]]]; try discriminate.
  cbn [app unhex] in *.
  destruct (hex_value hi) as [h|]; [|discriminate].
  destruct (hex_value lo) as [l|]; [|discriminate].
  cbn in *. injection Hpair as <-.
  destruct (unhex rest); reflexivity.
Qed.

Lemma unhex_bytes (bytes : list N) :
  Forall (fun x => x < 256) bytes ->
  unhex (concat (map (fun b => padStart 2 48 (toString16 b)) bytes))
  = Some bytes.
Proof.
  induction 1 as [|b bytes Hb _ IH]; [reflexivity|].
  cbn [map concat].
  rewrite (unhex_pair_app _ _ b (byte_hex b Hb) (byte_unhex b Hb)), IH.
  reflexivity.
Qed.

Lemma computeContentHash_unhex (content : jsstring) :
  unhex (computeContentHash content)
  = Some (SHA256.digest (TextEncoder_encode content)).
Proof.
  unfold computeContentHash. apply unhex_bytes, digest_bytes.
Qed.

(** *** The encoding loses nothing on well-formed text *)

Lemma div_mod_inj (a b k : N) :
  k <> 0 -> a / k = b / k -> a mod k = b mod k -> a = b.
Proof.
  intros Hk Hd Hm.
  rewrite (N.div_mod a k Hk), (N.div_mod b k Hk), Hd, Hm. reflexivity.
Qed.

Lemma sextets_inj_3 (a b : N) :
  a / 4096 = b / 4096 -> (a / 64) mod 64 = (b / 64) mod 64 ->
  a mod 64 = b mod 64 -> a = b.
Proof.
  intros H1 H2 H3. apply (div_mod_inj a b 64); [discriminate| |exact H3].
  apply (div_mod_inj _ _ 64); [discriminate| |exact H2].
  rewrite !N.Div0.div_div. exact H1.
Qed.

Lemma sextets_inj_4 (a b : N) :
  a / 262144 = b / 262144 -> (a / 4096) mod 64 = (b / 4096) mod 64 ->
  (a / 64) mod 64 = (b / 64) mod 64 -> a mod 64 = b mod 64 -> a = b.
Proof.
  intros H1 H2 H3 H4. apply (div_mod_inj a b 64); [discriminate| |exact H4].
  apply (div_mod_inj _ _ 64); [discriminate| |exact H3].
  rewrite !N.Div0.div_div.
  apply (div_mod_inj _ _ 64); [discriminate| |exact H2].
  rewrite !N.Div0.div_div. exact H1.
Qed.

Lemma lead_2 (c : N) : 128 <= c < 2048 -> 194 <= 192 + c / 64 <= 223.
Proof. intros H. zify. Z.to_euclidean_division_equations. lia. Qed.

Lemma lead_3 (c : N) : 2048 <= c < 65536 -> 224 <= 224 + c / 4096 <= 239.
Proof. intros H. zify. Z.to_euclidean_division_equations. lia. Qed.

Lemma lead_4 (c d : N) :
  55296 <= c <= 56319 -> 56320 <= d <= 57343 ->
  240 <= 240 + (65536 + (c - 55296) * 1024 + (d - 56320)) / 262144 <= 244.
Proof.
  intros Hc Hd.
  assert (H : 65536 <= 65536 + (c - 55296) * 1024 + (d - 56320) <= 1114111)
    by lia.
  revert H. generalize (65536 + (c - 55296) * 1024 + (d - 56320)).
  intros n H. zify. Z.to_euclidean_division_equations. lia.
Qed.

Lemma encode_cons_cases (c : N) (rest : jsstring) :
  well_formed (c :: rest) = true ->
  (c < 128 /\ TextEncoder_encode (c :: rest) = c :: TextEncoder_encode rest
   /\ well_formed rest = true)
  \/ (128 <= c < 2048
      /\ TextEncoder_encode (c :: rest)
         = 192 + c / 64 :: 128 + c mod 64 :: TextEncoder_encode rest
      /\ well_formed rest = true)
  \/ (2048 <= c < 65536
      /\ TextEncoder_encode (c :: rest)
         = 224 + c / 4096 :: 128 + (c / 64) mod 64 :: 128 + c mod 64
           :: TextEncoder_encode rest
      /\ well_formed rest = true)
  \/ (exists d rest',
        rest = d :: rest' /\ 55296 <= c <= 56319 /\ 56320 <= d <= 57343
        /\ TextEncoder_encode (c :: rest)
           = utf8_4 (65536 + (c - 55296) * 1024 + (d - 56320))
             ++ TextEncoder_encode rest'
        /\ well_formed rest' = true).
Proof.
  cbn [well_formed TextEncoder_encode].
  unfold isHighSurrogate, isLowSurrogate.
  intros Hwf. apply andb_true_iff in Hwf as [Hc Hwf].
  apply N.ltb_lt in Hc.
  destruct (N.ltb_spec c 128) as [H1|H1].
  { left. split; [exact H1|]. split; [reflexivity|].
    destruct (N.leb_spec 55296 c); [lia|]. cbn [andb] in Hwf.
    apply andb_true_iff in Hwf as [_ Hwf]. exact Hwf. }
  destruct (N.ltb_spec c 2048) as [H2|H2].
  { right. left. split; [lia|]. split; [reflexivity|].
    destruct (N.leb_spec 55296 c); [lia|]. cbn [andb] in Hwf.
    apply andb_true_iff in Hwf as [_ Hwf]. exact Hwf. }
  destruct (N.leb_spec 55296 c) as [H3|H3];
    destruct (N.leb_spec c 56319) as [H4|H4]; cbn [andb] in *.
  - right. right. right.
    destruct rest as [|d rest']; [discriminate|].
    apply andb_true_iff in Hwf as [Hd Hwf]. rewrite Hd.
    apply andb_true_iff in Hd as [Hd1 Hd2].
    apply N.leb_le in Hd1, Hd2.
    exists d, rest'. repeat split; auto.
  - right. right. left.
    apply andb_true_iff in Hwf as [Hlow Hwf]. apply negb_true_iff in Hlow.
    rewrite Hlow. split; [lia|]. split; [reflexivity | exact Hwf].
  - right. right. left.
    apply andb_true_iff in Hwf as [Hlow Hwf]. apply negb_true_iff in Hlow.
    rewrite Hlow. split; [lia|]. split; [reflexivity | exact Hwf].
  - lia.
Qed.

Lemma TextEncoder_encode_inj (s1 s2 : jsstring) :
  well_formed s1 = true -> well_formed s2 = true ->
  TextEncoder_encode s1 = TextEncoder_encode s2 -> s1 = s2.
Proof.
  remember (length s1) as n eqn:Hn. revert s1 s2 Hn.
  induction n as [n IH] using lt_wf_ind. intros s1 s2 Hn Hw1 Hw2 Heq.
  destruct s1 as [|c1 r1], s2 as [|c2 r2]; [reflexivity| | |].
  - destruct (encode_cons_cases c2 r2 Hw2)
      as [(_ & H & _)|[(_ & H & _)|[(_ & H & _)|(d & r & _ & _ & _ & H & _)]]];
      rewrite H in Heq; discriminate.
  - destruct (encode_cons_cases c1 r1 Hw1)
      as [(_ & H & _)|[(_ & H & _)|[(_ & H & _)|(d & r & _ & _ & _ & H & _)]]];
      rewrite H in Heq; discriminate.
  - destruct (encode_cons_cases c1 r1 Hw1)
      as [(Hc1 & H1 & Hr1)|[(Hc1 & H1 & Hr1)|[(Hc1 & H1 & Hr1)
          |(d1 & r1' & -> & Hc1 & Hd1 & H1 & Hr1)]]];
    destruct (encode_cons_cases c2 r2 Hw2)
      as [(Hc2 & H2 & Hr2)|[(Hc2 & H2 & Hr2)|[(Hc2 & H2 & Hr2)
          |(d2 & r2' & -> & Hc2 & Hd2 & H2 & Hr2)]]];
    rewrite H1, H2 in Heq; unfold utf8_4 in Heq; cbn [app] in Heq;
    try pose proof (lead_2 c1 Hc1); try pose proof (lead_2 c2 Hc2);
    try pose proof (lead_3 c1 Hc1); try pose proof (lead_3 c2 Hc2);
    try pose proof (lead_4 c1 d1 Hc1 Hd1);
    try pose proof (lead_4 c2 d2 Hc2 Hd2);
    injection Heq as Heq; intros;
    try (exfalso; lia).
    + f_equal; [assumption|].
      eapply (IH (length r1)); eauto. subst n. cbn. lia.
    + f_equal.
      * apply (div_mod_inj c1 c2 64); [discriminate | lia | lia].
      * eapply (IH (length r1)); eauto. subst n. cbn. lia.
    + f_equal.
      * apply sextets_inj_3; lia.
      * eapply (IH (length r1)); eauto. subst n. cbn. lia.
    + assert (Hcp : 65536 + (c1 - 55296) * 1024 + (d1 - 56320)
                    = 65536 + (c2 - 55296) * 1024 + (d2 - 56320))
        by (apply sextets_inj_4; lia).
      assert (c1 = c2 /\ d1 = d2) as [-> ->] by lia.
      do 2 f_equal. eapply (IH (length r1')); eauto. subst n. cbn. lia.
Qed.

Lemma TextEncoder_encode_ascii (s : jsstring) :
  Forall (fun c => c < 128) s -> TextEncoder_encode s = s.
Proof.
  induction 1 as [|c s Hc _ IH]; [reflexivity|].
  cbn [TextEncoder_encode]. apply N.ltb_lt in Hc. rewrite Hc, IH.
  reflexivity.
Qed.

(** C1. computeContentHash is a function of the content alone: equal
    contents have equal fingerprints, and it is defined on every string.
    The fingerprint always has 64 characters, each a lowercase hexadecimal
    digit, and read back two digits a byte it is the 32-byte SHA-256
    digest of the UTF-8 encoding of the content: so two contents have the
    same fingerprint exactly when the digests of their encodings are
    equal.  The encoding of an ASCII content (a base64 string, say) is the
    content itself, and different well-formed contents have different
    encodings: they share a fingerprint only where SHA-256 collides.  The
    digest is SHA-256: on the empty string, on the one-block and two-block
    test messages of FIPS 180, on messages of 119 and 120 bytes (the
    padding spills into a third block), and on texts outside ASCII (two,
    three and four bytes of UTF-8), the fingerprint is the published
    SHA-256 value. *)
Theorem computeContentHash_deterministic_hex64 :
  (forall c1 c2 : jsstring,
      c1 = c2 -> computeContentHash c1 = computeContentHash c2)
  /\ (forall content : jsstring,
         exists fingerprint : jsstring,
           computeContentHash content = fingerprint
           /\ length fingerprint = 64%nat
           /\ Forall (fun c => isLowerHex c = true) fingerprint
           /\ unhex fingerprint
              = Some (SHA256.digest (TextEncoder_encode content))
           /\ length (SHA256.digest (TextEncoder_encode content)) = 32%nat)
  /\ (forall c1 c2 : jsstring,
         computeContentHash c1 = computeContentHash c2 <->
         SHA256.digest (TextEncoder_encode c1)
         = SHA256.digest (TextEncoder_encode c2))
  /\ (forall content : jsstring,
         Forall (fun c => c < 128) content ->
         TextEncoder_encode content = content)
  /\ (forall c1 c2 : jsstring,
         well_formed c1 = true -> well_formed c2 = true ->
         computeContentHash c1 = computeContentHash c2 ->
         c1 = c2
         \/ (TextEncoder_encode c1 <> TextEncoder_encode c2
             /\ SHA256.digest (TextEncoder_encode c1)
                = SHA256.digest (TextEncoder_encode c2)))
  /\ computeContentHash [] =
     js "e3b0c44298fc1c149afbf4c8996fb92427ae41e4649b934ca495991b7852b855"
  /\ computeContentHash (js "abc") =
     js "ba7816bf8f01cfea414140de5dae2223b00361a396177a9cb410ff61f20015ad"
  /\ computeContentHash
       (js "abcdbcdecdefdefgefghfghighijhijkijkljklmklmnlmnomnopnopq") =
     js "248d6a61d20638b8e5c026930c3e6039a33ce45964ff2167f6ecedd419db06c1"
  /\ computeContentHash (repeat 97 119) =
     js "31eba51c313a5c08226adf18d4a359cfdfd8d2e816b13f4af952f7ea6584dcfb"
  /\ computeContentHash (repeat 97 120) =
     js "2f3d335432c70b580af0e8e1b3674a7c020d683aa5f73aaaedfdc55af904c21c"
  /\ computeContentHash [233; 7897; 55357; 56832] =
     js "6c2d885704dc51083c72492513dea596e4cdbc4b0fde0b2a604e14942522aece".
Proof.
  assert (Hiff : forall c1 c2 : jsstring,
             computeContentHash c1 = computeContentHash c2 <->
             SHA256.digest (TextEncoder_encode c1)
             = SHA256.digest (TextEncoder_encode c2)).
  { intros c1 c2. split.
    - intros Heq.
      pose proof (computeContentHash_unhex c1) as H1.
      pose proof (computeContentHash_unhex c2) as H2.
      rewrite Heq, H2 in H1. congruence.
    - intros Heq. unfold computeContentHash. rewrite Heq. reflexivity. }
  split; [|split; [|split; [|split; [|split]]]].
  - intros c1 c2 ->. reflexivity.
  - intros content. exists (computeContentHash content).
    split; [reflexivity|].
    destruct (computeContentHash_shape content) as [Hlen Hhex].
    split; [exact Hlen|]. split; [exact Hhex|].
    split; [apply computeContentHash_unhex | apply digest_bytes].
  - exact Hiff.
  - exact TextEncoder_encode_ascii.
  - intros c1 c2 Hw1 Hw2 Heq.
    destruct (decide (c1 = c2)) as [|Hne]; [left; assumption|].
    right. split; [|apply Hiff, Heq].
    intros Henc. apply Hne.
    apply TextEncoder_encode_inj; assumption.
  - repeat split; vm_compute; reflexivity.
Qed.

Lemma computeContentHash_deterministic_hex64_witness :
  computeContentHash (trim (js "  abc ")) = computeContentHash (js "abc").
Proof.
  apply (proj1 computeContentHash_deterministic_hex64
           (trim (js "  abc ")) (js "abc")).
  vm_compute. reflexivity.
Defined.

Example sha256_constants :
  length SHA256.K = 64%nat
  /\ hd 0 SHA256.K = 1116352408
  /\ last SHA256.K = Some 3329325298
  /\ SHA256.a SHA256.H0 = 1779033703
  /\ SHA256.h SHA256.H0 = 1541459225.
Proof. vm_compute. repeat split. Qed.

Example encode_non_ascii :
  TextEncoder_encode [7897; 55357; 56832]
  = [225; 187; 153; 240; 159; 152; 128].
Proof. vm_compute. reflexivity. Qed.

(** ** The upload gate *)

Lemma includes_In (l : list jsstring) (x : jsstring) :
  includes l x = true <-> In x l.
Proof.
  unfold includes. rewrite existsb_exists. split.
  - intros (y & Hy & Heq). apply bool_decide_eq_true in Heq. subst. exact Hy.
  - intros Hx. exists x. split; [exact Hx | apply bool_decide_eq_true; reflexivity].
Qed.

Lemma accepted_type_validTypes (t : jsstring) :
  accepted_type t <-> In t validTypes.
Proof.
  unfold accepted_type, validTypes. simpl.
  split; intros H; repeat (destruct H as [H|H]; [subst; tauto|]);
    try (subst; tauto); try contradiction.
Qed.

(** C10. validateFile returns null exactly for a file whose MIME type is
    one of the six accepted types and whose size is at most 20*1024*1024
    bytes; every other file gets an error message. *)
Theorem validateFile_accepts_exactly (f : File.t) :
  (validateFile f = None <->
   accepted_type (File.type f) /\ File.size f <= 20 * 1024 * 1024)
  /\ (~ (accepted_type (File.type f) /\ File.size f <= 20 * 1024 * 1024) <->
      exists message, validateFile f = Some message).
Proof.
  assert (Hmain : validateFile f = None <->
            accepted_type (File.type f) /\ File.size f <= 20 * 1024 * 1024).
  { unfold validateFile. rewrite accepted_type_validTypes, <- includes_In.
    destruct (includes validTypes (File.type f)); simpl.
    - destruct (N.ltb_spec (20 * 1024 * 1024) (File.size f)) as [Hlt|Hle].
      + split; [discriminate | intros [_ Hs]; lia].
      + split; [intros _; split; [reflexivity | exact Hle] | reflexivity].
    - split; [discriminate | intros [Hf _]; discriminate]. }
  split; [exact Hmain|].
  rewrite <- Hmain.
  destruct (validateFile f) as [message|].
  - split; [intros _; exists message; reflexivity | intros _; discriminate].
  - split; [intros H; contradiction H; reflexivity | intros [m Hm]; discriminate].
Qed.

Example validateFile_pdf :
  validateFile (File.mk (js "application/pdf") 20971520 None) = None.
Proof. vm_compute. reflexivity. Qed.

Example validateFile_too_large :
  validateFile (File.mk (js "application/pdf") 20971521 None)
  = Some FileTooLarge.
Proof. vm_compute. reflexivity. Qed.

Example validateFile_gif :
  validateFile (File.mk (js "image/gif") 10 None) = Some UnsupportedFormat.
Proof. vm_compute. reflexivity. Qed.

(** ** The store *)

Section StoreFacts.

Variable P : Platform.

Lemma saveToCache_run (hash : jsstring) (r : ProcessingResult) (b : Browser) :
  saveToCache P hash r b =
  match idb_fault P OpPut with
  | Healthy =>
      (Resolved tt, set_idb (<[hash := (Date_now P, r)]> (idb b)) b)
  | OpenFails => (Resolved tt, b)
  | RequestFails => (Rejected (StoreRequestError OpPut), b)
  end.
Proof.
  unfold saveToCache, adopt, try_catch, await, openDB, request, resolve, throw.
  destruct (idb_fault P OpPut) eqn:Hf; simpl; rewrite ?Hf; reflexivity.
Qed.

Lemma getFromCache_run (hash : jsstring) (b : Browser) :
  getFromCache P hash b =
  match idb_fault P OpGet with
  | Healthy => (Resolved (snd <$> idb b !! hash), b)
  | OpenFails => (Resolved None, b)
  | RequestFails => (Rejected (StoreRequestError OpGet), b)
  end.
Proof.
  unfold getFromCache, adopt, try_catch, await, openDB, request, resolve,
    throw, store_get.
  destruct (idb_fault P OpGet) eqn:Hf; simpl; rewrite ?Hf; try reflexivity.
  destruct (idb b !! hash) as [[ts d]|]; reflexivity.
Qed.

Lemma deleteFromCache_run (id : jsstring) (b : Browser) :
  deleteFromCache P id b =
  match idb_fault P OpDelete with
  | Healthy => (Resolved tt, set_idb (delete id (idb b)) b)
  | OpenFails => (Resolved tt, b)
  | RequestFails => (Rejected (StoreRequestError OpDelete), b)
  end.
Proof.
  unfold deleteFromCache, adopt, try_catch, await, openDB, request, resolve,
    throw.
  destruct (idb_fault P OpDelete) eqn:Hf; simpl; rewrite ?Hf; reflexivity.
Qed.

Lemma getHistory_run (b : Browser) :
  getHistory P b =
  match idb_fault P OpGetAll with
  | Healthy =>
      (Resolved (sort newest_first
                   (map history_entry (fst (store_getAll b)))), b)
  | OpenFails => (Resolved [], b)
  | RequestFails => (Rejected (StoreRequestError OpGetAll), b)
  end.
Proof.
  unfold getHistory, adopt, try_catch, await, openDB, request, resolve, throw.
  destruct (idb_fault P OpGetAll) eqn:Hf; simpl; rewrite ?Hf; reflexivity.
Qed.

End StoreFacts.

Lemma set_idb_same (b : Browser) : set_idb (idb b) b = b.
Proof. destruct b; reflexivity. Qed.

(** C3. With the store working, saveToCache(id, result) resolves, and
    getFromCache(id) then returns the stored result, in every later state
    of the store in which the record of that id has not been deleted or
    overwritten. *)
Theorem save_then_get_roundtrip (P : Platform) (b : Browser) (id : jsstring)
    (r : ProcessingResult) :
  idb_fault P OpPut = Healthy ->
  idb_fault P OpGet = Healthy ->
  fst (saveToCache P id r b) = Resolved tt
  /\ fst (getFromCache P id (snd (saveToCache P id r b))) = Resolved (Some r)
  /\ forall later : Browser,
       idb later !! id = idb (snd (saveToCache P id r b)) !! id ->
       fst (getFromCache P id later) = Resolved (Some r).
Proof.
  intros Hput Hget.
  rewrite saveToCache_run, Hput. simpl.
  assert (Hlater : forall later : Browser,
             idb later !! id = Some (Date_now P, r) ->
             fst (getFromCache P id later) = Resolved (Some r)).
  { intros later Hl. rewrite getFromCache_run, Hget. simpl.
    rewrite Hl. reflexivity. }
  split; [reflexivity|]. split.
  - apply Hlater. simpl. apply lookup_insert_eq.
  - intros later Hl. apply Hlater. rewrite Hl. apply lookup_insert_eq.
Qed.

(** C9. With the store working, deleteFromCache(id) resolves and
    getFromCache(id) then returns null; when the id has no record, the
    deletion resolves and leaves the store as it was. *)
Theorem delete_then_get_absent (P : Platform) (b : Browser) (id : jsstring) :
  idb_fault P OpDelete = Healthy ->
  idb_fault P OpGet = Healthy ->
  fst (deleteFromCache P id b) = Resolved tt
  /\ fst (getFromCache P id (snd (deleteFromCache P id b))) = Resolved None
  /\ (idb b !! id = None -> snd (deleteFromCache P id b) = b).
Proof.
  intros Hdel Hget.
  rewrite deleteFromCache_run, Hdel. simpl.
  split; [reflexivity|]. split.
  - rewrite getFromCache_run, Hget. simpl.
    rewrite lookup_delete_eq. reflexivity.
  - intros Habsent. rewrite delete_id by exact Habsent. apply set_idb_same.
Qed.

Lemma save_then_get_roundtrip_witness :
  fst (getFromCache offline (js "f00d")
         (snd (saveToCache offline (js "f00d") water (browser mounted ∅))))
  = Resolved (Some water).
Proof.
  apply (proj1 (proj2 (save_then_get_roundtrip offline (browser mounted ∅)
                         (js "f00d") water eq_refl eq_refl))).
Defined.

Lemma delete_then_get_absent_witness :
  fst (getFromCache offline (js "f00d")
         (snd (deleteFromCache offline (js "f00d")
                 (browser mounted {[ js "f00d" := (5%Z, water) ]}))))
  = Resolved None.
Proof.
  apply (proj1 (proj2 (delete_then_get_absent offline
                         (browser mounted {[ js "f00d" := (5%Z, water) ]})
                         (js "f00d") eq_refl eq_refl))).
Defined.

(** ** The history *)

Lemma sort_insert_Permutation {A} (compareFn : A -> A -> Z) (x : A)
    (l : list A) :
  sort_insert compareFn x l ≡ₚ x :: l.
Proof.
  induction l as [|y l IH]; simpl; [reflexivity|].
  destruct (compareFn x y <=? 0)%Z; [reflexivity|].
  rewrite IH. apply Permutation_swap.
Qed.

Lemma sort_Permutation {A} (compareFn : A -> A -> Z) (l : list A) :
  sort compareFn l ≡ₚ l.
Proof.
  induction l as [|x l IH]; simpl; [reflexivity|].
  rewrite sort_insert_Permutation, IH. reflexivity.
Qed.

Lemma sort_insert_newest_first (e : HistoryEntry.t)
    (l : list HistoryEntry.t) :
  StronglySorted not_older l ->
  StronglySorted not_older (sort_insert newest_first e l).
Proof.
  induction 1 as [|y l Hsorted IH Hall]; simpl.
  - repeat constructor.
  - unfold newest_first at 1.
    destruct (Z.leb_spec
                (HistoryEntry.timestamp y - HistoryEntry.timestamp e) 0)
      as [Hle|Hgt].
    + constructor; [constructor; assumption|].
      constructor; [unfold not_older; lia|].
      eapply Forall_impl; [exact Hall|].
      intros z Hz. unfold not_older in *. lia.
    + constructor; [exact IH|].
      rewrite sort_insert_Permutation.
      constructor; [unfold not_older; lia | exact Hall].
Qed.

Lemma sort_newest_first_sorted (l : list HistoryEntry.t) :
  StronglySorted not_older (sort newest_first l).
Proof.
  induction l as [|e l IH]; simpl; [constructor|].
  apply sort_insert_newest_first. exact IH.
Qed.

Lemma sort_elem_of {A} (compareFn : A -> A -> Z) (l : list A) (x : A) :
  x ∈ sort compareFn l <-> x ∈ l.
Proof. rewrite sort_Permutation. reflexivity. Qed.

Lemma sort_length {A} (compareFn : A -> A -> Z) (l : list A) :
  length (sort compareFn l) = length l.
Proof. rewrite sort_Permutation. reflexivity. Qed.

Lemma store_getAll_elem_of (b : Browser) (item : CachedItem.t) :
  item ∈ fst (store_getAll b) <->
  idb b !! CachedItem.id item
  = Some (CachedItem.timestamp item, CachedItem.data item).
Proof.
  unfold store_getAll. simpl. rewrite list_elem_of_fmap. split.
  - intros ([k [ts d]] & -> & Hin). simpl.
    apply sort_elem_of, elem_of_map_to_list in Hin. exact Hin.
  - intros Hl. destruct item as [k ts d]. simpl in Hl.
    exists (k, (ts, d)). split; [reflexivity|].
    apply sort_elem_of, elem_of_map_to_list. exact Hl.
Qed.

(** [split('\n')[0]] is the first line. *)
Lemma split_first_line (s : jsstring) : first_line_of s (hd [] (split 10 s)).
Proof.
  unfold first_line_of.
  induction s as [|c s [IHnot IHs]]; simpl.
  - split; [apply not_elem_of_nil | left; reflexivity].
  - destruct (N.eqb_spec c 10) as [->|Hc]; simpl.
    + split; [apply not_elem_of_nil | right; exists s; reflexivity].
    + destruct (split 10 s) as [|piece pieces]; simpl in *.
      * split.
        -- intros Hin. apply list_elem_of_singleton in Hin. congruence.
        -- destruct IHs as [->|[rest ->]];
             [left; reflexivity | right; exists rest; reflexivity].
      * split.
        -- intros Hin. apply elem_of_cons in Hin as [Heq|Hin];
             [congruence | contradiction].
        -- destruct IHs as [->|[rest ->]];
             [left; reflexivity | right; exists rest; reflexivity].
Qed.

Lemma first_line_length (s line : jsstring) :
  first_line_of s line -> (length line <= length s)%nat.
Proof.
  intros [_ [->|[rest ->]]]; [lia|]. rewrite length_app. lia.
Qed.

Lemma history_title_spec (s : jsstring) :
  exists line,
    first_line_of s line
    /\ history_title s
       = firstn 60 line ++ (if (60 <? length s)%nat then js "..." else [])
    /\ ((60 < length line)%nat -> history_title s = firstn 60 line ++ js "...")
    /\ ((length s <= 60)%nat -> history_title s = line).
Proof.
  exists (hd [] (split 10 s)).
  pose proof (split_first_line s) as Hline.
  pose proof (first_line_length _ _ Hline) as Hlen.
  unfold history_title, substring0.
  change (N.to_nat 60) with 60%nat.
  split; [exact Hline|]. split; [reflexivity|]. split.
  - intros Hcut.
    destruct (Nat.ltb_spec 60 (length s)) as [_|Hle]; [reflexivity | lia].
  - intros Hshort.
    destruct (Nat.ltb_spec 60 (length s)) as [Hlt|_]; [lia|].
    rewrite app_nil_r. apply firstn_all2. lia.
Qed.

(** C8 (as the code has it). With the store working, getHistory returns
    one entry per record, sorted by descending timestamp (most recent
    first, entries of equal timestamp next to each other); an entry has
    the id and the timestamp of its record, and as title the first line of
    the record's script cut to 60 code units, followed by the ellipsis
    exactly when the whole script is longer than 60 code units: always
    when the first line was cut, and never when the script has at most 60
    code units. *)
Theorem getHistory_sorted_titles (P : Platform) (b : Browser) :
  idb_fault P OpGetAll = Healthy ->
  exists history : list HistoryEntry.t,
    getHistory P b = (Resolved history, b)
    /\ StronglySorted not_older history
    /\ length history = size (idb b)
    /\ (forall e : HistoryEntry.t,
          e ∈ history <->
          exists ts d,
            idb b !! HistoryEntry.id e = Some (ts, d)
            /\ HistoryEntry.timestamp e = ts
            /\ HistoryEntry.title e = history_title (script d))
    /\ (forall s : jsstring,
          exists line,
            first_line_of s line
            /\ history_title s
               = firstn 60 line
                 ++ (if (60 <? length s)%nat then js "..." else [])
            /\ ((60 < length line)%nat ->
                history_title s = firstn 60 line ++ js "...")
            /\ ((length s <= 60)%nat -> history_title s = line)).
Proof.
  intros Hfault.
  exists (sort newest_first (map history_entry (fst (store_getAll b)))).
  split; [rewrite getHistory_run, Hfault; reflexivity|].
  split; [apply sort_newest_first_sorted|].
  split.
  { rewrite sort_length, length_map. unfold store_getAll. simpl.
    rewrite length_map, sort_length. apply length_map_to_list. }
  split; [|apply history_title_spec].
  intros e. rewrite sort_elem_of, list_elem_of_fmap. split.
  - intros (item & -> & Hin). apply store_getAll_elem_of in Hin.
    exists (CachedItem.timestamp item), (CachedItem.data item).
    simpl. split; [exact Hin | split; reflexivity].
  - intros (ts & d & Hl & Hts & Htitle).
    exists (CachedItem.mk (HistoryEntry.id e) ts d). split.
    + destruct e as [k t ttl]. simpl in *. subst. reflexivity.
    + apply store_getAll_elem_of. simpl. exact Hl.
Qed.

Lemma getHistory_sorted_titles_witness :
  exists history : list HistoryEntry.t,
    getHistory offline
      (browser mounted {[ js "f00d" := (5%Z, water) ]})
    = (Resolved history,
       browser mounted {[ js "f00d" := (5%Z, water) ]})
    /\ StronglySorted not_older history.
Proof.
  destruct (getHistory_sorted_titles offline
              (browser mounted {[ js "f00d" := (5%Z, water) ]}) eq_refl)
    as (history & Hrun & Hsorted & _).
  exists history. split; [exact Hrun | exact Hsorted].
Defined.

(** C8 as stated fails: the ellipsis follows a first line that was not
    cut, when the rest of the script makes it longer than 60 code units;
    and two records of the same instant are both listed, so the
    timestamps descend without descending strictly. *)
Lemma getHistory_ellipsis_without_cut :
  fst (getHistory offline
         (browser mounted {[ js "f00d" := (5%Z, long_note) ]}))
  = Resolved [ HistoryEntry.mk (js "f00d") 5 (js "Hi...") ]
  /\ hd [] (split 10 (script long_note)) = js "Hi"
  /\ claimed_title (script long_note) = js "Hi"
  /\ js "Hi..." <> claimed_title (script long_note)
  /\ fst (getHistory offline
            (browser mounted
               {[ js "a" := (5%Z, water); js "b" := (5%Z, water);
                  js "c" := (9%Z, water) ]}))
     = Resolved [ HistoryEntry.mk (js "c") 9 (js "2H2 + O2 -> 2H2O");
                  HistoryEntry.mk (js "a") 5 (js "2H2 + O2 -> 2H2O");
                  HistoryEntry.mk (js "b") 5 (js "2H2 + O2 -> 2H2O") ].
Proof.
  split; [vm_compute; reflexivity|].
  split; [vm_compute; reflexivity|].
  split; [vm_compute; reflexivity|].
  split; [vm_compute; discriminate|].
  vm_compute. reflexivity.
Qed.

(** The sort keeps the order of entries that compare equal. *)
Example sort_is_stable :
  sort (fun a b : Z * Z => (fst b - fst a)%Z)
       [(1, 1); (2, 2); (1, 3); (2, 4); (1, 5); (3, 6); (2, 7)]%Z
  = [(3, 6); (2, 2); (2, 4); (2, 7); (1, 1); (1, 3); (1, 5)]%Z.
Proof. vm_compute. reflexivity. Qed.

(** ** The gateway *)

Lemma add_calls_nil (b : Browser) : add_calls [] b = b.
Proof. destruct b. unfold add_calls. simpl. rewrite app_nil_r. reflexivity. Qed.

Lemma add_calls_app (t1 t2 : list Request) (b : Browser) :
  add_calls t2 (add_calls t1 b) = add_calls (t1 ++ t2) b.
Proof. unfold add_calls. simpl. rewrite app_assoc. reflexivity. Qed.

Lemma gateway_only_run {A} (m : Async A) :
  gateway_only m ->
  forall b, m b = (outcome_of m, add_calls (requests_of m) b).
Proof.
  intros (r & t & Hm) b.
  unfold outcome_of, requests_of. rewrite !Hm. reflexivity.
Qed.

Lemma gateway_only_resolve {A} (x : A) : gateway_only (resolve x).
Proof.
  exists (Resolved x), []. intros b. rewrite add_calls_nil. reflexivity.
Qed.

Lemma gateway_only_throw {A} (e : Error) : gateway_only (@throw A e).
Proof.
  exists (Rejected e), []. intros b. rewrite add_calls_nil. reflexivity.
Qed.

Lemma gateway_only_ai (P : Platform) (req : Request) :
  gateway_only (ai_generateContent P req).
Proof. exists (generateContent P req), [req]. intros b. reflexivity. Qed.

Lemma gateway_only_await {A B} (m : Async A) (k : A -> Async B) :
  gateway_only m -> (forall x, gateway_only (k x)) ->
  gateway_only (await m k).
Proof.
  intros (r & t & Hm) Hk. destruct r as [x|e].
  - destruct (Hk x) as (r' & t' & Hkx).
    exists r', (t ++ t'). intros b.
    unfold await. rewrite Hm, Hkx, add_calls_app. reflexivity.
  - exists (Rejected e), t. intros b. unfold await. rewrite Hm. reflexivity.
Qed.

Lemma gateway_only_try_catch {A} (m : Async A) (h : Error -> Async A) :
  gateway_only m -> (forall e, gateway_only (h e)) ->
  gateway_only (try_catch m h).
Proof.
  intros (r & t & Hm) Hh. destruct r as [x|e].
  - exists (Resolved x), t. intros b.
    unfold try_catch. rewrite Hm. reflexivity.
  - destruct (Hh e) as (r' & t' & Hhe).
    exists r', (t ++ t'). intros b.
    unfold try_catch. rewrite Hm, Hhe, add_calls_app. reflexivity.
Qed.

Lemma gateway_only_both {A B} (p : Async A) (q : Async B) :
  gateway_only p -> gateway_only q -> gateway_only (both p q).
Proof.
  intros (r1 & t1 & Hp) (r2 & t2 & Hq).
  eexists _, (t1 ++ t2). intros b.
  unfold both. rewrite Hp, Hq, add_calls_app. reflexivity.
Qed.

Lemma gateway_only_Promise_all {A} (ps : list (Async A)) :
  Forall gateway_only ps -> gateway_only (Promise_all ps).
Proof.
  induction 1 as [|p ps Hp Hps IH]; simpl.
  - apply gateway_only_resolve.
  - destruct (gateway_only_both p (Promise_all ps) Hp IH) as (r & t & Hb).
    eexists _, t. intros b. rewrite Hb. reflexivity.
Qed.

Lemma gateway_only_JSON_parse {A} (parse : jsstring -> option A)
    (t : jsstring) :
  gateway_only (JSON_parse parse t).
Proof.
  unfold JSON_parse.
  destruct (parse t); [apply gateway_only_resolve | apply gateway_only_throw].
Qed.

Create HintDb gateway.
#[local] Hint Resolve gateway_only_resolve gateway_only_throw gateway_only_ai
  gateway_only_JSON_parse : gateway.

(** Decompose a gateway computation along its control structure. *)
Ltac gateway :=
  repeat first
    [ apply gateway_only_try_catch; intros
    | apply gateway_only_await; intros
    | apply gateway_only_both
    | apply gateway_only_Promise_all
    | solve [auto with gateway]
    | match goal with
      | |- gateway_only (match ?x with _ => _ end) => destruct x
      | |- gateway_only (if ?x then _ else _) => destruct x
      end ].

Lemma gateway_only_callGeminiWithPrompt (P : Platform) (m : Model)
    (sp : SystemPrompt) (up : PromptTemplate) (parts0 : list Part) :
  gateway_only (callGeminiWithPrompt P m sp up parts0).
Proof. unfold callGeminiWithPrompt. gateway. Qed.

Lemma gateway_only_synthesizeSpeech (P : Platform) (s : jsstring) :
  gateway_only (synthesizeSpeech P s).
Proof. unfold synthesizeSpeech. gateway. Qed.

Lemma gateway_only_videos (P : Platform) (prompt : PromptTemplate)
    (s : jsstring) :
  gateway_only (getRelatedVideoQueries_with P prompt s).
Proof. unfold getRelatedVideoQueries_with. gateway. Qed.

Lemma gateway_only_V1_generateReadingScript (P : Platform) (t : jsstring)
    (f m : option jsstring) :
  gateway_only (V1.generateReadingScript P t f m).
Proof.
  unfold V1.generateReadingScript.
  apply gateway_only_await; [apply gateway_only_callGeminiWithPrompt|].
  intros [r|]; [auto with gateway|].
  apply gateway_only_await; [apply gateway_only_callGeminiWithPrompt|].
  intros [r|]; auto with gateway.
Qed.

Lemma gateway_only_V1_analyzeAndSolve (P : Platform) (s : jsstring) :
  gateway_only (V1.analyzeAndSolve P s).
Proof. unfold V1.analyzeAndSolve. gateway. Qed.

Lemma gateway_only_V2_generateReadingScript (P : Platform) (t : jsstring)
    (f m : option jsstring) :
  gateway_only (V2.generateReadingScript P t f m).
Proof.
  unfold V2.generateReadingScript.
  apply gateway_only_await; [apply gateway_only_callGeminiWithPrompt|].
  intros [r|]; auto with gateway.
Qed.

Lemma gateway_only_generateChemicalImage (P : Platform) (s : jsstring) :
  gateway_only (V2.generateChemicalImage P s).
Proof. unfold V2.generateChemicalImage. gateway. Qed.

Lemma gateway_only_illustrate (P : Platform) (item : SolutionItem) :
  gateway_only (V2.illustrate P item).
Proof.
  unfold V2.illustrate.
  destruct (imagePrompt item) as [prompt|]; [|auto with gateway].
  match goal with |- gateway_only (if ?c then _ else _) => destruct c end;
    [|auto with gateway].
  apply gateway_only_try_catch; [|auto with gateway].
  apply gateway_only_await;
    [apply gateway_only_generateChemicalImage | auto with gateway].
Qed.

Lemma gateway_only_V2_analyzeAndSolve (P : Platform) (s : jsstring)
    (f m : option jsstring) :
  gateway_only (V2.analyzeAndSolve P s f m).
Proof.
  unfold V2.analyzeAndSolve.
  apply gateway_only_try_catch; [|auto with gateway].
  apply gateway_only_await; [apply gateway_only_ai|].
  intros response.
  destruct (text response) as [t|]; [|auto with gateway].
  destruct (truthy t); [|auto with gateway].
  apply gateway_only_await; [apply gateway_only_JSON_parse|].
  intros items.
  apply gateway_only_await; [|auto with gateway].
  apply gateway_only_Promise_all.
  apply Forall_map, Forall_forall. intros item _.
  apply gateway_only_illustrate.
Qed.

Lemma try_catch_total {A} (body : Async A) (d : A) (b : Browser) :
  exists x b', try_catch body (fun _ => resolve d) b = (Resolved x, b').
Proof.
  unfold try_catch, resolve. destruct (body b) as [[x|e] b']; eauto.
Qed.

(** The suggestion stage and the solve stage never reject. *)
Lemma suggest_total (v : Version) (P : Platform) (ds : DualScriptResponse) :
  outcome_of (suggest v P ds) = Resolved (value_of (suggest v P ds)).
Proof.
  unfold value_of.
  assert (H : exists l, outcome_of (suggest v P ds) = Resolved l).
  { unfold outcome_of.
    destruct v; simpl; unfold V1.getRelatedVideoQueries,
      V2.getRelatedVideoQueries, getRelatedVideoQueries_with;
    match goal with |- context [try_catch ?body _ ?b] =>
      destruct (try_catch_total body [] b) as (x & b' & ->) end; eauto. }
  destruct H as [l ->]. reflexivity.
Qed.

Lemma solve_total (v : Version) (P : Platform) (st : React)
    (ds : DualScriptResponse) :
  outcome_of (solve v P st ds) = Resolved (value_of (solve v P st ds)).
Proof.
  unfold value_of.
  assert (H : exists l, outcome_of (solve v P st ds) = Resolved l).
  { unfold outcome_of.
    destruct v; simpl; unfold V1.analyzeAndSolve, V2.analyzeAndSolve;
    match goal with |- context [try_catch ?body _ ?b] =>
      destruct (try_catch_total body [] b) as (x & b' & ->) end; eauto. }
  destruct H as [l ->]. reflexivity.
Qed.

(** The audio [synthesizeSpeech] resolves with is never empty. *)
Lemma synthesizeSpeech_truthy (P : Platform) (s audio : jsstring) :
  outcome_of (synthesizeSpeech P s) = Resolved audio -> truthy audio = true.
Proof.
  unfold outcome_of, synthesizeSpeech, try_catch, await, ai_generateContent.
  destruct (generateContent P _) as [response|e]; simpl; [|discriminate].
  destruct (mjoin (mjoin (head (inlineParts response)))) as [a|]; simpl;
    [|discriminate].
  destruct (truthy a) eqn:Ha; simpl; [|discriminate].
  intros [= <-]. exact Ha.
Qed.

Lemma gateway_only_transcribe (v : Version) (P : Platform) (st : React) :
  gateway_only (transcribe v P st).
Proof.
  destruct v; [apply gateway_only_V1_generateReadingScript
              | apply gateway_only_V2_generateReadingScript].
Qed.

Lemma gateway_only_suggest (v : Version) (P : Platform)
    (ds : DualScriptResponse) :
  gateway_only (suggest v P ds).
Proof. destruct v; apply gateway_only_videos. Qed.

Lemma gateway_only_solve (v : Version) (P : Platform) (st : React)
    (ds : DualScriptResponse) :
  gateway_only (solve v P st ds).
Proof.
  destruct v; [apply gateway_only_V1_analyzeAndSolve
              | apply gateway_only_V2_analyzeAndSolve].
Qed.

Lemma transcribe_run (v : Version) (P : Platform) (st : React) (b : Browser) :
  transcribe v P st b
  = (outcome_of (transcribe v P st),
     add_calls (requests_of (transcribe v P st)) b).
Proof. apply gateway_only_run, gateway_only_transcribe. Qed.

Lemma synthesizeSpeech_run (P : Platform) (s : jsstring) (b : Browser) :
  synthesizeSpeech P s b
  = (outcome_of (synthesizeSpeech P s),
     add_calls (requests_of (synthesizeSpeech P s)) b).
Proof. apply gateway_only_run, gateway_only_synthesizeSpeech. Qed.

Lemma suggest_run (v : Version) (P : Platform) (ds : DualScriptResponse)
    (b : Browser) :
  suggest v P ds b
  = (Resolved (value_of (suggest v P ds)),
     add_calls (requests_of (suggest v P ds)) b).
Proof.
  rewrite (gateway_only_run _ (gateway_only_suggest v P ds)).
  rewrite suggest_total. reflexivity.
Qed.

Lemma solve_run (v : Version) (P : Platform) (st : React)
    (ds : DualScriptResponse) (b : Browser) :
  solve v P st ds b
  = (Resolved (value_of (solve v P st ds)),
     add_calls (requests_of (solve v P st ds)) b).
Proof.
  rewrite (gateway_only_run _ (gateway_only_solve v P st ds)).
  rewrite solve_total. reflexivity.
Qed.

(** ** The WAV buffer and the object URL *)

Lemma fill_pcm_app (pcmData : jsstring) (i0 : nat) (pre zeros : list N) :
  length pre = (44 + i0)%nat ->
  length zeros = length pcmData ->
  fill_pcm (pre ++ zeros) i0 pcmData
  = pre ++ map (fun c => c mod 256) pcmData.
Proof.
  revert i0 pre zeros.
  induction pcmData as [|c rest IH]; intros i0 pre zeros Hpre Hzeros.
  - destruct zeros; [reflexivity | discriminate].
  - destruct zeros as [|z zeros]; [discriminate|].
    cbn [fill_pcm map].
    rewrite insert_app_r_alt by lia.
    replace (44 + i0 - length pre)%nat with 0%nat by lia.
    cbn [insert list_insert].
    change (pre ++ c mod 256 :: zeros) with (pre ++ [c mod 256] ++ zeros).
    rewrite app_assoc, IH.
    + rewrite <- app_assoc. reflexivity.
    + rewrite length_app. cbn. lia.
    + cbn in Hzeros. lia.
Qed.

Lemma wav_buffer_eq (pcmData : jsstring) :
  wav_buffer pcmData
  = Some (wav_header (N.of_nat (length pcmData))
          ++ map (fun c => c mod 256) pcmData).
Proof.
  rewrite <- (fill_pcm_app pcmData 0 _ (repeat 0 (length pcmData)))
    by (reflexivity || apply repeat_length).
  unfold wav_buffer.
  cbn [repeat Nat.add].
  generalize (repeat 0 (length pcmData)) as zeros.
  generalize (N.of_nat (length pcmData)) as dataSize.
  intros dataSize zeros. vm_compute. reflexivity.
Qed.

(** [createWavUrlFromPcm] throws exactly when [atob] does; otherwise it
    registers the WAV file of the decoded audio under the next URL. *)
Lemma getAudioDataUrl_run (P : Platform) (base64Audio : jsstring)
    (b : Browser) :
  getAudioDataUrl P base64Audio b
  = match atob P base64Audio with
    | Some pcmData => (Resolved (next_url P b), register [wav_blob pcmData] b)
    | None => (Rejected InvalidCharacterError, b)
    end.
Proof.
  unfold getAudioDataUrl, createWavUrlFromPcm.
  destruct (atob P base64Audio) as [pcmData|]; [|reflexivity].
  rewrite wav_buffer_eq. reflexivity.
Qed.

(** ** The two flows, run symbolically *)

(** One step of a run: the sequencing unfolds, the state setters compute. *)
Ltac run :=
  unfold try_catch, await, adopt, readFileToBase64;
  cbn [resolve throw setAppState setStatusMessage setResult
       setIsCachedResult set_react setTimeout_show
       fst snd react idb timers calls objectURLs set_idb add_calls register
       appState mode textInput file result statusMessage isCachedResult
       fmap option_fmap option_map].

(** The final states agree field by field. *)
Ltac same_state Ha :=
  unfold ends, later_requests, assembled, result_on_entry, error_message,
    done_state;
  cbn [audioBase64];
  rewrite <- ?app_assoc, ?app_nil_r;
  repeat match goal with
         | H : mode _ = _ |- _ => rewrite H
         | H : file _ = _ |- _ => rewrite H
         end;
  reflexivity.

Lemma V1_processContent_run (P : Platform) (b : Browser) :
  V1.processContent P b = (Resolved tt, after_submit Version1 P b).
Proof.
  unfold V1.processContent, after_submit, hashed_content, readFileToBase64.
  destruct (mode (react b)) eqn:Hm;
    [destruct (file (react b)) as [fd|] eqn:Hfile;
     [destruct (File.base64Data (FileData.file fd)) as [content|] eqn:Hc|]|];
    run; try same_state I.
  all: rewrite !getFromCache_run;
    destruct (idb_fault P OpGet) eqn:Hf; run; try same_state I.
  all: try (destruct (idb b !! _) as [[ts r]|] eqn:Hl; run;
            [unfold display, audio_to_restore;
             destruct (audioBase64 r) as [[|c audio]|]; cbn [truthy]; run;
             rewrite ?getAudioDataUrl_run;
             try destruct (atob P (c :: audio)) as [pcmData|];
             cbn [mbind option_bind]; run; same_state I|]).
  all: unfold after_miss;
    match goal with
    | |- context [V1.generateReadingScript ?p ?t ?f ?m] =>
        replace (V1.generateReadingScript p t f m)
          with (transcribe Version1 P (react b))
          by (unfold transcribe, text_arg, file_arg, mime_arg;
              rewrite ?Hm, ?Hfile, ?Hc; reflexivity)
    end;
    rewrite transcribe_run;
    destruct (outcome_of (transcribe Version1 P (react b))) as [ds|e];
    run; try same_state I.
  all: unfold both;
    change (V1.getRelatedVideoQueries P (displayScript ds))
      with (suggest Version1 P ds);
    change (V1.analyzeAndSolve P (displayScript ds))
      with (solve Version1 P (react b) ds);
    rewrite synthesizeSpeech_run, suggest_run, solve_run;
    destruct (outcome_of (synthesizeSpeech P (readingScript ds)))
      as [audio|e] eqn:Ha;
    run; try same_state Ha.
  all: rewrite saveToCache_run; destruct (idb_fault P OpPut); run;
    try same_state Ha.
  all: rewrite getAudioDataUrl_run; unfold display;
    destruct (atob P audio) as [pcmData|];
    cbn [mbind option_bind]; run; same_state Ha.
Qed.

Lemma truthy_nonempty (s : jsstring) : truthy s = true <-> s <> [].
Proof. destruct s; simpl; split; congruence. Qed.

(** The guards of [handleProcess] let exactly the accepted inputs pass. *)
Lemma V2_guards (st : React) :
  accepted Version2 st ->
  bool_decide (mode st = TEXT) && negb (truthy (trim (textInput st))) = false
  /\ bool_decide (mode st = FILE) && negb (bool_decide (is_Some (file st)))
     = false.
Proof.
  unfold accepted. destruct (mode st); intros Hacc; split; try reflexivity.
  - destruct (file st) as [fd|]; [reflexivity | congruence].
  - apply truthy_nonempty in Hacc. cbn. rewrite Hacc. reflexivity.
Qed.

Lemma V2_handleProcess_rejects (P : Platform) (b : Browser) :
  ~ accepted Version2 (react b) ->
  V2.handleProcess P b = (Resolved tt, b).
Proof.
  unfold accepted, V2.handleProcess. intros Hrej.
  destruct (mode (react b)); cbn.
  - destruct (file (react b)) as [fd|]; [|reflexivity].
    contradiction Hrej. discriminate.
  - destruct (truthy (trim (textInput (react b)))) eqn:Ht; [|reflexivity].
    contradiction Hrej. apply truthy_nonempty. exact Ht.
Qed.

Lemma V2_handleProcess_run (P : Platform) (b : Browser) :
  accepted Version2 (react b) ->
  V2.handleProcess P b = (Resolved tt, after_submit Version2 P b).
Proof.
  intros Hacc.
  destruct (V2_guards _ Hacc) as [Hg1 Hg2].
  unfold V2.handleProcess. rewrite Hg1, Hg2. clear Hg1 Hg2.
  unfold after_submit, hashed_content, readFileToBase64.
  unfold accepted in Hacc.
  destruct (mode (react b)) eqn:Hm;
    [destruct (file (react b)) as [fd|] eqn:Hfile;
     [destruct (File.base64Data (FileData.file fd)) as [content|] eqn:Hc|]|];
    try congruence; run; try same_state I.
  all: rewrite !getFromCache_run;
    destruct (idb_fault P OpGet) eqn:Hf; run; try same_state I.
  all: try (destruct (idb b !! _) as [[ts r]|] eqn:Hl; run;
            try (unfold display; same_state I)).
  all: unfold after_miss;
    match goal with
    | |- context [V2.generateReadingScript ?p ?t ?f ?m] =>
        replace (V2.generateReadingScript p t f m)
          with (transcribe Version2 P (react b))
          by (unfold transcribe, text_arg, file_arg, mime_arg;
              rewrite ?Hm, ?Hfile, ?Hc; reflexivity)
    end;
    rewrite transcribe_run;
    destruct (outcome_of (transcribe Version2 P (react b))) as [ds|e];
    run; try same_state I.
  all: match goal with
       | |- context [V2.analyzeAndSolve ?p ?s ?f ?m] =>
           replace (V2.analyzeAndSolve p s f m)
             with (solve Version2 P (react b) ds)
             by (unfold solve, file_arg, mime_arg;
                 rewrite ?Hm, ?Hfile, ?Hc; reflexivity)
       end;
    change (V2.getRelatedVideoQueries P (displayScript ds))
      with (suggest Version2 P ds);
    rewrite solve_run; run; rewrite suggest_run; run;
    rewrite synthesizeSpeech_run;
    destruct (outcome_of (synthesizeSpeech P (readingScript ds)))
      as [audio|e] eqn:Ha;
    run; try same_state Ha.
  all: rewrite saveToCache_run; destruct (idb_fault P OpPut); run;
    unfold display; same_state Ha.
Qed.

Lemma submit_run (v : Version) (P : Platform) (b : Browser) :
  accepted v (react b) ->
  submit v P b = (Resolved tt, after_submit v P b).
Proof.
  destruct v; intros Hacc;
    [apply V1_processContent_run | apply V2_handleProcess_run, Hacc].
Qed.

(** ** The transcription and its fallback *)

(** One attempt sends one request and never throws. *)
Lemma callGeminiWithPrompt_run (P : Platform) (m : Model) (sp : SystemPrompt)
    (up : PromptTemplate) (parts0 : list Part) (b : Browser) :
  let req := {| model := m; systemInstruction := Some sp;
                parts := parts0 ++ [Prompt up []] |} in
  callGeminiWithPrompt P m sp up parts0 b
  = (Resolved (usable_answer P req), add_calls [req] b).
Proof.
  intros req.
  unfold callGeminiWithPrompt, usable_answer, try_catch, await,
    ai_generateContent, JSON_parse, resolve, throw.
  fold req. fold (add_calls [req] b).
  destruct (generateContent P req) as [response|e]; [|reflexivity].
  destruct (finishReason response) as [[| | | |]|]; try reflexivity;
    destruct (text response) as [t|]; try reflexivity;
    destruct (truthy t); try reflexivity;
    destruct (JSON_parse_script P t); reflexivity.
Qed.

Lemma V1_generateReadingScript_run (P : Platform) (t : jsstring)
    (f m : option jsstring) (b : Browser) :
  let primary := transcription_request PromptOCR UserInstruction t f m in
  let alternate := transcription_request PromptSafe UserInstruction t f m in
  V1.generateReadingScript P t f m b =
  match usable_answer P primary with
  | Some scripts => (Resolved scripts, add_calls [primary] b)
  | None =>
      match usable_answer P alternate with
      | Some scripts => (Resolved scripts, add_calls [primary; alternate] b)
      | None => (Rejected TranscriptionError, add_calls [primary; alternate] b)
      end
  end.
Proof.
  intros primary alternate.
  unfold V1.generateReadingScript, await.
  rewrite callGeminiWithPrompt_run.
  fold (transcription_request PromptOCR UserInstruction t f m). fold primary.
  destruct (usable_answer P primary) as [scripts|]; [reflexivity|].
  rewrite callGeminiWithPrompt_run.
  fold (transcription_request PromptSafe UserInstruction t f m).
  fold alternate. rewrite add_calls_app.
  destruct (usable_answer P alternate) as [scripts|]; reflexivity.
Qed.

Lemma V2_generateReadingScript_run (P : Platform) (t : jsstring)
    (f m : option jsstring) (b : Browser) :
  let single :=
    transcription_request PromptOCR_IUPAC UserInstructionIUPAC t f m in
  V2.generateReadingScript P t f m b =
  match usable_answer P single with
  | Some scripts => (Resolved scripts, add_calls [single] b)
  | None => (Rejected TranscriptionError, add_calls [single] b)
  end.
Proof.
  intros single.
  unfold V2.generateReadingScript, await.
  rewrite callGeminiWithPrompt_run.
  fold (transcription_request PromptOCR_IUPAC UserInstructionIUPAC t f m).
  fold single.
  destruct (usable_answer P single) as [scripts|]; reflexivity.
Qed.

(** ** The later stages: one request each, and no error let through *)

Lemma synthesizeSpeech_requests (P : Platform) (s : jsstring) (b : Browser) :
  snd (synthesizeSpeech P s b) = add_calls [tts_request s] b.
Proof.
  unfold synthesizeSpeech, try_catch, await, ai_generateContent, throw,
    resolve.
  fold (tts_request s). fold (add_calls [tts_request s] b).
  destruct (generateContent P (tts_request s)) as [response|e];
    [|reflexivity].
  destruct (mjoin (mjoin (head (inlineParts response)))) as [audio|]; [|reflexivity].
  destruct (truthy audio); reflexivity.
Qed.

Lemma synthesizeSpeech_error (P : Platform) (s : jsstring) (e : Error) :
  outcome_of (synthesizeSpeech P s) = Rejected e -> e = SpeechError.
Proof.
  unfold outcome_of, synthesizeSpeech, try_catch, await, ai_generateContent,
    throw, resolve.
  destruct (generateContent P _) as [response|e']; simpl;
    [|intros [= <-]; reflexivity].
  destruct (mjoin (mjoin (head (inlineParts response)))) as [audio|]; simpl;
    [|intros [= <-]; reflexivity].
  destruct (truthy audio); simpl; [discriminate | intros [= <-]; reflexivity].
Qed.

Lemma transcribe_error (v : Version) (P : Platform) (st : React) (e : Error) :
  outcome_of (transcribe v P st) = Rejected e -> e = TranscriptionError.
Proof.
  unfold outcome_of, transcribe. destruct v.
  - rewrite V1_generateReadingScript_run.
    repeat match goal with
           | |- context [match usable_answer ?p ?r with _ => _ end] =>
               destruct (usable_answer p r)
           end; simpl; congruence.
  - rewrite V2_generateReadingScript_run.
    repeat match goal with
           | |- context [match usable_answer ?p ?r with _ => _ end] =>
               destruct (usable_answer p r)
           end; simpl; congruence.
Qed.

Lemma stage_fails_answer {A} (P : Platform)
    (parse : jsstring -> option (list A)) (req : Request) :
  stage_fails P parse req -> stage_answer P parse req = [].
Proof.
  unfold stage_answer.
  intros [[e ->]|(response & t & -> & -> & -> & ->)]; reflexivity.
Qed.

Lemma getRelatedVideoQueries_with_run (P : Platform)
    (prompt : PromptTemplate) (s : jsstring) (b : Browser) :
  let req := {| model := Gemini_2_5_flash; systemInstruction := None;
                parts := [Prompt prompt (substring0 3000 s)] |} in
  getRelatedVideoQueries_with P prompt s b
  = (Resolved (stage_answer P (JSON_parse_videos P) req),
     add_calls [req] b).
Proof.
  intros req.
  unfold getRelatedVideoQueries_with, stage_answer, try_catch, await,
    ai_generateContent, JSON_parse, throw, resolve.
  fold req. fold (add_calls [req] b).
  destruct (generateContent P req) as [response|e]; [|reflexivity].
  destruct (text response) as [t|]; [|reflexivity].
  destruct (truthy t); [|reflexivity].
  destruct (JSON_parse_videos P t); reflexivity.
Qed.

Lemma suggest_stage_run (v : Version) (P : Platform)
    (ds : DualScriptResponse) (b : Browser) :
  suggest v P ds b
  = (Resolved (stage_answer P (JSON_parse_videos P) (suggest_request v ds)),
     add_calls [suggest_request v ds] b).
Proof. destruct v; apply getRelatedVideoQueries_with_run. Qed.

Lemma V1_solve_stage_run (P : Platform) (st : React)
    (ds : DualScriptResponse) (b : Browser) :
  solve Version1 P st ds b
  = (Resolved (stage_answer P (JSON_parse_solutions P)
                 (solve_request Version1 st ds)),
     add_calls [solve_request Version1 st ds] b).
Proof.
  unfold solve, V1.analyzeAndSolve, stage_answer, try_catch, await,
    ai_generateContent, JSON_parse, throw, resolve.
  change {| model := Gemini_2_5_flash; systemInstruction := None;
            parts := [Prompt SolvePromptSVG
                        (substring0 10000 (displayScript ds))] |}
    with (solve_request Version1 st ds).
  fold (add_calls [solve_request Version1 st ds] b).
  destruct (generateContent P (solve_request Version1 st ds))
    as [response|e]; [|reflexivity].
  destruct (text response) as [t|]; [|reflexivity].
  destruct (truthy t); [|reflexivity].
  destruct (JSON_parse_solutions P t); reflexivity.
Qed.

(** The image step of an item sends at most one request, to the image
    model, and never throws. *)
Lemma illustrate_run (P : Platform) (item : SolutionItem) (b : Browser) :
  exists item' t,
    V2.illustrate P item b = (Resolved item', add_calls t b)
    /\ (length t <= 1)%nat /\ image_requests t.
Proof.
  unfold V2.illustrate.
  destruct (imagePrompt item) as [prompt|].
  2: { exists item, []. rewrite add_calls_nil.
       split; [reflexivity | split; [simpl; lia | constructor]]. }
  match goal with |- context [if ?c then _ else _] => destruct c end.
  2: { exists item, []. rewrite add_calls_nil.
       split; [reflexivity | split; [simpl; lia | constructor]]. }
  unfold V2.generateChemicalImage.
  match goal with |- context [if ?c then _ else _] => destruct c end.
  - eexists _, []. rewrite add_calls_nil.
    split; [reflexivity | split; [simpl; lia | constructor]].
  - unfold try_catch, await, ai_generateContent, resolve.
    match goal with
    | |- context [generateContent P ?r] =>
        exists (match generateContent P r with
                | Resolved response =>
                    V2.with_illustration item
                      (V2.first_inlineData (inlineParts response))
                | Rejected _ => V2.with_illustration item None
                end), [r];
        destruct (generateContent P r) as [response|e]
    end;
      (split; [reflexivity | split; [simpl; lia | repeat constructor]]).
Qed.

Lemma Promise_all_illustrate (P : Platform) (items : list SolutionItem)
    (b : Browser) :
  exists l t,
    Promise_all (map (V2.illustrate P) items) b = (Resolved l, add_calls t b)
    /\ (length t <= length items)%nat /\ image_requests t.
Proof.
  revert b. induction items as [|item items IH]; intros b; simpl.
  - exists [], []. rewrite add_calls_nil.
    split; [reflexivity | split; [simpl; lia | constructor]].
  - unfold both.
    destruct (illustrate_run P item b) as (item' & t1 & -> & Hlen1 & Himg1).
    destruct (IH (add_calls t1 b)) as (l & t2 & -> & Hlen2 & Himg2).
    exists (item' :: l), (t1 ++ t2). rewrite add_calls_app.
    split; [reflexivity|]. split.
    + rewrite length_app. simpl. lia.
    + apply Forall_app. split; assumption.
Qed.

Lemma V2_solve_stage_run (P : Platform) (st : React)
    (ds : DualScriptResponse) (b : Browser) :
  exists l images,
    solve Version2 P st ds b
    = (Resolved l, add_calls (solve_request Version2 st ds :: images) b)
    /\ (length images
        <= length (stage_answer P (JSON_parse_solutions P)
                     (solve_request Version2 st ds)))%nat
    /\ image_requests images
    /\ (stage_fails P (JSON_parse_solutions P) (solve_request Version2 st ds)
        -> l = [] /\ images = []).
Proof.
  unfold solve, V2.analyzeAndSolve, stage_answer, stage_fails, try_catch,
    await, ai_generateContent, JSON_parse, throw, resolve.
  match goal with
  | |- context [generateContent P ?r] =>
      change r with (solve_request Version2 st ds)
  end.
  set (req := solve_request Version2 st ds).
  destruct (generateContent P req) as [response|e].
  2: { exists [], []. repeat split; try constructor; simpl; auto. }
  destruct (text response) as [t|] eqn:Htext.
  2: { exists [], []. repeat split; try constructor; simpl; auto. }
  destruct (truthy t) eqn:Ht.
  2: { exists [], []. repeat split; try constructor; simpl; auto. }
  destruct (JSON_parse_solutions P t) as [items|] eqn:Hparse.
  2: { exists [], []. repeat split; try constructor; simpl; auto. }
  match goal with
  | |- context [Promise_all _ ?bb] =>
      destruct (Promise_all_illustrate P items bb)
        as (l & images & -> & Hlen & Himg)
  end.
  exists l, images.
  split; [unfold add_calls; simpl; rewrite <- app_assoc; reflexivity|].
  split; [exact Hlen|]. split; [exact Himg|].
  intros [[e He]|(response' & t' & Hr & Ht' & _ & Hp)]; [discriminate|].
  injection Hr as <-. rewrite Htext in Ht'. injection Ht' as <-.
  congruence.
Qed.

(** ** Cache hits *)

Lemma run_timers_last (b : Browser) (delay : N) (r : ProcessingResult)
    (st : React) (pending : list (N * ProcessingResult))
    (urls : list (list N)) :
  react (run_timers
           {| react := st; idb := idb b; timers := pending ++ [(delay, r)];
              calls := calls b; objectURLs := urls |})
  = show (fold_left show (map snd pending) st) r.
Proof.
  unfold run_timers. simpl. rewrite map_app, fold_left_app. reflexivity.
Qed.

(** What [display] gives for audio that is there to decode. *)
Lemma display_playable (v : Version) (P : Platform) (b : Browser)
    (r : ProcessingResult) (audio : jsstring) :
  playable v P audio ->
  exists blobs,
    display v P b r (Some audio)
    = Some (shown v r (Some (next_url P b)), blobs)
    /\ match v with
       | Version1 => exists pcmData,
                       atob P audio = Some pcmData
                       /\ blobs = [wav_blob pcmData]
       | Version2 => blobs = []
       end.
Proof.
  unfold playable, display, shown. destruct v.
  - destruct (atob P audio) as [pcmData|]; [|congruence].
    intros _. exists [wav_blob pcmData]. split; [reflexivity | eauto].
  - intros _. exists []. split; reflexivity.
Qed.

Lemma display_not_playable (v : Version) (P : Platform) (b : Browser)
    (r : ProcessingResult) (audio : jsstring) :
  ~ playable v P audio ->
  v = Version1 /\ atob P audio = None
  /\ display v P b r (Some audio) = None.
Proof.
  unfold playable, display. destruct v; [|intros H; contradiction H; exact I].
  destruct (atob P audio) as [pcmData|]; [intros H; contradiction H; discriminate|].
  auto.
Qed.

Lemma playable_or_not (v : Version) (P : Platform) (audio : jsstring) :
  playable v P audio \/ ~ playable v P audio.
Proof.
  unfold playable. destruct v; [|left; exact I].
  destruct (atob P audio); [left; discriminate | right; intros H; apply H; reflexivity].
Qed.

(** A hit, in both flows: the stored result is displayed, or in
    processContent its audio cannot be decoded. *)
Lemma hit_is_served (v : Version) (P : Platform) (b : Browser)
    (content : jsstring) (ts : Z) (r : ProcessingResult) :
  accepted v (react b) ->
  hashed_content v (react b) = Some content ->
  idb_fault P OpGet = Healthy ->
  idb b !! computeContentHash content = Some (ts, r) ->
  fst (submit v P b) = Resolved tt
  /\ calls (settled v (snd (submit v P b))) = calls b
  /\ idb (settled v (snd (submit v P b))) = idb b
  /\ match display v P b r (audio_to_restore r) with
     | Some (res, blobs) =>
         appState (react (settled v (snd (submit v P b)))) = done_state v
         /\ result (react (settled v (snd (submit v P b)))) = Some res
         /\ isCachedResult (react (settled v (snd (submit v P b)))) = true
         /\ objectURLs (settled v (snd (submit v P b)))
            = objectURLs b ++ blobs
     | None =>
         appState (react (snd (submit v P b))) = ERROR
         /\ statusMessage (react (snd (submit v P b)))
            = error_message v InvalidCharacterError
         /\ result (react (snd (submit v P b))) = result_on_entry v (react b)
         /\ timers (snd (submit v P b)) = timers b
         /\ objectURLs (snd (submit v P b)) = objectURLs b
     end.
Proof.
  intros Hacc Hcontent Hfault Hrecord.
  rewrite (submit_run v P b Hacc).
  unfold after_submit. rewrite Hcontent, getFromCache_run, Hfault.
  cbn [fst snd]. rewrite Hrecord. cbn [fmap option_fmap option_map snd].
  destruct (display v P b r (audio_to_restore r)) as [[res blobs]|].
  - destruct v; unfold settled.
    + split; [reflexivity|].
      split; [reflexivity|]. split; [reflexivity|].
      rewrite run_timers_last. repeat split; reflexivity.
    + repeat split; reflexivity.
  - destruct v; unfold settled; repeat split; reflexivity.
Qed.

(** A run that ends in the done state after a miss has stored the result
    it assembled and shows it under a new object URL, and has left the
    inputs alone. *)
Lemma miss_done (v : Version) (P : Platform) (b : Browser)
    (content : jsstring) :
  accepted v (react b) ->
  hashed_content v (react b) = Some content ->
  idb_fault P OpGet = Healthy ->
  idb_fault P OpPut = Healthy ->
  idb b !! computeContentHash content = None ->
  appState (react (snd (submit v P b))) = done_state v ->
  exists final audio blobs,
    audio_to_restore final = Some audio
    /\ display v P b final (Some audio)
       = Some (shown v final (Some (next_url P b)), blobs)
    /\ (forall b', display v P b' final (Some audio)
                   = Some (shown v final (Some (next_url P b')), blobs))
    /\ result (react (snd (submit v P b)))
       = Some (shown v final (Some (next_url P b)))
    /\ objectURLs (snd (submit v P b)) = objectURLs b ++ blobs
    /\ idb (snd (submit v P b))
       = <[computeContentHash content := (Date_now P, final)]> (idb b)
    /\ mode (react (snd (submit v P b))) = mode (react b)
    /\ textInput (react (snd (submit v P b))) = textInput (react b)
    /\ file (react (snd (submit v P b))) = file (react b).
Proof.
  intros Hacc Hcontent Hget Hput Hmiss.
  rewrite (submit_run v P b Hacc).
  unfold after_submit. rewrite Hcontent, getFromCache_run, Hget.
  cbn [fst snd]. rewrite Hmiss. cbn [fmap option_fmap option_map].
  unfold after_miss. rewrite Hput.
  destruct (outcome_of (transcribe v P (react b))) as [ds|e];
    [|destruct v; cbn; discriminate].
  destruct (outcome_of (synthesizeSpeech P (readingScript ds)))
    as [audio|e] eqn:Haudio; [|destruct v; cbn; discriminate].
  destruct (playable_or_not v P audio) as [Hplay|Hplay].
  - destruct (display_playable v P b (assembled v P (react b) ds audio)
                audio Hplay) as (blobs & Hdisplay & Hblobs).
    rewrite Hdisplay. intros _.
    exists (assembled v P (react b) ds audio), audio, blobs.
    split.
    { unfold audio_to_restore, assembled. cbn [audioBase64].
      rewrite (synthesizeSpeech_truthy P _ _ Haudio). reflexivity. }
    split; [exact Hdisplay|].
    split.
    { intros b'.
      destruct (display_playable v P b' (assembled v P (react b) ds audio)
                  audio Hplay) as (blobs' & Hdisplay' & Hblobs').
      rewrite Hdisplay'. destruct v.
      - destruct Hblobs as (pcm & Hpcm & ->).
        destruct Hblobs' as (pcm' & Hpcm' & ->). congruence.
      - subst. reflexivity. }
    repeat split; reflexivity.
  - destruct (display_not_playable v P b (assembled v P (react b) ds audio)
                audio Hplay) as (-> & _ & ->).
    cbn. discriminate.
Qed.

(** What a hit on a record of decodable audio shows, in both flows. *)
Lemma hit_shows_record (v : Version) (P : Platform) (b : Browser)
    (content audio : jsstring) (ts : Z) (r : ProcessingResult)
    (blobs : list (list N)) :
  accepted v (react b) ->
  hashed_content v (react b) = Some content ->
  idb_fault P OpGet = Healthy ->
  idb b !! computeContentHash content = Some (ts, r) ->
  audio_to_restore r = Some audio ->
  display v P b r (Some audio)
  = Some (shown v r (Some (next_url P b)), blobs) ->
  let after := settled v (snd (submit v P b)) in
  result (react after) = Some (shown v r (Some (next_url P b)))
  /\ isCachedResult (react after) = true
  /\ appState (react after) = done_state v
  /\ calls after = calls b
  /\ idb after = idb b
  /\ objectURLs after = objectURLs b ++ blobs.
Proof.
  intros Hacc Hcontent Hget Hrecord Haudio Hdisplay after.
  destruct (hit_is_served v P b content ts r Hacc Hcontent Hget Hrecord)
    as (_ & Hcalls & Hidb & Hshow).
  rewrite Haudio, Hdisplay in Hshow.
  destruct Hshow as (Hstate & Hresult & Hcached & Hurls).
  repeat split; assumption.
Qed.

(** C2 (as the code has it). When the input is accepted by the flow and
    the fingerprint of its content has a record in a readable store, the
    run resolves without any request to the gateway and without touching
    the store.  handleProcess ends idle and shows the stored result
    unchanged, flagged as cached.  processContent decodes the stored audio
    and registers a new WAV blob: once the queued callback has fired it
    plays the stored result with the audio field replaced by the URL of
    that blob (by null when the stored audio is null or empty), flagged as
    cached; when the stored audio is not base64 the run ends in the error
    state and shows nothing.  A submission repeated after a run that
    missed, completed and stored its result shows the record of that first
    run: the same result in handleProcess; in processContent the same
    result up to the audio URL, a new URL for a new blob of the same
    bytes; again without any request to the gateway. *)
Theorem cache_hit_served_from_store :
  (forall (P : Platform) (b : Browser) (content : jsstring) (ts : Z)
          (r : ProcessingResult),
      accepted Version2 (react b) ->
      hashed_content Version2 (react b) = Some content ->
      idb_fault P OpGet = Healthy ->
      idb b !! computeContentHash content = Some (ts, r) ->
      let after := snd (V2.handleProcess P b) in
      fst (V2.handleProcess P b) = Resolved tt
      /\ calls after = calls b
      /\ idb after = idb b
      /\ objectURLs after = objectURLs b
      /\ appState (react after) = IDLE
      /\ result (react after) = Some r
      /\ isCachedResult (react after) = true)
  /\ (forall (P : Platform) (b : Browser) (content : jsstring) (ts : Z)
             (r : ProcessingResult),
        hashed_content Version1 (react b) = Some content ->
        idb_fault P OpGet = Healthy ->
        idb b !! computeContentHash content = Some (ts, r) ->
        let run := V1.processContent P b in
        let after := run_timers (snd run) in
        fst run = Resolved tt
        /\ calls after = calls b
        /\ idb after = idb b
        /\ match audio_to_restore r with
           | None =>
               appState (react after) = PLAYING
               /\ result (react after) = Some (V1.with_audio r None)
               /\ isCachedResult (react after) = true
               /\ objectURLs after = objectURLs b
           | Some audio =>
               match atob P audio with
               | Some pcmData =>
                   appState (react after) = PLAYING
                   /\ result (react after)
                      = Some (V1.with_audio r
                                (Some (URL_createObjectURL P
                                         (length (objectURLs b)))))
                   /\ isCachedResult (react after) = true
                   /\ objectURLs after = objectURLs b ++ [wav_blob pcmData]
               | None =>
                   appState (react (snd run)) = ERROR
                   /\ statusMessage (react (snd run))
                      = ErrorMessage InvalidCharacterError
                   /\ result (react (snd run)) = result (react b)
                   /\ timers (snd run) = timers b
                   /\ objectURLs (snd run) = objectURLs b
               end
           end)
  /\ (forall (v : Version) (P : Platform) (b : Browser) (content : jsstring),
        accepted v (react b) ->
        hashed_content v (react b) = Some content ->
        idb_fault P OpGet = Healthy ->
        idb_fault P OpPut = Healthy ->
        idb b !! computeContentHash content = None ->
        appState (react (snd (submit v P b))) = done_state v ->
        let first := snd (submit v P b) in
        let second := settled v (snd (submit v P first)) in
        exists (final : ProcessingResult) (blobs : list (list N)),
          idb first !! computeContentHash content = Some (Date_now P, final)
          /\ result (react first)
             = Some (shown v final (Some (next_url P b)))
          /\ result (react second)
             = Some (shown v final (Some (next_url P first)))
          /\ objectURLs first = objectURLs b ++ blobs
          /\ objectURLs second = objectURLs first ++ blobs
          /\ (v = Version2 -> result (react second) = result (react first))
          /\ isCachedResult (react second) = true
          /\ appState (react second) = done_state v
          /\ calls second = calls first
          /\ idb second = idb first).
Proof.
  split; [|split].
  - intros P b content ts r Hacc Hcontent Hget Hrecord after.
    destruct (hit_is_served Version2 P b content ts r Hacc Hcontent Hget
                Hrecord) as (Hres & Hcalls & Hidb & Hshow).
    cbn [display settled submit] in *.
    destruct Hshow as (Hstate & Hresult & Hcached & Hurls).
    rewrite app_nil_r in Hurls. repeat split; assumption.
  - intros P b content ts r Hcontent Hget Hrecord run after.
    destruct (hit_is_served Version1 P b content ts r I Hcontent Hget
                Hrecord) as (Hres & Hcalls & Hidb & Hshow).
    cbn [settled submit] in *.
    split; [exact Hres|]. split; [exact Hcalls|]. split; [exact Hidb|].
    unfold display in Hshow.
    destruct (audio_to_restore r) as [audio|].
    + destruct (atob P audio) as [pcmData|]; cbn in Hshow; exact Hshow.
    + rewrite app_nil_r in Hshow. exact Hshow.
  - intros v P b content Hacc Hcontent Hget Hput Hmiss Hdone first second.
    destruct (miss_done v P b content Hacc Hcontent Hget Hput Hmiss Hdone)
      as (final & audio & blobs & Haudio & _ & Hdisplay & Hshown & Hurls
          & Hstored & Hmode & Htext & Hfile).
    fold first in Hshown, Hurls, Hstored, Hmode, Htext, Hfile.
    assert (Hacc' : accepted v (react first)).
    { unfold accepted in *. rewrite Hmode, Htext, Hfile. exact Hacc. }
    assert (Hcontent' : hashed_content v (react first) = Some content).
    { unfold hashed_content in *. rewrite Hmode, Htext, Hfile. exact Hcontent. }
    assert (Hrecord : idb first !! computeContentHash content
                      = Some (Date_now P, final)).
    { rewrite Hstored. apply lookup_insert_eq. }
    destruct (hit_shows_record v P first content audio (Date_now P) final
                blobs Hacc' Hcontent' Hget Hrecord Haudio (Hdisplay first))
      as (Hresult & Hcached & Hstate & Hcalls & Hidb & Hurls').
    fold second in Hresult, Hcached, Hstate, Hcalls, Hidb, Hurls'.
    exists final, blobs.
    split; [exact Hrecord|]. split; [exact Hshown|].
    split; [exact Hresult|]. split; [exact Hurls|]. split; [exact Hurls'|].
    split; [|repeat split; assumption].
    intros ->. rewrite Hresult, Hshown. reflexivity.
Qed.

Lemma cache_hit_served_from_store_witness :
  result (react (run_timers (snd (V1.processContent offline water_cached))))
  = Some (V1.with_audio water (Some (js "blob:0")))
  /\ result (react (settled Version2
                      (snd (submit Version2 online
                              (snd (submit Version2 online iron_fresh))))))
     = result (react (snd (submit Version2 online iron_fresh))).
Proof.
  split.
  - destruct (proj1 (proj2 cache_hit_served_from_store) offline water_cached
                water_text 5%Z water) as (_ & _ & _ & Hshow).
    + vm_compute. reflexivity.
    + reflexivity.
    + vm_compute. reflexivity.
    + assert (Haudio : audio_to_restore water = Some (js "UklGRg=="))
        by reflexivity.
      rewrite Haudio in Hshow.
      assert (Hpcm : atob offline (js "UklGRg==") = Some (js "RIFF"))
        by (vm_compute; reflexivity).
      rewrite Hpcm in Hshow.
      destruct Hshow as (_ & Hresult & _). exact Hresult.
  - destruct (proj2 (proj2 cache_hit_served_from_store) Version2 online
                iron_fresh (js "Fe + HCl"))
      as (final & blobs & _ & _ & _ & _ & _ & Hsame & _).
    + vm_compute. discriminate.
    + vm_compute. reflexivity.
    + reflexivity.
    + reflexivity.
    + vm_compute. reflexivity.
    + vm_compute. reflexivity.
    + apply Hsame. reflexivity.
Defined.

(** C2 as stated fails on processContent.  On a hit it does not show the
    stored result unchanged: the audio field holds the URL of a new blob,
    not the stored base64 data.  And a submission repeated after a first
    run does not show a result equal to that of the first: each run
    registers a blob of its own, and the two audio URLs differ. *)
Lemma cache_hit_result_not_the_stored_one :
  (idb water_cached !! computeContentHash (trim (textInput (react water_cached)))
   = Some (5%Z, water)
   /\ result (react (run_timers (snd (V1.processContent offline water_cached))))
      = Some (V1.with_audio water (Some (js "blob:0")))
   /\ V1.with_audio water (Some (js "blob:0")) <> water)
  /\ (let first := snd (V1.processContent online iron_fresh) in
      let second := run_timers (snd (V1.processContent online first)) in
      appState (react first) = PLAYING
      /\ (audioBase64 <$> result (react first)) = Some (Some (js "blob:0"))
      /\ (audioBase64 <$> result (react second)) = Some (Some (js "blob:1"))
      /\ result (react second) <> result (react first)).
Proof.
  split; [split; [|split] | split; [|split; [|split]]].
  - vm_compute. reflexivity.
  - vm_compute. reflexivity.
  - vm_compute. discriminate.
  - vm_compute. reflexivity.
  - vm_compute. reflexivity.
  - vm_compute. reflexivity.
  - vm_compute. discriminate.
Qed.

(** ** Fatal failures *)

Lemma accepted_or_not (v : Version) (st : React) :
  accepted v st \/ ~ accepted v st.
Proof.
  unfold accepted. destruct v; [left; exact I|].
  destruct (mode st).
  - destruct (file st); [left; discriminate | right; intros H; apply H; reflexivity].
  - destruct (trim (textInput st));
      [right; intros H; apply H; reflexivity | left; discriminate].
Qed.

(** A run after a miss whose transcription and speech synthesis succeed,
    with a store that does not fail at the request: the record is written
    when the store is healthy, and the result is shown when the audio is
    playable; otherwise the run ends in the error state, after the
    write. *)
Lemma miss_complete (v : Version) (P : Platform) (b : Browser)
    (content : jsstring) (scripts : DualScriptResponse) (audio : jsstring) :
  accepted v (react b) ->
  hashed_content v (react b) = Some content ->
  fst (getFromCache P (computeContentHash content) b) = Resolved None ->
  outcome_of (transcribe v P (react b)) = Resolved scripts ->
  outcome_of (synthesizeSpeech P (readingScript scripts)) = Resolved audio ->
  idb_fault P OpPut <> RequestFails ->
  let final := assembled v P (react b) scripts audio in
  fst (submit v P b) = Resolved tt
  /\ idb (snd (submit v P b))
     = match idb_fault P OpPut with
       | Healthy =>
           <[computeContentHash content := (Date_now P, final)]> (idb b)
       | _ => idb b
       end
  /\ calls (snd (submit v P b))
     = calls b ++ requests_of (transcribe v P (react b))
       ++ later_requests v P (react b) scripts
  /\ (playable v P audio ->
      appState (react (snd (submit v P b))) = done_state v
      /\ result (react (snd (submit v P b)))
         = Some (shown v final (Some (next_url P b))))
  /\ (~ playable v P audio ->
      v = Version1
      /\ atob P audio = None
      /\ appState (react (snd (submit v P b))) = ERROR
      /\ statusMessage (react (snd (submit v P b)))
         = error_message v InvalidCharacterError
      /\ result (react (snd (submit v P b))) = result_on_entry v (react b)
      /\ objectURLs (snd (submit v P b)) = objectURLs b).
Proof.
  intros Hacc Hcontent Hprobe Ht Hs Hput final.
  rewrite (submit_run v P b Hacc).
  unfold after_submit. rewrite Hcontent, Hprobe. unfold after_miss.
  rewrite Ht, Hs. fold final. cbn [fst snd].
  destruct (playable_or_not v P audio) as [Hplay|Hplay].
  - destruct (display_playable v P b final audio Hplay)
      as (blobs & -> & _).
    destruct (idb_fault P OpPut); try congruence;
      (split; [reflexivity|]); (split; [reflexivity|]);
      (split; [reflexivity|]);
      (split; [intros _; split; reflexivity | intros H; contradiction]).
  - destruct (display_not_playable v P b final audio Hplay)
      as (Hv & Hatob & ->).
    destruct (idb_fault P OpPut); try congruence;
      (split; [reflexivity|]); (split; [reflexivity|]);
      (split; [reflexivity|]);
      (split; [intros H; contradiction | intros _; repeat split; assumption]).
Qed.

(** The runs that end in the error state: the store is as it was, except
    in processContent when the audio cannot be decoded after the write. *)
Lemma error_state_store (v : Version) (P : Platform) (b : Browser) :
  appState (react (snd (submit v P b))) = ERROR ->
  idb (snd (submit v P b)) = idb b
  \/ (v = Version1
      /\ statusMessage (react (snd (submit v P b)))
         = ErrorMessage InvalidCharacterError
      /\ exists content scripts audio,
           hashed_content v (react b) = Some content
           /\ outcome_of (transcribe v P (react b)) = Resolved scripts
           /\ outcome_of (synthesizeSpeech P (readingScript scripts))
              = Resolved audio
           /\ atob P audio = None
           /\ idb_fault P OpPut = Healthy
           /\ idb (snd (submit v P b))
              = <[computeContentHash content :=
                    (Date_now P, assembled v P (react b) scripts audio)]>
                  (idb b)).
Proof.
  destruct (accepted_or_not v (react b)) as [Hacc|Hrej].
  2: { destruct v; [contradiction Hrej; exact I|].
       cbn [submit]. rewrite (V2_handleProcess_rejects P b Hrej). auto. }
  destruct (hashed_content v (react b)) as [content|] eqn:Hcontent.
  2: { rewrite (submit_run v P b Hacc). unfold after_submit.
       rewrite Hcontent. auto. }
  destruct (fst (getFromCache P (computeContentHash content) b))
    as [[r|]|e] eqn:Hprobe.
  - rewrite (submit_run v P b Hacc). unfold after_submit.
    rewrite Hcontent, Hprobe.
    destruct (display v P b r (audio_to_restore r)) as [[res blobs]|];
      [destruct v|]; auto.
  - destruct (outcome_of (transcribe v P (react b))) as [scripts|e] eqn:Ht.
    2: { rewrite (submit_run v P b Hacc). unfold after_submit.
         rewrite Hcontent, Hprobe. unfold after_miss. rewrite Ht. auto. }
    destruct (outcome_of (synthesizeSpeech P (readingScript scripts)))
      as [audio|e] eqn:Hs.
    2: { rewrite (submit_run v P b Hacc). unfold after_submit.
         rewrite Hcontent, Hprobe. unfold after_miss. rewrite Ht, Hs. auto. }
    assert (Hput : idb_fault P OpPut = RequestFails
                   \/ idb_fault P OpPut <> RequestFails)
      by (destruct (idb_fault P OpPut); auto; right; discriminate).
    destruct Hput as [Hput|Hput].
    { rewrite (submit_run v P b Hacc). unfold after_submit.
      rewrite Hcontent, Hprobe. unfold after_miss. rewrite Ht, Hs, Hput.
      auto. }
    destruct (miss_complete v P b content scripts audio Hacc Hcontent Hprobe
                Ht Hs Hput) as (_ & Hidb & _ & Hplay & Hnot).
    destruct (playable_or_not v P audio) as [Hp|Hp].
    + destruct (Hplay Hp) as [Hstate _]. intros Herr.
      rewrite Hstate in Herr. destruct v; discriminate.
    + destruct (Hnot Hp) as (-> & Hatob & _ & Hmsg & _). intros _.
      destruct (idb_fault P OpPut) eqn:Hfault; [|auto|congruence].
      right. split; [reflexivity|]. split; [exact Hmsg|].
      exists content, scripts, audio. auto 10.
  - rewrite (submit_run v P b Hacc). unfold after_submit.
    rewrite Hcontent, Hprobe. auto.
Qed.

(** C6. When a run reaches the transcription (accepted input, readable
    file, no record found) and the transcription fails, or the speech
    synthesis fails after it, the run ends in the error state with the
    message of that one error, and the store is as it was before: nothing
    is persisted for the submitted content, no result is shown and no
    callback is left pending.  Of all the runs that end in the error
    state, one kind only has modified the store, and no stage failed in
    it: a processContent run whose audio is not base64, which fails
    after it has written its record. *)
Theorem fatal_failure_store_untouched :
  (forall (v : Version) (P : Platform) (b : Browser) (content : jsstring)
          (e : Error),
      accepted v (react b) ->
      hashed_content v (react b) = Some content ->
      fst (getFromCache P (computeContentHash content) b) = Resolved None ->
      (outcome_of (transcribe v P (react b)) = Rejected e
       \/ exists scripts,
            outcome_of (transcribe v P (react b)) = Resolved scripts
            /\ outcome_of (synthesizeSpeech P (readingScript scripts))
               = Rejected e) ->
      fst (submit v P b) = Resolved tt
      /\ appState (react (snd (submit v P b))) = ERROR
      /\ statusMessage (react (snd (submit v P b))) = error_message v e
      /\ (e = TranscriptionError \/ e = SpeechError)
      /\ idb (snd (submit v P b)) = idb b
      /\ timers (snd (submit v P b)) = timers b
      /\ objectURLs (snd (submit v P b)) = objectURLs b
      /\ result (react (snd (submit v P b))) = result_on_entry v (react b))
  /\ (forall (v : Version) (P : Platform) (b : Browser),
        appState (react (snd (submit v P b))) = ERROR ->
        idb (snd (submit v P b)) = idb b
        \/ (v = Version1
            /\ statusMessage (react (snd (submit v P b)))
               = ErrorMessage InvalidCharacterError
            /\ exists content scripts audio,
                 hashed_content v (react b) = Some content
                 /\ outcome_of (transcribe v P (react b)) = Resolved scripts
                 /\ outcome_of (synthesizeSpeech P (readingScript scripts))
                    = Resolved audio
                 /\ atob P audio = None
                 /\ idb_fault P OpPut = Healthy
                 /\ idb (snd (submit v P b))
                    = <[computeContentHash content :=
                          (Date_now P,
                           assembled v P (react b) scripts audio)]>
                        (idb b))).
Proof.
  split; [|exact error_state_store].
  intros v P b content e Hacc Hcontent Hprobe Hfatal.
  rewrite (submit_run v P b Hacc).
  unfold after_submit. rewrite Hcontent, Hprobe. unfold after_miss.
  destruct Hfatal as [Ht|(scripts & Ht & Hs)]; rewrite Ht; [|rewrite Hs].
  - apply transcribe_error in Ht. cbn. repeat split; auto.
  - apply synthesizeSpeech_error in Hs. cbn. repeat split; auto.
Qed.

Lemma fatal_failure_store_untouched_witness :
  appState (react (snd (submit Version1 offline iron_fresh))) = ERROR
  /\ idb (snd (submit Version1 offline iron_fresh)) = idb iron_fresh
  /\ appState (react (snd (submit Version2 (platform speech_down healthy)
                             iron_fresh))) = ERROR
  /\ idb (snd (submit Version2 (platform speech_down healthy) iron_fresh))
     = idb iron_fresh.
Proof.
  assert (H1 := proj1 fatal_failure_store_untouched Version1 offline
                  iron_fresh (js "Fe + HCl") TranscriptionError).
  assert (H2 := proj1 fatal_failure_store_untouched Version2
                  (platform speech_down healthy) iron_fresh (js "Fe + HCl")
                  SpeechError).
  destruct H1 as (_ & Hs1 & _ & _ & Hi1 & _).
  { exact I. }
  { vm_compute. reflexivity. }
  { vm_compute. reflexivity. }
  { left. vm_compute. reflexivity. }
  destruct H2 as (_ & Hs2 & _ & _ & Hi2 & _).
  { vm_compute. discriminate. }
  { vm_compute. reflexivity. }
  { vm_compute. reflexivity. }
  { right. exists sample_scripts. split; vm_compute; reflexivity. }
  repeat split; assumption.
Defined.

(** ** Stages that degrade *)

Lemma value_of_suggest (v : Version) (P : Platform) (ds : DualScriptResponse) :
  value_of (suggest v P ds)
  = stage_answer P (JSON_parse_videos P) (suggest_request v ds).
Proof.
  unfold value_of, outcome_of. rewrite suggest_stage_run. reflexivity.
Qed.

Lemma solve_fails_empty (v : Version) (P : Platform) (st : React)
    (ds : DualScriptResponse) (b : Browser) :
  stage_fails P (JSON_parse_solutions P) (solve_request v st ds) ->
  fst (solve v P st ds b) = Resolved [].
Proof.
  intros Hfail. destruct v.
  - rewrite V1_solve_stage_run, (stage_fails_answer _ _ _ Hfail). reflexivity.
  - destruct (V2_solve_stage_run P st ds b) as (l & images & -> & _ & _ & H).
    destruct (H Hfail) as [-> _]. reflexivity.
Qed.

Lemma value_of_solve_fails (v : Version) (P : Platform) (st : React)
    (ds : DualScriptResponse) :
  stage_fails P (JSON_parse_solutions P) (solve_request v st ds) ->
  value_of (solve v P st ds) = [].
Proof.
  intros Hfail. unfold value_of, outcome_of.
  rewrite (solve_fails_empty v P st ds _ Hfail). reflexivity.
Qed.

(** C7. The solve stage and the suggestion stage never reject; when the
    call of a stage throws, or its answer does not parse, the stage
    resolves with the empty sequence; and a run whose transcription and
    speech synthesis succeed goes on whatever these two stages did.  It
    stores the script of the transcription, the audio of the synthesis,
    the suggestions read off the answer to the suggestion request and the
    solutions of the solve stage, each of the two lists being empty when
    its stage failed; and it shows that result and ends in its done
    state, unless processContent cannot decode the audio, which ends the
    run in the error state after the record is written. *)
Theorem solve_and_suggest_degrade_to_empty :
  (forall (v : Version) (P : Platform) (st : React)
          (scripts : DualScriptResponse) (b : Browser),
      exists l, fst (solve v P st scripts b) = Resolved l)
  /\ (forall (v : Version) (P : Platform) (scripts : DualScriptResponse)
             (b : Browser),
        exists l, fst (suggest v P scripts b) = Resolved l)
  /\ (forall (v : Version) (P : Platform) (st : React)
             (scripts : DualScriptResponse) (b : Browser),
        stage_fails P (JSON_parse_solutions P) (solve_request v st scripts) ->
        fst (solve v P st scripts b) = Resolved [])
  /\ (forall (v : Version) (P : Platform) (scripts : DualScriptResponse)
             (b : Browser),
        stage_fails P (JSON_parse_videos P) (suggest_request v scripts) ->
        fst (suggest v P scripts b) = Resolved [])
  /\ (forall (v : Version) (P : Platform) (b : Browser) (content : jsstring)
             (scripts : DualScriptResponse) (audio : jsstring),
        accepted v (react b) ->
        hashed_content v (react b) = Some content ->
        fst (getFromCache P (computeContentHash content) b) = Resolved None ->
        outcome_of (transcribe v P (react b)) = Resolved scripts ->
        outcome_of (synthesizeSpeech P (readingScript scripts))
        = Resolved audio ->
        idb_fault P OpPut = Healthy ->
        let final :=
          {| script := displayScript scripts;
             audioBase64 := Some audio;
             relatedVideos :=
               stage_answer P (JSON_parse_videos P)
                 (suggest_request v scripts);
             solutions := value_of (solve v P (react b) scripts) |} in
        fst (submit v P b) = Resolved tt
        /\ idb (snd (submit v P b)) !! computeContentHash content
           = Some (Date_now P, final)
        /\ (stage_fails P (JSON_parse_solutions P)
              (solve_request v (react b) scripts) ->
            solutions final = [])
        /\ (stage_fails P (JSON_parse_videos P) (suggest_request v scripts) ->
            relatedVideos final = [])
        /\ (playable v P audio ->
            appState (react (snd (submit v P b))) = done_state v
            /\ result (react (snd (submit v P b)))
               = Some (shown v final (Some (next_url P b))))
        /\ (~ playable v P audio ->
            v = Version1
            /\ appState (react (snd (submit v P b))) = ERROR
            /\ statusMessage (react (snd (submit v P b)))
               = ErrorMessage InvalidCharacterError)).
Proof.
  split; [|split; [|split; [|split]]].
  - intros v P st scripts b.
    rewrite (gateway_only_run _ (gateway_only_solve v P st scripts)).
    rewrite solve_total. eexists. reflexivity.
  - intros v P scripts b. rewrite suggest_stage_run. eexists. reflexivity.
  - exact solve_fails_empty.
  - intros v P scripts b Hfail.
    rewrite suggest_stage_run, (stage_fails_answer _ _ _ Hfail). reflexivity.
  - intros v P b content scripts audio Hacc Hcontent Hprobe Ht Hs Hput final.
    destruct (miss_complete v P b content scripts audio Hacc Hcontent Hprobe
                Ht Hs) as (Hres & Hidb & _ & Hplay & Hnot);
      [congruence|].
    rewrite Hput in Hidb. unfold assembled in *.
    rewrite value_of_suggest in *. fold final in Hidb, Hplay, Hnot.
    split; [exact Hres|].
    split; [rewrite Hidb; apply lookup_insert_eq|].
    split; [apply value_of_solve_fails|].
    split; [apply stage_fails_answer|].
    split; [exact Hplay|].
    intros Hp. destruct (Hnot Hp) as (-> & _ & Hstate & Hmsg & _).
    repeat split; assumption.
Qed.

Lemma solve_and_suggest_degrade_to_empty_witness :
  fst (solve Version1 (platform stages_down healthy) (react iron_fresh)
         sample_scripts iron_fresh) = Resolved []
  /\ fst (suggest Version2 (platform stages_down healthy) sample_scripts
            iron_fresh) = Resolved []
  /\ result (react (snd (submit Version1 (platform stages_down healthy)
                           iron_fresh)))
     = Some {| script := displayScript sample_scripts;
               audioBase64 := Some (js "blob:0");
               relatedVideos := [];
               solutions := [] |}.
Proof.
  pose proof solve_and_suggest_degrade_to_empty
    as (_ & _ & Hsolve & Hsuggest & Hrun).
  split; [|split].
  - apply Hsolve. left. exists ApiError. reflexivity.
  - apply Hsuggest. left. exists ApiError. reflexivity.
  - destruct (Hrun Version1 (platform stages_down healthy) iron_fresh
                (js "Fe + HCl") sample_scripts (js "UklGRg=="))
      as (_ & _ & _ & _ & Hplay & _).
    + exact I.
    + vm_compute. reflexivity.
    + vm_compute. reflexivity.
    + vm_compute. reflexivity.
    + vm_compute. reflexivity.
    + reflexivity.
    + destruct Hplay as [_ Hresult]; [vm_compute; discriminate|].
      rewrite Hresult. vm_compute. reflexivity.
Defined.

(** ** Retries *)

Lemma truthy_false (t : jsstring) : truthy t = false <-> t = [].
Proof. destruct t; simpl; split; congruence. Qed.

Lemma usable_answer_None (P : Platform) (req : Request) :
  usable_answer P req = None <-> nothing_usable P req.
Proof.
  unfold usable_answer, nothing_usable. split.
  - destruct (generateContent P req) as [response|e] eqn:Hgen;
      [|intros _; left; exists e; reflexivity].
    intros H. right. exists response. split; [reflexivity|].
    destruct (finishReason response) as [[| | | |]|]; auto;
      destruct (text response) as [t|]; auto;
      destruct (truthy t) eqn:Ht;
      try (apply truthy_false in Ht; subst; auto; fail);
      do 4 right; exists t; auto.
  - intros [[e ->]|(response & -> & H)]; [reflexivity|].
    destruct H as [->|[->|[->|[->|(t & -> & Hp)]]]]; try reflexivity.
    + destruct (finishReason response) as [[| | | |]|]; reflexivity.
    + destruct (finishReason response) as [[| | | |]|]; reflexivity.
    + rewrite Hp.
      destruct (finishReason response) as [[| | | |]|];
        destruct (truthy t); reflexivity.
Qed.

Lemma requests_of_synthesizeSpeech (P : Platform) (s : jsstring) :
  requests_of (synthesizeSpeech P s) = [tts_request s].
Proof. unfold requests_of. rewrite synthesizeSpeech_requests. reflexivity. Qed.

Lemma requests_of_suggest (v : Version) (P : Platform)
    (ds : DualScriptResponse) :
  requests_of (suggest v P ds) = [suggest_request v ds].
Proof. unfold requests_of. rewrite suggest_stage_run. reflexivity. Qed.

Lemma requests_of_solve (v : Version) (P : Platform) (st : React)
    (ds : DualScriptResponse) :
  exists images,
    requests_of (solve v P st ds) = solve_request v st ds :: images
    /\ image_requests images
    /\ (length images
        <= length (stage_answer P (JSON_parse_solutions P)
                     (solve_request v st ds)))%nat
    /\ (v = Version1 -> images = []).
Proof.
  unfold requests_of. destruct v.
  - exists []. rewrite V1_solve_stage_run.
    repeat split; [constructor | simpl; lia].
  - destruct (V2_solve_stage_run P st ds (browser mounted ∅))
      as (l & images & -> & Hlen & Himg & _).
    exists images. repeat split; [exact Himg | exact Hlen | discriminate].
Qed.

(** The requests of a whole run. *)
Lemma submit_requests (v : Version) (P : Platform) (b : Browser) :
  exists sent,
    calls (snd (submit v P b)) = calls b ++ sent
    /\ (sent = []
        \/ sent = requests_of (transcribe v P (react b))
        \/ exists scripts,
             outcome_of (transcribe v P (react b)) = Resolved scripts
             /\ sent = requests_of (transcribe v P (react b))
                       ++ later_requests v P (react b) scripts).
Proof.
  destruct (accepted_or_not v (react b)) as [Hacc|Hrej].
  - rewrite (submit_run v P b Hacc). unfold after_submit, after_miss.
    cbn [snd].
    destruct (hashed_content v (react b)) as [content|];
      [|exists []; rewrite app_nil_r; auto].
    destruct (fst (getFromCache P (computeContentHash content) b))
      as [[r|]|e];
      [destruct (display v P b r (audio_to_restore r)) as [[res blobs]|];
       [destruct v|]; exists []; rewrite app_nil_r; auto
      | | exists []; rewrite app_nil_r; auto].
    destruct (outcome_of (transcribe v P (react b))) as [scripts|e];
      [|eexists; split; [reflexivity | auto]].
    exists (requests_of (transcribe v P (react b))
            ++ later_requests v P (react b) scripts).
    split; [|right; right; exists scripts; auto].
    destruct (outcome_of (synthesizeSpeech P (readingScript scripts)))
      as [audio|e];
      [destruct (idb_fault P OpPut);
       try destruct (display v P b _ (Some audio)) as [[res blobs]|]|];
      reflexivity.
  - destruct v; [contradiction Hrej; exact I|].
    cbn [submit]. rewrite (V2_handleProcess_rejects P b Hrej).
    exists []. rewrite app_nil_r. auto.
Qed.

(** C5 (as the code has it).  In geminiService.ts generateReadingScript
    sends the strict prompt and, when that attempt leaves nothing usable
    (the call threw, the answer was blocked for RECITATION or SAFETY, it
    had no text, or its text did not parse), sends the paraphrase prompt
    once; it never sends a third request, and throws the terminal error
    when the second attempt leaves nothing usable either.  Every other
    stage sends its request once (the solve stage of the second version
    adds at most one image request per solved item), and a run calls each
    stage at most once. *)
Theorem transcription_fallback_on_any_failure :
  (forall (P : Platform) (t : jsstring) (f m : option jsstring) (b : Browser),
      let primary := transcription_request PromptOCR UserInstruction t f m in
      let alternate := transcription_request PromptSafe UserInstruction t f m in
      V1.generateReadingScript P t f m b =
      match usable_answer P primary with
      | Some scripts => (Resolved scripts, add_calls [primary] b)
      | None =>
          match usable_answer P alternate with
          | Some scripts =>
              (Resolved scripts, add_calls [primary; alternate] b)
          | None =>
              (Rejected TranscriptionError, add_calls [primary; alternate] b)
          end
      end)
  /\ (forall (P : Platform) (req : Request),
        usable_answer P req = None <-> nothing_usable P req)
  /\ (forall (P : Platform) (s : jsstring),
        requests_of (synthesizeSpeech P s) = [tts_request s])
  /\ (forall (v : Version) (P : Platform) (scripts : DualScriptResponse),
        requests_of (suggest v P scripts) = [suggest_request v scripts])
  /\ (forall (v : Version) (P : Platform) (st : React)
             (scripts : DualScriptResponse),
        exists images,
          requests_of (solve v P st scripts)
          = solve_request v st scripts :: images
          /\ image_requests images
          /\ (length images
              <= length (stage_answer P (JSON_parse_solutions P)
                           (solve_request v st scripts)))%nat
          /\ (v = Version1 -> images = []))
  /\ (forall (v : Version) (P : Platform) (b : Browser),
        exists sent,
          calls (snd (submit v P b)) = calls b ++ sent
          /\ (sent = []
              \/ sent = requests_of (transcribe v P (react b))
              \/ exists scripts,
                   outcome_of (transcribe v P (react b)) = Resolved scripts
                   /\ sent = requests_of (transcribe v P (react b))
                             ++ later_requests v P (react b) scripts)).
Proof.
  split; [exact V1_generateReadingScript_run|].
  split; [exact usable_answer_None|].
  split; [exact requests_of_synthesizeSpeech|].
  split; [exact requests_of_suggest|].
  split; [exact requests_of_solve | exact submit_requests].
Qed.

Lemma transcription_fallback_on_any_failure_witness :
  usable_answer offline
    (transcription_request PromptOCR UserInstruction (js "Fe + HCl") None None)
  = None
  /\ forall images,
       requests_of (solve Version1 online (react iron_fresh) sample_scripts)
       = solve_request Version1 (react iron_fresh) sample_scripts :: images ->
       images = [].
Proof.
  pose proof transcription_fallback_on_any_failure
    as (_ & Husable & _ & _ & Hsolve & _).
  split.
  - apply Husable. left. exists ApiError. reflexivity.
  - intros images Himages.
    destruct (Hsolve Version1 online (react iron_fresh) sample_scripts)
      as (images' & Heq & _ & _ & Hnil).
    rewrite Heq in Himages. injection Himages as <-.
    apply Hnil. reflexivity.
Defined.

(** C5 as stated fails: a network error on the strict prompt, which is no
    content-policy rejection, is followed by the paraphrase prompt all the
    same. *)
Lemma fallback_not_tied_to_rejection :
  let primary :=
    transcription_request PromptOCR UserInstruction (js "Fe + HCl") None None in
  let alternate :=
    transcription_request PromptSafe UserInstruction (js "Fe + HCl") None None in
  generateContent (platform primary_throws healthy) primary
  = Rejected ApiError
  /\ V1.generateReadingScript (platform primary_throws healthy)
       (js "Fe + HCl") None None iron_fresh
     = (Resolved sample_scripts, add_calls [primary; alternate] iron_fresh).
Proof.
  intros primary alternate. split; reflexivity.
Qed.

(** The gateway of the second version makes one attempt: a SAFETY block
    is followed by the terminal error. *)
Example V2_blocked_single_attempt :
  let single :=
    transcription_request PromptOCR_IUPAC UserInstructionIUPAC
      (js "Fe + HCl") None None in
  generateContent (platform blocks healthy) single
  = Resolved {| finishReason := Some SAFETY; text := None;
                inlineParts := [] |}
  /\ V2.generateReadingScript (platform blocks healthy)
       (js "Fe + HCl") None None iron_fresh
     = (Rejected TranscriptionError, add_calls [single] iron_fresh).
Proof.
  intros single. split; reflexivity.
Qed.

(** ** Store failures *)

(** A database that cannot be opened is tolerated: the read is a miss,
    the write is skipped, and the run shows its result when the audio is
    playable. *)
Lemma store_open_failure_tolerated (v : Version) (P : Platform) (b : Browser)
    (content : jsstring) (scripts : DualScriptResponse) (audio : jsstring) :
  (forall op, idb_fault P op = OpenFails) ->
  accepted v (react b) ->
  hashed_content v (react b) = Some content ->
  outcome_of (transcribe v P (react b)) = Resolved scripts ->
  outcome_of (synthesizeSpeech P (readingScript scripts)) = Resolved audio ->
  getFromCache P (computeContentHash content) b = (Resolved None, b)
  /\ idb (snd (submit v P b)) = idb b
  /\ (playable v P audio ->
      appState (react (snd (submit v P b))) = done_state v
      /\ result (react (snd (submit v P b)))
         = Some (shown v (assembled v P (react b) scripts audio)
                   (Some (next_url P b))))
  /\ (~ playable v P audio ->
      v = Version1
      /\ appState (react (snd (submit v P b))) = ERROR
      /\ statusMessage (react (snd (submit v P b)))
         = ErrorMessage InvalidCharacterError).
Proof.
  intros Hfault Hacc Hcontent Ht Hs.
  assert (Hprobe : getFromCache P (computeContentHash content) b
                   = (Resolved None, b))
    by (rewrite getFromCache_run, (Hfault OpGet); reflexivity).
  destruct (miss_complete v P b content scripts audio Hacc Hcontent)
    as (_ & Hidb & _ & Hplay & Hnot);
    [rewrite Hprobe; reflexivity | exact Ht | exact Hs
    | rewrite (Hfault OpPut); discriminate |].
  rewrite (Hfault OpPut) in Hidb.
  split; [exact Hprobe|]. split; [exact Hidb|]. split; [exact Hplay|].
  intros Hp. destruct (Hnot Hp) as (-> & _ & Hstate & Hmsg & _).
  repeat split; assumption.
Qed.

Example open_failure_run :
  appState (react (snd (submit Version1 (platform answers cannot_open)
                          iron_fresh))) = PLAYING
  /\ is_Some (result (react (snd (submit Version1
                                    (platform answers cannot_open)
                                    iron_fresh))))
  /\ idb (snd (submit Version1 (platform answers cannot_open) iron_fresh))
       !! computeContentHash (js "Fe + HCl") = None.
Proof.
  split; [vm_compute; reflexivity|].
  split; [vm_compute; eexists; reflexivity | vm_compute; reflexivity].
Qed.

(** A failing request is not: the rejection leaves [getFromCache] and
    [saveToCache] through the promise they return. *)
Lemma store_request_failure_escapes (P : Platform) (hash : jsstring)
    (r : ProcessingResult) (b : Browser) :
  (idb_fault P OpGet = RequestFails ->
   getFromCache P hash b = (Rejected (StoreRequestError OpGet), b))
  /\ (idb_fault P OpPut = RequestFails ->
      saveToCache P hash r b = (Rejected (StoreRequestError OpPut), b)).
Proof.
  split; intros Hfault.
  - rewrite getFromCache_run, Hfault. reflexivity.
  - rewrite saveToCache_run, Hfault. reflexivity.
Qed.

(** C4 fails on the code.  With a store whose get request fails, the read
    is no miss: getFromCache rejects and the run ends in the error state
    before any stage is called.  With a store whose put request fails, a
    run in which every stage succeeded ends in the error state and shows
    no result. *)
Theorem store_request_failure_fails_the_run :
  getFromCache (platform answers (request_fails OpGet))
    (computeContentHash (js "Fe + HCl")) iron_fresh
  = (Rejected (StoreRequestError OpGet), iron_fresh)
  /\ (forall v : Version,
        appState (react (snd (submit v (platform answers (request_fails OpGet))
                                iron_fresh))) = ERROR
        /\ calls (snd (submit v (platform answers (request_fails OpGet))
                         iron_fresh)) = [])
  /\ (forall v : Version,
        outcome_of (transcribe v (platform answers (request_fails OpPut))
                      (react iron_fresh)) = Resolved sample_scripts
        /\ outcome_of (synthesizeSpeech
                         (platform answers (request_fails OpPut))
                         (readingScript sample_scripts))
           = Resolved (js "UklGRg==")
        /\ saveToCache (platform answers (request_fails OpPut))
             (computeContentHash (js "Fe + HCl")) water iron_fresh
           = (Rejected (StoreRequestError OpPut), iron_fresh)
        /\ appState (react (snd (submit v
                                   (platform answers (request_fails OpPut))
                                   iron_fresh))) = ERROR
        /\ statusMessage (react (snd (submit v
                                   (platform answers (request_fails OpPut))
                                   iron_fresh)))
           = error_message v (StoreRequestError OpPut)
        /\ result (react (snd (submit v
                                 (platform answers (request_fails OpPut))
                                 iron_fresh))) = None).
Proof.
  split; [|split].
  - apply (proj1 (store_request_failure_escapes _ _ water _)). reflexivity.
  - intros v. destruct v; split; vm_compute; reflexivity.
  - intros v.
    split; [destruct v; vm_compute; reflexivity|].
    split; [vm_compute; reflexivity|].
    split; [apply (proj2 (store_request_failure_escapes _ _ _ _));
            reflexivity|].
    destruct v; repeat split; vm_compute; reflexivity.
Qed.

(** * Further properties of the code *)

(** ** The store beyond the round trips *)

Lemma getHistory_elem_of (b : Browser) (e : HistoryEntry.t) :
  e ∈ sort newest_first (map history_entry (fst (store_getAll b))) <->
  exists ts d,
    idb b !! HistoryEntry.id e = Some (ts, d)
    /\ e = HistoryEntry.mk (HistoryEntry.id e) ts (history_title (script d)).
Proof.
  rewrite sort_elem_of, list_elem_of_fmap. split.
  - intros (item & -> & Hin). apply store_getAll_elem_of in Hin.
    exists (CachedItem.timestamp item), (CachedItem.data item).
    split; [exact Hin | reflexivity].
  - intros (ts & d & Hl & He).
    exists (CachedItem.mk (HistoryEntry.id e) ts d). split.
    + exact He.
    + apply store_getAll_elem_of. exact Hl.
Qed.

Lemma getHistory_ids (b : Browser) :
  map HistoryEntry.id
    (sort newest_first (map history_entry (fst (store_getAll b))))
  ≡ₚ (map_to_list (idb b)).*1.
Proof.
  rewrite sort_Permutation. unfold store_getAll. cbn [fst].
  rewrite !map_map. cbn.
  change (map (fun x : jsstring * (Z * ProcessingResult) => x.1))
    with (fmap (M := list) (fst (A := jsstring) (B := Z * ProcessingResult))).
  rewrite sort_Permutation. reflexivity.
Qed.

(** X1. Saving twice under one id keeps one record, the later one: the
    store does not grow with the second save, it is the store the second
    save alone would have produced, and a read returns the second
    result. *)
Theorem saveToCache_overwrites (P : Platform) (b : Browser) (id : jsstring)
    (r1 r2 : ProcessingResult) :
  idb_fault P OpPut = Healthy ->
  idb_fault P OpGet = Healthy ->
  let once := snd (saveToCache P id r1 b) in
  let twice := snd (saveToCache P id r2 once) in
  fst (getFromCache P id twice) = Resolved (Some r2)
  /\ size (idb twice) = size (idb once)
  /\ twice = snd (saveToCache P id r2 b).
Proof.
  intros Hput Hget once twice. subst once twice.
  rewrite !saveToCache_run, Hput. cbn [snd set_idb idb].
  rewrite getFromCache_run, Hget. cbn [fst idb].
  unfold set_idb. cbn [idb react timers calls].
  rewrite insert_insert_eq, lookup_insert_eq.
  split; [reflexivity|]. split; [|reflexivity].
  rewrite !map_size_insert. destruct (idb b !! id); reflexivity.
Qed.

Lemma saveToCache_overwrites_witness :
  fst (getFromCache offline (js "f00d")
         (snd (saveToCache offline (js "f00d") long_note
                 (snd (saveToCache offline (js "f00d") water
                         (browser mounted ∅))))))
  = Resolved (Some long_note).
Proof.
  apply (proj1 (saveToCache_overwrites offline (browser mounted ∅)
                  (js "f00d") water long_note eq_refl eq_refl)).
Defined.

(** X2. Whatever the faults of the store, a read ([getFromCache],
    [getHistory]) leaves the browser as it was, and a write
    ([saveToCache], [deleteFromCache]) changes nothing but the record of
    its own id: React state, timers, log and registered blobs are
    untouched and every other id reads as before. *)
Theorem store_operations_frame (P : Platform) (b : Browser)
    (id other : jsstring) (r : ProcessingResult) :
  snd (getFromCache P id b) = b
  /\ snd (getHistory P b) = b
  /\ (forall b', b' = snd (saveToCache P id r b)
                 \/ b' = snd (deleteFromCache P id b) ->
        react b' = react b /\ timers b' = timers b /\ calls b' = calls b
        /\ objectURLs b' = objectURLs b
        /\ (other <> id ->
            idb b' !! other = idb b !! other
            /\ getFromCache P other b' = (fst (getFromCache P other b), b'))).
Proof.
  split; [|split].
  - rewrite getFromCache_run. destruct (idb_fault P OpGet); reflexivity.
  - rewrite getHistory_run. destruct (idb_fault P OpGetAll); reflexivity.
  - intros b' [->| ->].
    + rewrite saveToCache_run.
      destruct (idb_fault P OpPut); cbn;
        (split; [reflexivity|]); (split; [reflexivity|]);
        (split; [reflexivity|]); (split; [reflexivity|]);
        intros Hne; rewrite ?getFromCache_run;
        destruct (idb_fault P OpGet); cbn;
        rewrite ?lookup_insert_ne by congruence; auto.
    + rewrite deleteFromCache_run.
      destruct (idb_fault P OpDelete); cbn;
        (split; [reflexivity|]); (split; [reflexivity|]);
        (split; [reflexivity|]); (split; [reflexivity|]);
        intros Hne; rewrite ?getFromCache_run;
        destruct (idb_fault P OpGet); cbn;
        rewrite ?lookup_delete_ne by congruence; auto.
Qed.

Lemma store_operations_frame_witness :
  idb (snd (deleteFromCache offline (js "f00d")
              (browser mounted
                 {[ js "f00d" := (5%Z, water); js "cafe" := (6%Z, water) ]})))
    !! js "cafe"
  = Some (6%Z, water).
Proof.
  destruct (store_operations_frame offline
              (browser mounted
                 {[ js "f00d" := (5%Z, water); js "cafe" := (6%Z, water) ]})
              (js "f00d") (js "cafe") water) as (_ & _ & Hframe).
  destruct (Hframe _ (or_intror eq_refl)) as (_ & _ & _ & _ & Hother).
  destruct Hother as [Hlookup _]; [vm_compute; discriminate|].
  rewrite Hlookup. vm_compute. reflexivity.
Defined.

(** X3. Whatever getHistory resolves with lists every id at most once. *)
Theorem getHistory_ids_distinct (P : Platform) (b : Browser)
    (history : list HistoryEntry.t) :
  fst (getHistory P b) = Resolved history ->
  NoDup (map HistoryEntry.id history).
Proof.
  rewrite getHistory_run.
  destruct (idb_fault P OpGetAll); cbn [fst]; intros [= <-].
  - pose proof (getHistory_ids b) as Hids.
    unfold store_getAll in Hids. cbn [fst] in Hids.
    rewrite Hids. apply NoDup_fst_map_to_list.
  - constructor.
Qed.

Lemma getHistory_ids_distinct_witness :
  NoDup (map HistoryEntry.id
           [ HistoryEntry.mk (js "f00d") 5 (js "2H2 + O2 -> 2H2O") ]).
Proof.
  apply (getHistory_ids_distinct offline
           (browser mounted {[ js "f00d" := (5%Z, water) ]})).
  vm_compute. reflexivity.
Defined.

Lemma history_entry_id (b : Browser) (e : HistoryEntry.t) :
  e ∈ sort newest_first (map history_entry (fst (store_getAll b))) ->
  is_Some (idb b !! HistoryEntry.id e).
Proof.
  intros He. apply getHistory_elem_of in He as (ts & d & Hl & _). eauto.
Qed.

Lemma history_after_delete (b : Browser) (id : jsstring) (e : HistoryEntry.t) :
  e ∈ sort newest_first
        (map history_entry
           (fst (store_getAll (set_idb (delete id (idb b)) b)))) <->
  e ∈ sort newest_first (map history_entry (fst (store_getAll b)))
  /\ HistoryEntry.id e <> id.
Proof.
  rewrite !getHistory_elem_of. cbn [idb set_idb]. split.
  - intros (ts & d & Hl & He).
    apply lookup_delete_Some in Hl as [Hne Hl]. split; [eauto | congruence].
  - intros [(ts & d & Hl & He) Hne].
    exists ts, d. split; [|exact He].
    apply lookup_delete_Some. split; [congruence | exact Hl].
Qed.

(** X4. With the store working, a deleted record leaves the listing and
    nothing else does: getHistory after deleteFromCache(id) lists exactly
    the entries listed before whose id is not the deleted one. *)
Theorem delete_reflected_in_history (P : Platform) (b : Browser)
    (id : jsstring) :
  idb_fault P OpDelete = Healthy ->
  idb_fault P OpGetAll = Healthy ->
  exists before after : list HistoryEntry.t,
    fst (getHistory P b) = Resolved before
    /\ fst (getHistory P (snd (deleteFromCache P id b))) = Resolved after
    /\ (forall e, e ∈ after <-> e ∈ before /\ HistoryEntry.id e <> id)
    /\ length after
       = (length before
          - match idb b !! id with Some _ => 1 | None => 0 end)%nat.
Proof.
  intros Hdel Hall.
  rewrite deleteFromCache_run, Hdel, !getHistory_run, Hall. cbn [fst snd].
  eexists _, _. split; [reflexivity|]. split; [reflexivity|].
  split; [apply history_after_delete|].
  rewrite !sort_length, !length_map. unfold store_getAll. cbn [fst idb set_idb].
  rewrite !length_map, !sort_length, !length_map_to_list.
  rewrite map_size_delete.
  destruct (idb b !! id) as [x|]; cbn; lia.
Qed.

Lemma delete_reflected_in_history_witness :
  fst (getHistory offline
         (snd (deleteFromCache offline (js "f00d")
                 (browser mounted
                    {[ js "f00d" := (5%Z, water);
                       js "cafe" := (6%Z, long_note) ]}))))
  = Resolved [ HistoryEntry.mk (js "cafe") 6 (js "Hi...") ].
Proof.
  destruct (delete_reflected_in_history offline
              (browser mounted
                 {[ js "f00d" := (5%Z, water);
                    js "cafe" := (6%Z, long_note) ]})
              (js "f00d") eq_refl eq_refl)
    as (before & after & _ & Hafter & _).
  rewrite Hafter. f_equal.
  assert (Heq : Resolved after
                = Resolved [ HistoryEntry.mk (js "cafe") 6 (js "Hi...") ]).
  { rewrite <- Hafter. vm_compute. reflexivity. }
  injection Heq as ->. reflexivity.
Defined.

(** X5. With the store working, a saved result is listed at once, under
    its id, with the time of the save and the title of its script; the
    entries of the other ids stay; and when the clock is ahead of every
    other stored timestamp the new entry is the first of the list. *)
Theorem save_reflected_in_history (P : Platform) (b : Browser)
    (id : jsstring) (r : ProcessingResult) :
  idb_fault P OpPut = Healthy ->
  idb_fault P OpGetAll = Healthy ->
  let saved := HistoryEntry.mk id (Date_now P) (history_title (script r)) in
  exists before after : list HistoryEntry.t,
    fst (getHistory P b) = Resolved before
    /\ fst (getHistory P (snd (saveToCache P id r b))) = Resolved after
    /\ saved ∈ after
    /\ (forall e, HistoryEntry.id e <> id -> (e ∈ after <-> e ∈ before))
    /\ ((forall k ts d, idb b !! k = Some (ts, d) -> k <> id ->
                        (ts < Date_now P)%Z) ->
        head after = Some saved).
Proof.
  intros Hput Hall saved.
  rewrite saveToCache_run, Hput, !getHistory_run, Hall. cbn [fst snd].
  set (b1 := set_idb (<[id:=(Date_now P, r)]> (idb b)) b).
  set (after := sort newest_first (map history_entry (fst (store_getAll b1)))).
  assert (Hsaved : saved ∈ after).
  { apply getHistory_elem_of. exists (Date_now P), r.
    split; [apply lookup_insert_eq | reflexivity]. }
  assert (Hmem : forall e, e ∈ after ->
            e = saved \/ (HistoryEntry.id e <> id
                          /\ exists ts d, idb b !! HistoryEntry.id e
                                          = Some (ts, d)
                                          /\ HistoryEntry.timestamp e = ts)).
  { intros e He. apply getHistory_elem_of in He as (ts & d & Hl & He).
    cbn [idb b1 set_idb] in Hl.
    destruct (decide (HistoryEntry.id e = id)) as [Heq|Hne].
    - left. rewrite Heq, lookup_insert_eq in Hl. injection Hl as <- <-.
      rewrite He, Heq. reflexivity.
    - right. split; [exact Hne|]. rewrite lookup_insert_ne in Hl by congruence.
      exists ts, d. split; [exact Hl|]. rewrite He. reflexivity. }
  eexists _, after. split; [reflexivity|]. split; [reflexivity|].
  split; [exact Hsaved|]. split.
  - intros e Hne. unfold after. rewrite !getHistory_elem_of.
    cbn [idb b1 set_idb]. rewrite lookup_insert_ne by congruence.
    reflexivity.
  - intros Hclock.
    pose proof (sort_newest_first_sorted
                  (map history_entry (fst (store_getAll b1)))) as Hsorted.
    fold after in Hsorted.
    destruct after as [|e rest]; [apply not_elem_of_nil in Hsaved; contradiction|].
    cbn [head]. f_equal.
    destruct (Hmem e) as [He|(Hne & ts & d & Hl & Hts)];
      [left | exact He |].
    exfalso.
    apply elem_of_cons in Hsaved as [Heq|Hin].
    + subst e. apply Hne. reflexivity.
    + apply StronglySorted_inv in Hsorted as [_ Hall'].
      rewrite Forall_forall in Hall'. specialize (Hall' saved Hin).
      unfold not_older in Hall'. cbn in Hall'.
      specialize (Hclock _ _ _ Hl Hne). lia.
Qed.

Lemma save_reflected_in_history_witness :
  head (match fst (getHistory offline
                     (snd (saveToCache offline (js "beef") long_note
                             (browser mounted
                                {[ js "f00d" := (5%Z, water) ]})))) with
        | Resolved after => after
        | Rejected _ => []
        end)
  = Some (HistoryEntry.mk (js "beef") 1700000000000 (js "Hi...")).
Proof.
  destruct (save_reflected_in_history offline
              (browser mounted {[ js "f00d" := (5%Z, water) ]})
              (js "beef") long_note eq_refl eq_refl)
    as (before & after & _ & Hafter & _ & _ & Hhead).
  rewrite Hafter, Hhead; [vm_compute; reflexivity|].
  intros k ts d Hl Hne. cbn [idb browser] in Hl.
  apply lookup_singleton_Some in Hl as [_ Hl]. injection Hl as <- _.
  reflexivity.
Defined.

(** ** The layout of the WAV container *)

Lemma le32_read (v : N) :
  v < 4294967296 ->
  v mod 256 + 256 * ((v / 256) mod 256) + 65536 * ((v / 65536) mod 256)
  + 16777216 * ((v / 16777216) mod 256) = v.
Proof.
  intros Hv. zify. Z.to_euclidean_division_equations. lia.
Qed.

(** X6. [createWavUrlFromPcm] never writes outside its buffer; the buffer
    is 44 bytes longer than the PCM data, starts with the RIFF tag, carries
    the PCM bytes unchanged from byte 44 on (bytes of a binary string, each
    below 256), declares 16-bit mono PCM at 24 kHz, and, as long as the
    sizes fit 32 bits, its two size fields read back as the data size plus
    36 and the data size. *)
Theorem wav_buffer_layout (pcmData : jsstring) :
  exists buffer,
    wav_buffer pcmData = Some buffer
    /\ length buffer = (44 + length pcmData)%nat
    /\ take 4 buffer = js "RIFF"
    /\ take 8 (drop 8 buffer) = js "WAVEfmt "
    /\ take 4 (drop 36 buffer) = js "data"
    /\ getUint16 buffer 20 = 1
    /\ getUint16 buffer 22 = 1
    /\ getUint32 buffer 24 = 24000
    /\ getUint32 buffer 28 = 48000
    /\ getUint16 buffer 32 = 2
    /\ getUint16 buffer 34 = 16
    /\ (Forall (fun c => c < 256) pcmData -> drop 44 buffer = pcmData)
    /\ (36 + N.of_nat (length pcmData) < 4294967296 ->
        getUint32 buffer 4 = 36 + N.of_nat (length pcmData)
        /\ getUint32 buffer 40 = N.of_nat (length pcmData)).
Proof.
  eexists. split; [apply wav_buffer_eq|].
  generalize (N.of_nat (length pcmData)) as m. intros m.
  split; [rewrite length_app, length_map; reflexivity|].
  do 9 (split; [reflexivity|]).
  split.
  - intros Hbytes.
    change (drop 44 (wav_header m ++ map (fun c => c mod 256) pcmData))
      with (map (fun c => c mod 256) pcmData).
    induction Hbytes as [|c rest Hc _ IH]; [reflexivity|].
    cbn [map]. rewrite IH, N.mod_small by exact Hc. reflexivity.
  - intros Hfit.
    unfold getUint32, wav_header.
    cbn -[N.modulo N.div N.add N.mul].
    split; apply le32_read; lia.
Qed.

Lemma wav_buffer_layout_witness :
  exists buffer,
    wav_buffer [1; 2; 3; 4] = Some buffer
    /\ drop 44 buffer = [1; 2; 3; 4]
    /\ getUint32 buffer 4 = 40
    /\ getUint32 buffer 40 = 4.
Proof.
  destruct (wav_buffer_layout [1; 2; 3; 4])
    as (buffer & Hb & _ & _ & _ & _ & _ & _ & _ & _ & _ & _ & Hdata & Hsize).
  exists buffer. split; [exact Hb|].
  split; [apply Hdata; repeat constructor|].
  apply Hsize. reflexivity.
Defined.

(** ** The history panel *)

(** X7. With the store working, a confirmed deletion in the history panel
    removes the record and leaves the panel showing what the store now
    holds, without the deleted id and with the spinner off; a declined
    confirmation changes nothing. *)
Theorem handleDelete_panel_matches_store (P : Platform) (confirmed : bool)
    (id : jsstring) (s : HistoryListState) (b : Browser) :
  idb_fault P OpDelete = Healthy ->
  idb_fault P OpGetAll = Healthy ->
  exists s' b',
    handleDelete P confirmed id s b = (Resolved tt, (s', b'))
    /\ (confirmed = false -> s' = s /\ b' = b)
    /\ (confirmed = true ->
        idb b' = delete id (idb b)
        /\ isLoading s' = false
        /\ fst (getHistory P b') = Resolved (history s')
        /\ id ∉ map HistoryEntry.id (history s')).
Proof.
  intros Hdel Hall. unfold handleDelete, loadHistory.
  destruct confirmed.
  - rewrite deleteFromCache_run, Hdel, !getHistory_run, Hall. cbn [snd fst].
    eexists _, _. split; [reflexivity|]. split; [discriminate|].
    intros _. split; [reflexivity|]. split; [reflexivity|].
    rewrite getHistory_run, Hall. split; [reflexivity|].
    cbn [history]. intros Hin.
    apply list_elem_of_fmap in Hin as (e & -> & He).
    apply history_after_delete in He as [_ Hne]. apply Hne. reflexivity.
  - exists s, b. split; [reflexivity|]. split; [auto | discriminate].
Qed.

Lemma handleDelete_panel_matches_store_witness :
  exists s' b',
    handleDelete offline true (js "f00d")
      {| history := [ HistoryEntry.mk (js "f00d") 5 (js "2H2 + O2 -> 2H2O") ];
         isLoading := false |}
      (browser mounted {[ js "f00d" := (5%Z, water) ]})
    = (Resolved tt, (s', b'))
    /\ history s' = [].
Proof.
  destruct (handleDelete_panel_matches_store offline true (js "f00d")
              {| history :=
                   [ HistoryEntry.mk (js "f00d") 5 (js "2H2 + O2 -> 2H2O") ];
                 isLoading := false |}
              (browser mounted {[ js "f00d" := (5%Z, water) ]})
              eq_refl eq_refl) as (s' & b' & Hrun & _ & _).
  exists s', b'. split; [exact Hrun|].
  vm_compute in Hrun. injection Hrun as <- _. reflexivity.
Defined.

(** X8. When listing the store fails at the request, the history panel
    never leaves its loading state: loadHistory rejects with the listing's
    error, the entries shown stay, and the spinner stays on.  A confirmed
    deletion then still resolves (the refresh is not awaited) and the
    deleted entry stays on the screen, although the record is gone from
    the store. *)
Theorem history_panel_stuck_loading (P : Platform) (id : jsstring)
    (s : HistoryListState) (b : Browser) :
  idb_fault P OpGetAll = RequestFails ->
  let stuck := {| history := history s; isLoading := true |} in
  loadHistory P s b = (Rejected (StoreRequestError OpGetAll), (stuck, b))
  /\ (idb_fault P OpDelete = Healthy ->
      handleDelete P true id s b
      = (Resolved tt, (stuck, set_idb (delete id (idb b)) b))).
Proof.
  intros Hall stuck. unfold handleDelete, loadHistory.
  rewrite !getHistory_run, Hall. split; [reflexivity|].
  intros Hdel. rewrite deleteFromCache_run, Hdel.
  rewrite getHistory_run, Hall. reflexivity.
Qed.

Lemma history_panel_stuck_loading_witness :
  loadHistory (platform answers (request_fails OpGetAll))
    {| history := []; isLoading := false |}
    (browser mounted {[ js "f00d" := (5%Z, water) ]})
  = (Rejected (StoreRequestError OpGetAll),
     ({| history := []; isLoading := true |},
      browser mounted {[ js "f00d" := (5%Z, water) ]})).
Proof.
  apply (proj1 (history_panel_stuck_loading
                  (platform answers (request_fails OpGetAll)) (js "f00d")
                  {| history := []; isLoading := false |}
                  (browser mounted {[ js "f00d" := (5%Z, water) ]})
                  eq_refl)).
Defined.

(** ** Loading from the history and resetting *)

(** X9. With the store working, every entry that getHistory lists can be
    loaded: loadFromHistory on its id resolves, closes the panel and shows
    the result stored under that id, whose script has the entry's title,
    marked as cached and with the application idle; the store and the
    gateway log are untouched.  On an id without record nothing
    changes. *)
Theorem V2_loadFromHistory_listed_entry (P : Platform) (b : Browser)
    (entries : list HistoryEntry.t) :
  idb_fault P OpGetAll = Healthy ->
  idb_fault P OpGet = Healthy ->
  fst (getHistory P b) = Resolved entries ->
  (forall e showHistory, e ∈ entries ->
     exists r b',
       V2_loadFromHistory P (HistoryEntry.id e) showHistory b
       = (Resolved false, b')
       /\ result (react b') = Some r
       /\ (exists ts, idb b !! HistoryEntry.id e = Some (ts, r))
       /\ history_title (script r) = HistoryEntry.title e
       /\ isCachedResult (react b') = true
       /\ appState (react b') = IDLE
       /\ idb b' = idb b /\ calls b' = calls b)
  /\ (forall id showHistory, id ∉ map HistoryEntry.id entries ->
        V2_loadFromHistory P id showHistory b = (Resolved showHistory, b)).
Proof.
  intros Hall Hget. rewrite getHistory_run, Hall. cbn [fst]. intros [= <-].
  unfold V2_loadFromHistory. split.
  - intros e showHistory He.
    apply getHistory_elem_of in He as (ts & d & Hl & He).
    run. rewrite getFromCache_run, Hget, Hl. cbn.
    eexists _, _. split; [reflexivity|]. cbn.
    split; [reflexivity|]. split; [eauto|].
    split; [rewrite He; reflexivity|].
    repeat split.
  - intros id showHistory Hid.
    run. rewrite getFromCache_run, Hget.
    destruct (idb b !! id) as [[ts d]|] eqn:Hl; [|reflexivity].
    exfalso. apply Hid. apply list_elem_of_fmap.
    exists (HistoryEntry.mk id ts (history_title (script d))).
    split; [reflexivity|].
    apply getHistory_elem_of. exists ts, d. split; [exact Hl | reflexivity].
Qed.

Lemma V2_loadFromHistory_listed_entry_witness :
  V2_loadFromHistory offline (js "cafe") true
    (browser mounted {[ js "f00d" := (5%Z, water) ]})
  = (Resolved true, browser mounted {[ js "f00d" := (5%Z, water) ]}).
Proof.
  refine (proj2 (V2_loadFromHistory_listed_entry offline
                   (browser mounted {[ js "f00d" := (5%Z, water) ]})
                   [ HistoryEntry.mk (js "f00d") 5 (js "2H2 + O2 -> 2H2O") ]
                   eq_refl eq_refl _) _ _ _).
  - vm_compute. reflexivity.
  - intros Hin. apply list_elem_of_singleton in Hin. vm_compute in Hin.
    discriminate.
Defined.

(** ** The input section *)

Lemma validateFile_None (f : File.t) :
  validateFile f = None ->
  accepted_type (File.type f) /\ File.size f <= 20 * 1024 * 1024.
Proof.
  unfold validateFile. rewrite accepted_type_validTypes, <- includes_In.
  destruct (includes validTypes (File.type f)); cbn [negb]; [|discriminate].
  destruct (N.ltb_spec (20 * 1024 * 1024) (File.size f)); [discriminate|].
  intros _. split; [reflexivity | assumption].
Qed.

Lemma handleFile_validated (f : File.t) (rs : React * InputSectionState) :
  file_validated (fst rs) -> file_validated (fst (handleFile f rs)).
Proof.
  destruct rs as [r s]. unfold handleFile.
  destruct (validateFile f) eqn:Hv; cbn [fst]; [auto|].
  intros _. unfold file_validated. cbn. split; [exact Hv | reflexivity].
Qed.

Lemma handleFile_frame (f : File.t) (rs : React * InputSectionState) :
  appState (fst (handleFile f rs)) = appState (fst rs)
  /\ mode (fst (handleFile f rs)) = mode (fst rs)
  /\ textInput (fst (handleFile f rs)) = textInput (fst rs)
  /\ result (fst (handleFile f rs)) = result (fst rs).
Proof.
  destruct rs as [r s]. unfold handleFile.
  destruct (validateFile f); repeat split.
Qed.

Lemma handlePaste_validated (items : list ClipboardItem)
    (rs : React * InputSectionState) :
  file_validated (fst rs) -> file_validated (fst (handlePaste items rs)).
Proof.
  intros Hrs. induction items as [|item rest IH]; [exact Hrs|].
  cbn [handlePaste].
  destruct (String_includes (item_type item) (js "image")); [|exact IH].
  destruct (getAsFile item) as [blob|]; [|exact IH].
  apply handleFile_validated. exact Hrs.
Qed.

Lemma handlePaste_frame (items : list ClipboardItem)
    (rs : React * InputSectionState) :
  appState (fst (handlePaste items rs)) = appState (fst rs)
  /\ textInput (fst (handlePaste items rs)) = textInput (fst rs)
  /\ result (fst (handlePaste items rs)) = result (fst rs).
Proof.
  induction items as [|item rest IH]; [repeat split|].
  cbn [handlePaste].
  destruct (String_includes (item_type item) (js "image")); [|exact IH].
  destruct (getAsFile item) as [blob|]; [|exact IH].
  destruct (handleFile_frame blob (with_mode FILE (fst rs), snd rs))
    as (Ha & _ & Ht & Hr).
  rewrite Ha, Ht, Hr. repeat split.
Qed.

Lemma input_step_validated (rs : React * InputSectionState) (ev : InputEvent) :
  file_validated (fst rs) -> file_validated (fst (input_step rs ev)).
Proof.
  intros Hrs. destruct ev as [type|files|files|items| |m|t]; cbn [input_step].
  - destruct rs as [r s]; destruct type; exact Hrs.
  - destruct rs as [r s]. unfold handleDrop.
    destruct files as [|f files]; [exact Hrs|].
    apply handleFile_validated. exact Hrs.
  - destruct files as [|f files]; [exact Hrs|].
    apply handleFile_validated. exact Hrs.
  - apply handlePaste_validated. exact Hrs.
  - exact I.
  - exact Hrs.
  - exact Hrs.
Qed.

Lemma input_step_frame (rs : React * InputSectionState) (ev : InputEvent) :
  appState (fst (input_step rs ev)) = appState (fst rs)
  /\ result (fst (input_step rs ev)) = result (fst rs).
Proof.
  destruct ev as [type|files|files|items| |m|t]; cbn [input_step].
  - destruct rs as [r s]; destruct type; split; reflexivity.
  - destruct rs as [r s]. unfold handleDrop.
    destruct files as [|f files]; [split; reflexivity|].
    destruct (handleFile_frame f
                (r, {| dragActive := false; error := error s |}))
      as (Ha & _ & _ & Hr).
    split; assumption.
  - destruct files as [|f files]; [split; reflexivity|].
    destruct (handleFile_frame f rs) as (Ha & _ & _ & Hr). split; assumption.
  - destruct (handlePaste_frame items rs) as (Ha & _ & Hr). split; assumption.
  - split; reflexivity.
  - split; reflexivity.
  - split; reflexivity.
Qed.

(** X10. Whatever the user does in the input section (drag, drop, file
    dialog, paste, clear, switch tab, type), the file slot only ever holds
    a file that validateFile accepts, stored under the file's own MIME
    type: so the MIME type a run passes to the gateway is one of the six
    accepted types and the file is at most 20 MB.  None of these events
    touches the application state or the result shown. *)
Theorem input_section_keeps_file_validated (events : list InputEvent)
    (rs : React * InputSectionState) :
  file_validated (fst rs) ->
  let r := fst (fold_left input_step events rs) in
  (forall fd, file r = Some fd ->
     validateFile (FileData.file fd) = None
     /\ FileData.mimeType fd = File.type (FileData.file fd)
     /\ File.size (FileData.file fd) <= 20 * 1024 * 1024)
  /\ (forall mimeType0, mime_arg r = Some mimeType0 -> accepted_type mimeType0)
  /\ appState r = appState (fst rs)
  /\ result r = result (fst rs).
Proof.
  intros Hrs r.
  assert (Hinv : file_validated r
                 /\ appState r = appState (fst rs)
                 /\ result r = result (fst rs)).
  { subst r. revert rs Hrs.
    induction events as [|ev events IH]; intros rs Hrs; [auto|].
    cbn [fold_left].
    destruct (IH (input_step rs ev) (input_step_validated rs ev Hrs))
      as (Hv & Ha & Hr).
    destruct (input_step_frame rs ev) as [Ha' Hr'].
    rewrite Ha, Hr, Ha', Hr'. auto. }
  destruct Hinv as (Hv & Ha & Hr).
  assert (Hfile : forall fd, file r = Some fd ->
            validateFile (FileData.file fd) = None
            /\ FileData.mimeType fd = File.type (FileData.file fd)
            /\ File.size (FileData.file fd) <= 20 * 1024 * 1024).
  { intros fd Hfd. unfold file_validated in Hv. rewrite Hfd in Hv.
    destruct Hv as [Hv Hm]. split; [exact Hv|]. split; [exact Hm|].
    apply validateFile_None, Hv. }
  split; [exact Hfile|]. split; [|auto].
  intros m Hm. unfold mime_arg in Hm.
  destruct (mode r); [|discriminate].
  destruct (file r) as [fd|] eqn:Hfd; [|discriminate].
  injection Hm as <-.
  destruct (Hfile fd eq_refl) as (Hv' & -> & _).
  apply validateFile_None, Hv'.
Qed.

Lemma input_section_keeps_file_validated_witness :
  file
    (fst (fold_left input_step
            [ Drop [File.mk (js "image/gif") 10 None];
              Paste [ {| item_type := js "image/png";
                         getAsFile :=
                           Some (File.mk (js "image/png") 10 None) |} ];
              Type_ (js "H2O");
              Change [File.mk (js "application/pdf") 99999999 None] ]
            (mounted, {| dragActive := false; error := None |})))
  = Some (FileData.mk (File.mk (js "image/png") 10 None) (js "image/png"))
  /\ forall mimeType0,
       mime_arg
         (fst (fold_left input_step
                 [ Drop [File.mk (js "image/gif") 10 None];
                   Paste [ {| item_type := js "image/png";
                              getAsFile :=
                                Some (File.mk (js "image/png") 10 None) |} ];
                   Type_ (js "H2O");
                   Change [File.mk (js "application/pdf") 99999999 None] ]
                 (mounted, {| dragActive := false; error := None |})))
       = Some mimeType0 ->
       accepted_type mimeType0.
Proof.
  split; [vm_compute; reflexivity|].
  apply (input_section_keeps_file_validated
           [ Drop [File.mk (js "image/gif") 10 None];
             Paste [ {| item_type := js "image/png";
                        getAsFile :=
                          Some (File.mk (js "image/png") 10 None) |} ];
             Type_ (js "H2O");
             Change [File.mk (js "application/pdf") 99999999 None] ]
           (mounted, {| dragActive := false; error := None |}) I).
Defined.

(** X11. Pasting looks at the first clipboard item of an image type that
    yields a file, and at no other.  It switches the section to file mode
    before the file is validated: a rejected picture (say a GIF) leaves the
    file slot as it was and shows the validation error, but the tab has
    changed; an accepted one becomes the chosen file.  A clipboard without
    such an item changes nothing. *)
Theorem handlePaste_first_image (skipped rest : list ClipboardItem)
    (item : ClipboardItem) (blob : File.t) (rs : React * InputSectionState) :
  Forall (fun i => String_includes (item_type i) (js "image") = false
                   \/ getAsFile i = None) skipped ->
  handlePaste skipped rs = rs
  /\ (String_includes (item_type item) (js "image") = true ->
      getAsFile item = Some blob ->
      let rs' := handlePaste (skipped ++ item :: rest) rs in
      mode (fst rs') = FILE
      /\ textInput (fst rs') = textInput (fst rs)
      /\ match validateFile blob with
         | Some validationError =>
             file (fst rs') = file (fst rs)
             /\ error (snd rs') = Some validationError
         | None =>
             file (fst rs') = Some (FileData.mk blob (File.type blob))
             /\ error (snd rs') = None
         end).
Proof.
  intros Hskipped.
  assert (Hskip : forall tail,
            handlePaste (skipped ++ tail) rs = handlePaste tail rs).
  { intros tail. induction Hskipped as [|i skipped [Hi|Hi] _ IH];
      [reflexivity| |]; cbn [app handlePaste].
    - rewrite Hi. exact IH.
    - rewrite Hi. destruct (String_includes _ _); exact IH. }
  split.
  - rewrite <- (app_nil_r skipped) at 1. apply Hskip.
  - intros Himage Hblob rs'. subst rs'. rewrite Hskip.
    cbn [handlePaste]. rewrite Himage, Hblob.
    destruct rs as [r s]. unfold handleFile. cbn [fst snd].
    destruct (validateFile blob); repeat split.
Qed.

Lemma handlePaste_first_image_witness :
  mode
    (fst (handlePaste
            [ {| item_type := js "text/plain"; getAsFile := None |};
              {| item_type := js "image/gif";
                 getAsFile := Some (File.mk (js "image/gif") 10 None) |} ]
            (with_mode TEXT mounted,
             {| dragActive := false; error := None |})))
  = FILE.
Proof.
  refine (proj1 (proj2 (handlePaste_first_image
            [ {| item_type := js "text/plain"; getAsFile := None |} ] []
            {| item_type := js "image/gif";
               getAsFile := Some (File.mk (js "image/gif") 10 None) |}
            (File.mk (js "image/gif") 10 None)
            (with_mode TEXT mounted,
             {| dragActive := false; error := None |}) _) eq_refl eq_refl)).
  constructor; [right; reflexivity | constructor].
Defined.

(** X12. The action button is enabled exactly when the application is
    idle and the input passes the guards of handleProcess: with the
    application idle and the button disabled a call of handleProcess does
    nothing, and with the button enabled a run in text mode fingerprints a
    text that is not empty once trimmed, and a run in file mode has a
    file. *)
Theorem process_button_matches_guards (r : React) :
  (process_disabled r = false <-> appState r = IDLE /\ accepted Version2 r)
  /\ (forall (P : Platform) (b : Browser),
        react b = r -> appState r = IDLE -> process_disabled r = true ->
        V2.handleProcess P b = (Resolved tt, b))
  /\ (process_disabled r = false ->
      match mode r with
      | TEXT => hashed_content Version1 r <> Some []
      | FILE => is_Some (file r)
      end).
Proof.
  assert (Hiff : process_disabled r = false
                 <-> appState r = IDLE /\ accepted Version2 r).
  { unfold process_disabled, accepted.
    destruct (decide (appState r = IDLE)) as [Hs|Hs].
    - rewrite (bool_decide_eq_true_2 _ Hs). cbn [negb orb].
      destruct (mode r); cbn.
      + destruct (file r) as [fd|]; cbn.
        * split; [intros _; split; [exact Hs | discriminate] | reflexivity].
        * split; [discriminate | intros [_ H]; contradiction H; reflexivity].
      + rewrite ?orb_false_r.
        destruct (trim (textInput r)); cbn.
        * split; [discriminate | intros [_ H]; contradiction H; reflexivity].
        * split; [intros _; split; [exact Hs | discriminate] | reflexivity].
    - rewrite (bool_decide_eq_false_2 _ Hs). cbn.
      split; [discriminate | tauto]. }
  split; [exact Hiff|]. split.
  - intros P b <- Hidle Hdis. apply V2_handleProcess_rejects.
    intros Hacc.
    assert (Hen : process_disabled (react b) = false)
      by (apply Hiff; auto).
    congruence.
  - intros Hen. apply Hiff in Hen as [_ Hacc]. unfold accepted in Hacc.
    unfold hashed_content.
    destruct (mode r).
    + destruct (file r); [eauto | contradiction Hacc; reflexivity].
    + congruence.
Qed.

Lemma process_button_matches_guards_witness :
  V2.handleProcess offline (browser (typed (js "  ")) ∅)
  = (Resolved tt, browser (typed (js "  ")) ∅).
Proof.
  apply (proj1 (proj2 (process_button_matches_guards (typed (js "  "))))
           offline (browser (typed (js "  ")) ∅) eq_refl eq_refl eq_refl).
Defined.

(** X13. After handleReset the application is idle with no result, no
    file and no text, so the action button is disabled and a call of
    handleProcess does nothing; the tab, the store and the log of requests
    are as before the reset. *)
Theorem handleReset_disables_processing (P : Platform) (b : Browser) :
  exists b',
    handleReset b = (Resolved tt, b')
    /\ appState (react b') = IDLE
    /\ result (react b') = None
    /\ file (react b') = None
    /\ textInput (react b') = []
    /\ isCachedResult (react b') = false
    /\ mode (react b') = mode (react b)
    /\ idb b' = idb b
    /\ calls b' = calls b
    /\ process_disabled (react b') = true
    /\ V2.handleProcess P b' = (Resolved tt, b').
Proof.
  eexists. split; [reflexivity|]. cbn.
  do 8 (split; [reflexivity|]).
  split.
  - unfold process_disabled. cbn. destruct (mode (react b)); reflexivity.
  - apply V2_handleProcess_rejects. unfold accepted. cbn.
    destruct (mode (react b)); intros H; apply H; reflexivity.
Qed.

(** ** The rest of the file utilities *)

(** X14. Every file that validateFile accepts gets a specific icon from
    getFileIconName, never the generic one: the PDF icon for a PDF, the
    image icon for the three image types and the Word icon for the two
    Word types. *)
Theorem getFileIconName_of_accepted (f : File.t) :
  validateFile f = None ->
  getFileIconName (File.type f)
  = (if bool_decide (File.type f = js "application/pdf") then js "pdf"
     else if startsWith (File.type f) (js "image/") then js "image"
     else js "word")
  /\ getFileIconName (File.type f) <> js "file".
Proof.
  intros Hv. apply validateFile_None in Hv as [Ht _].
  unfold accepted_type in Ht.
  destruct Ht as [-> | [-> | [-> | [-> | [-> | ->]]]]];
    vm_compute; split; (reflexivity || discriminate).
Qed.

Lemma getFileIconName_of_accepted_witness :
  getFileIconName (js "application/msword") = js "word".
Proof.
  apply (proj1 (getFileIconName_of_accepted
                  (File.mk (js "application/msword") 1024 None) eq_refl)).
Defined.

Lemma split_no_sep (sep : N) (s : jsstring) :
  sep ∉ s -> split sep s = [s].
Proof.
  induction s as [|c s IH]; [reflexivity|].
  intros Hs. apply not_elem_of_cons in Hs as [Hc Hs].
  cbn [split]. destruct (N.eqb_spec c sep) as [->|_]; [congruence|].
  rewrite (IH Hs). reflexivity.
Qed.

Lemma split_at_sep (sep : N) (s rest : jsstring) :
  sep ∉ s -> split sep (s ++ sep :: rest) = s :: split sep rest.
Proof.
  induction s as [|c s IH]; intros Hs.
  - cbn [app split]. rewrite N.eqb_refl. reflexivity.
  - apply not_elem_of_cons in Hs as [Hc Hs].
    cbn [app split]. destruct (N.eqb_spec c sep) as [->|_]; [congruence|].
    rewrite (IH Hs). reflexivity.
Qed.

(** X15. What readFileToBase64 takes from the data URL of the reader is
    the text between the first comma and the second one, or the end: the
    whole payload of a data URL whose payload has no comma (base64 has
    none), whatever the MIME type in front; and it is undefined, not a
    string, when the reader's result has no comma at all. *)
Theorem dataURL_base64_payload (header payload : jsstring) :
  44 ∉ header ->
  dataURL_base64 header = None
  /\ dataURL_base64 (header ++ 44 :: payload)
     = Some (hd [] (split 44 payload))
  /\ (44 ∉ payload -> dataURL_base64 (header ++ 44 :: payload) = Some payload).
Proof.
  intros Hheader. unfold dataURL_base64.
  rewrite split_no_sep, split_at_sep by exact Hheader.
  split; [reflexivity|].
  assert (Hsecond : (header :: split 44 payload) !! 1%nat
                    = Some (hd [] (split 44 payload))).
  { cbn. destruct payload as [|c p]; [reflexivity|].
    cbn [split]. destruct (c =? 44); [reflexivity|].
    destruct (split 44 p); reflexivity. }
  split; [exact Hsecond|].
  intros Hpayload. rewrite Hsecond, split_no_sep by exact Hpayload.
  reflexivity.
Qed.

Lemma dataURL_base64_payload_witness :
  dataURL_base64 (js "data:image/png;base64,iVBORw0KGgo=")
  = Some (js "iVBORw0KGgo=").
Proof.
  refine (proj2 (proj2 (dataURL_base64_payload (js "data:image/png;base64")
                          (js "iVBORw0KGgo=") _)) _);
    vm_compute; intros Hin;
    repeat (apply elem_of_cons in Hin as [Hin|Hin]; [discriminate|]);
    inversion Hin.
Defined.

(** ** The gateway *)

(** X16. synthesizeSpeech sends exactly one request, to the speech model
    with the script as only part.  It resolves exactly when the call
    answers and the first part of the answer carries inline data that is
    not empty, and then with that data; in every other case it rejects,
    always with its own error, whatever was thrown inside. *)
Theorem synthesizeSpeech_contract (P : Platform) (script0 : jsstring)
    (b : Browser) :
  snd (synthesizeSpeech P script0 b) = add_calls [tts_request script0] b
  /\ (forall audio,
        fst (synthesizeSpeech P script0 b) = Resolved audio <->
        audio <> []
        /\ exists response,
             generateContent P (tts_request script0) = Resolved response
             /\ head (inlineParts response) = Some (Some (Some audio)))
  /\ (forall e, fst (synthesizeSpeech P script0 b) = Rejected e ->
                e = SpeechError).
Proof.
  unfold synthesizeSpeech, try_catch, await, ai_generateContent, throw,
    resolve.
  fold (tts_request script0). fold (add_calls [tts_request script0] b).
  destruct (generateContent P (tts_request script0)) as [response|e0].
  2: { split; [reflexivity|]. split; [|intros e [= <-]; reflexivity].
       intros audio. split; [discriminate|].
       intros [_ (response & Hr & _)]. discriminate. }
  destruct (head (inlineParts response)) as [[[audio0|]|]|] eqn:Hhead;
    cbn [mjoin option_join mbind option_bind fst snd].
  - destruct audio0 as [|c audio0]; cbn [truthy fst snd].
    + split; [reflexivity|]. split; [|intros e [= <-]; reflexivity].
      intros audio. split; [discriminate|].
      intros [Hne (response' & [= <-] & Hh)]. congruence.
    + split; [reflexivity|]. split; [|discriminate].
      intros audio. split.
      * intros [= <-]. split; [discriminate|]. eauto.
      * intros [_ (response' & [= <-] & Hh)]. congruence.
  - split; [reflexivity|]. split; [|intros e [= <-]; reflexivity].
    intros audio. split; [discriminate|].
    intros [_ (response' & [= <-] & Hh)]. congruence.
  - split; [reflexivity|]. split; [|intros e [= <-]; reflexivity].
    intros audio. split; [discriminate|].
    intros [_ (response' & [= <-] & Hh)]. congruence.
  - split; [reflexivity|]. split; [|intros e [= <-]; reflexivity].
    intros audio. split; [discriminate|].
    intros [_ (response' & [= <-] & Hh)]. congruence.
Qed.

Lemma synthesizeSpeech_contract_witness :
  fst (synthesizeSpeech online (js "Iron") (browser mounted ∅))
  = Resolved (js "UklGRg==").
Proof.
  apply (proj2 (proj1 (proj2 (synthesizeSpeech_contract online (js "Iron")
                                (browser mounted ∅)))
                  (js "UklGRg=="))).
  split; [discriminate|].
  exists {| finishReason := Some STOP; text := None;
            inlineParts := [Some (Some (js "UklGRg=="))] |}.
  split; reflexivity.
Defined.

Lemma illustrate_spec (P : Platform) (item : SolutionItem) (b : Browser) :
  V2.illustrate P item b
  = match substantial_prompt P item with
    | Some prompt =>
        (Resolved (V2.with_illustration item (image_of P prompt)),
         add_calls [image_request prompt] b)
    | None => (Resolved item, b)
    end.
Proof.
  unfold V2.illustrate, substantial_prompt.
  destruct (imagePrompt item) as [prompt|]; [|reflexivity].
  destruct prompt as [|c prompt].
  { reflexivity. }
  cbn [truthy andb].
  match goal with |- context [if ?c then _ else _] => destruct c end;
    [|reflexivity].
  unfold V2.generateChemicalImage, image_of.
  change (negb (truthy _)) with false. cbn iota.
  unfold try_catch, await, ai_generateContent, resolve.
  fold (image_request (c :: prompt)).
  destruct (generateContent P (image_request (c :: prompt))); reflexivity.
Qed.

Lemma Promise_all_illustrate_spec (P : Platform) (items : list SolutionItem)
    (b : Browser) :
  Promise_all (map (V2.illustrate P) items) b
  = (Resolved
       (map (fun item =>
               match substantial_prompt P item with
               | Some prompt => V2.with_illustration item (image_of P prompt)
               | None => item
               end) items),
     add_calls (map image_request (omap (substantial_prompt P) items)) b).
Proof.
  revert b. induction items as [|item items IH]; intros b.
  - cbn. rewrite add_calls_nil. reflexivity.
  - cbn [map Promise_all omap list_omap]. unfold both.
    rewrite illustrate_spec.
    destruct (substantial_prompt P item) as [prompt|];
      rewrite IH; cbn [map]; rewrite ?add_calls_app; reflexivity.
Qed.

Lemma first_inlineData_first (skipped rest : list (option (option jsstring)))
    (data : option jsstring) :
  Forall (fun part => part = None) skipped ->
  V2.first_inlineData (skipped ++ Some data :: rest) = data
  /\ V2.first_inlineData skipped = None.
Proof.
  induction 1 as [|part skipped -> _ [IH1 IH2]]; cbn; auto.
Qed.

(** X17. When the solver's answer parses, analyzeAndSolve of the second
    version returns one item per parsed item, in order, each with its
    texts and image prompt unchanged.  It asks the image model once for
    every item whose prompt is of substance, in the order of the items and
    after the solver's request.  Such an item gets what the first part of
    its own answer that has inline data carries as data, be it undefined;
    it gets no image when no part has inline data or when the call fails.
    The other items are returned as parsed.  A failed image never loses
    the solutions. *)
Theorem V2_analyzeAndSolve_illustrations (P : Platform) (script0 : jsstring)
    (fileBase64 mimeType0 : option jsstring) (b : Browser)
    (response : Response) (t : jsstring) (items : list SolutionItem) :
  let req :=
    {| model := Gemini_2_5_flash; systemInstruction := None;
       parts :=
         match fileBase64, mimeType0 with
         | Some data, Some mime =>
             if truthy data && truthy mime then [InlineData mime data] else []
         | _, _ => []
         end ++ [Prompt SolvePromptImage (substring0 10000 script0)] |} in
  generateContent P req = Resolved response ->
  text response = Some t ->
  t <> [] ->
  JSON_parse_solutions P t = Some items ->
  (exists solved,
     V2.analyzeAndSolve P script0 fileBase64 mimeType0 b
     = (Resolved solved,
        add_calls
          (req :: map image_request (omap (substantial_prompt P) items)) b)
     /\ Forall2
          (fun out item =>
             out = V2.with_illustration item (illustrationImage out)
             /\ match substantial_prompt P item with
                | Some prompt => illustrationImage out = image_of P prompt
                | None => out = item
                end)
          solved items)
  /\ (forall prompt answer skipped data rest,
        generateContent P (image_request prompt) = Resolved answer ->
        Forall (fun part => part = None) skipped ->
        (inlineParts answer = skipped ++ Some data :: rest ->
         image_of P prompt = data)
        /\ (inlineParts answer = skipped -> image_of P prompt = None))
  /\ (forall prompt e,
        generateContent P (image_request prompt) = Rejected e ->
        image_of P prompt = None).
Proof.
  intros req Hanswer Htext Ht Hparse.
  split; [|split].
  2: { intros prompt answer skipped data rest Hcall Hskipped.
       unfold image_of. rewrite Hcall.
       destruct (first_inlineData_first skipped rest data Hskipped)
         as [Hfirst Hnone].
       split; intros ->; assumption. }
  2: { intros prompt e Hcall. unfold image_of. rewrite Hcall. reflexivity. }
  unfold V2.analyzeAndSolve, try_catch, await, ai_generateContent,
    JSON_parse, resolve.
  fold req. rewrite Hanswer, Htext.
  destruct t as [|c t]; [congruence|]. cbn [truthy]. rewrite Hparse.
  rewrite Promise_all_illustrate_spec.
  exists (map (fun item =>
                 match substantial_prompt P item with
                 | Some prompt => V2.with_illustration item (image_of P prompt)
                 | None => item
                 end) items).
  split.
  - unfold add_calls. cbn. rewrite <- app_assoc. reflexivity.
  - apply Forall2_fmap_l, Forall_Forall2_diag, Forall_forall.
    intros item _. unfold compose.
    destruct (substantial_prompt P item) as [prompt|].
    + split; reflexivity.
    + split; [destruct item|]; reflexivity.
Qed.

(** A part that has inline data without data ends the search. *)
Example first_inlineData_undefined :
  V2.first_inlineData [None; Some None; Some (Some (js "iVBORw0KGgo="))]
  = None.
Proof. reflexivity. Qed.

Lemma V2_analyzeAndSolve_illustrations_witness :
  V2.analyzeAndSolve drawing (js "Draw benzene") None None (browser mounted ∅)
  = (Resolved
       [ V2.with_illustration benzene_item (Some (js "iVBORw0KGgo="));
         sample_item ],
     add_calls
       [ {| model := Gemini_2_5_flash; systemInstruction := None;
            parts := [Prompt SolvePromptImage (js "Draw benzene")] |};
         image_request (js "benzene ring C6H6") ]
       (browser mounted ∅)).
Proof.
  destruct (V2_analyzeAndSolve_illustrations drawing (js "Draw benzene")
              None None (browser mounted ∅)
              {| finishReason := Some STOP; text := Some (js "[{}]");
                 inlineParts := [] |}
              (js "[{}]") [benzene_item; sample_item]
              eq_refl eq_refl ltac:(discriminate) eq_refl)
    as ((solved & Hrun & _) & _).
  rewrite Hrun. f_equal.
  assert (Heq : Resolved solved
                = Resolved
                    [ V2.with_illustration benzene_item
                        (Some (js "iVBORw0KGgo="));
                      sample_item ]).
  { apply (f_equal fst) in Hrun. cbn [fst] in Hrun. rewrite <- Hrun.
    vm_compute. reflexivity. }
  exact Heq.
Defined.

(** ** Runs and the store *)

Lemma second_run_served (v : Version) (P : Platform) (b1 b2 : Browser)
    (content : jsstring) :
  accepted v (react b1) -> accepted v (react b2) ->
  hashed_content v (react b1) = Some content ->
  hashed_content v (react b2) = Some content ->
  idb_fault P OpGet = Healthy -> idb_fault P OpPut = Healthy ->
  idb b1 !! computeContentHash content = None ->
  appState (react (snd (submit v P b1))) = done_state v ->
  idb b2 = idb (snd (submit v P b1)) ->
  let second := settled v (snd (submit v P b2)) in
  exists (final : ProcessingResult) (blobs : list (list N)),
    idb b2 !! computeContentHash content = Some (Date_now P, final)
    /\ result (react (snd (submit v P b1)))
       = Some (shown v final (Some (next_url P b1)))
    /\ result (react second) = Some (shown v final (Some (next_url P b2)))
    /\ objectURLs (snd (submit v P b1)) = objectURLs b1 ++ blobs
    /\ objectURLs second = objectURLs b2 ++ blobs
    /\ isCachedResult (react second) = true
    /\ appState (react second) = done_state v
    /\ calls second = calls b2
    /\ idb second = idb b2.
Proof.
  intros Hacc1 Hacc2 Hc1 Hc2 Hget Hput Hmiss Hdone Hstore second.
  destruct (miss_done v P b1 content Hacc1 Hc1 Hget Hput Hmiss Hdone)
    as (final & audio & blobs & Haudio & _ & Hdisplay & Hshown & Hurls
        & Hstored & _).
  assert (Hrecord : idb b2 !! computeContentHash content
                    = Some (Date_now P, final)).
  { rewrite Hstore, Hstored. apply lookup_insert_eq. }
  destruct (hit_shows_record v P b2 content audio (Date_now P) final blobs
              Hacc2 Hc2 Hget Hrecord Haudio (Hdisplay b2))
    as (Hresult & Hcached & Hstate & Hcalls & Hidb & Hurls').
  fold second in Hresult, Hcached, Hstate, Hcalls, Hidb, Hurls'.
  exists final, blobs. repeat split; assumption.
Qed.

(** X18. The record of a run is shared by every later submission of the
    same content, whatever else differs.  In processContent two texts
    that are equal once trimmed are the same content; in both versions two
    uploads with the same base64 data are, whatever their MIME types and
    sizes.  After a first run that missed, completed and stored its
    result, the second submission is served from that record: it shows
    the record the first run showed (in processContent under a new audio
    URL, for a new blob of the same bytes), flagged as cached, sends
    nothing to the gateway and leaves the store alone, so the second text
    or the second MIME type never reaches the model. *)
Theorem equal_content_shares_record (P : Platform) (b1 b2 : Browser) :
  idb_fault P OpGet = Healthy -> idb_fault P OpPut = Healthy ->
  (mode (react b1) = TEXT -> mode (react b2) = TEXT ->
   trim (textInput (react b1)) = trim (textInput (react b2)) ->
   idb b1 !! computeContentHash (trim (textInput (react b1))) = None ->
   appState (react (snd (V1.processContent P b1))) = PLAYING ->
   idb b2 = idb (snd (V1.processContent P b1)) ->
   let first := snd (V1.processContent P b1) in
   let second := run_timers (snd (V1.processContent P b2)) in
   exists (final : ProcessingResult) (blob : list N),
     idb b2 !! computeContentHash (trim (textInput (react b1)))
     = Some (Date_now P, final)
     /\ result (react first)
        = Some (V1.with_audio final (Some (next_url P b1)))
     /\ result (react second)
        = Some (V1.with_audio final (Some (next_url P b2)))
     /\ objectURLs first = objectURLs b1 ++ [blob]
     /\ objectURLs second = objectURLs b2 ++ [blob]
     /\ isCachedResult (react second) = true
     /\ calls second = calls b2
     /\ idb second = idb b2)
  /\ (forall (v : Version) (fd1 fd2 : FileData.t) (data : jsstring),
        mode (react b1) = FILE -> mode (react b2) = FILE ->
        file (react b1) = Some fd1 -> file (react b2) = Some fd2 ->
        File.base64Data (FileData.file fd1) = Some data ->
        File.base64Data (FileData.file fd2) = Some data ->
        idb b1 !! computeContentHash data = None ->
        appState (react (snd (submit v P b1))) = done_state v ->
        idb b2 = idb (snd (submit v P b1)) ->
        let first := snd (submit v P b1) in
        let second := settled v (snd (submit v P b2)) in
        exists (final : ProcessingResult) (blobs : list (list N)),
          idb b2 !! computeContentHash data = Some (Date_now P, final)
          /\ result (react first)
             = Some (shown v final (Some (next_url P b1)))
          /\ result (react second)
             = Some (shown v final (Some (next_url P b2)))
          /\ objectURLs first = objectURLs b1 ++ blobs
          /\ objectURLs second = objectURLs b2 ++ blobs
          /\ isCachedResult (react second) = true
          /\ calls second = calls b2
          /\ idb second = idb b2).
Proof.
  intros Hget Hput. split.
  - intros Hm1 Hm2 Htrim Hmiss Hdone Hstore first second.
    destruct (second_run_served Version1 P b1 b2
                (trim (textInput (react b1))))
      as (final & blobs & Hrecord & Hr1 & Hr2 & Hu1 & Hu2 & Hc & _ & Hl & Hi);
      try assumption; try exact I.
    + unfold hashed_content. rewrite Hm1. reflexivity.
    + unfold hashed_content. rewrite Hm2, Htrim. reflexivity.
    + cbn [submit settled shown] in *.
      fold first in Hr1, Hu1. fold second in Hr2, Hu2, Hc, Hl, Hi.
      assert (Hblob : exists blob, blobs = [blob]).
      { destruct (miss_done Version1 P b1 (trim (textInput (react b1))))
          as (final' & audio & blobs' & _ & Hd & _ & _ & Hu1' & _);
          try assumption; try exact I.
        - unfold hashed_content. rewrite Hm1. reflexivity.
        - cbn [submit] in Hu1'. fold first in Hu1'.
          rewrite Hu1 in Hu1'. apply app_inv_head in Hu1'. subst blobs'.
          unfold display in Hd.
          destruct (atob P audio) as [pcmData|]; [|discriminate].
          cbn in Hd. injection Hd as <-. eauto. }
      destruct Hblob as [blob ->].
      exists final, blob. repeat split; assumption.
  - intros v fd1 fd2 data Hm1 Hm2 Hf1 Hf2 Hd1 Hd2 Hmiss Hdone Hstore
      first second.
    destruct (second_run_served v P b1 b2 data)
      as (final & blobs & Hrecord & Hr1 & Hr2 & Hu1 & Hu2 & Hc & _ & Hl & Hi);
      try assumption.
    + destruct v; [exact I|]. unfold accepted. rewrite Hm1, Hf1. discriminate.
    + destruct v; [exact I|]. unfold accepted. rewrite Hm2, Hf2. discriminate.
    + unfold hashed_content. rewrite Hm1, Hf1. exact Hd1.
    + unfold hashed_content. rewrite Hm2, Hf2. exact Hd2.
    + exists final, blobs. repeat split; assumption.
Qed.

Lemma equal_content_shares_record_witness :
  calls (run_timers
           (snd (V1.processContent online
                   (browser (typed (js "  Fe + HCl "))
                      (idb (snd (V1.processContent online iron_fresh)))))))
  = [].
Proof.
  destruct (proj1 (equal_content_shares_record online iron_fresh
                     (browser (typed (js "  Fe + HCl "))
                        (idb (snd (V1.processContent online iron_fresh))))
                     eq_refl eq_refl))
    as (final & blob & _ & _ & _ & _ & _ & _ & Hcalls & _);
    [vm_compute; reflexivity ..|exact Hcalls].
Defined.

(** X19. A run changes the store at one key at most, the fingerprint of
    the submitted content, and only by writing there the result it has
    assembled: a record stamped with the current time whose audio is
    present and not empty.  That happens only in a run whose stages all
    succeeded, and that run then shows the record and ends in its done
    state, unless processContent cannot decode the audio: then the record
    stays in the store of a run that ends in the error state.  When the
    store can be read, no record was there before. *)
Theorem run_writes_only_its_record (v : Version) (P : Platform) (b : Browser)
    (k : jsstring) :
  idb (snd (submit v P b)) !! k <> idb b !! k ->
  exists content final audio,
    hashed_content v (react b) = Some content
    /\ k = computeContentHash content
    /\ idb (snd (submit v P b)) !! k = Some (Date_now P, final)
    /\ audioBase64 final = Some audio /\ audio <> []
    /\ (playable v P audio ->
        result (react (snd (submit v P b)))
        = Some (shown v final (Some (next_url P b)))
        /\ appState (react (snd (submit v P b))) = done_state v)
    /\ (~ playable v P audio ->
        v = Version1
        /\ appState (react (snd (submit v P b))) = ERROR
        /\ statusMessage (react (snd (submit v P b)))
           = ErrorMessage InvalidCharacterError
        /\ result (react (snd (submit v P b))) = result (react b))
    /\ (idb_fault P OpGet = Healthy -> idb b !! k = None).
Proof.
  intros Hk.
  destruct (accepted_or_not v (react b)) as [Hacc|Hrej].
  2: { destruct v; [contradiction Hrej; exact I|].
       cbn [submit] in Hk. rewrite (V2_handleProcess_rejects P b Hrej) in Hk.
       contradiction Hk. reflexivity. }
  destruct (hashed_content v (react b)) as [content|] eqn:Hcontent.
  2: { rewrite (submit_run v P b Hacc) in Hk. unfold after_submit in Hk.
       rewrite Hcontent in Hk. contradiction Hk. reflexivity. }
  destruct (fst (getFromCache P (computeContentHash content) b))
    as [[r|]|e] eqn:Hprobe.
  1, 3: rewrite (submit_run v P b Hacc) in Hk; unfold after_submit in Hk;
    rewrite Hcontent, Hprobe in Hk;
    try destruct (display v P b r (audio_to_restore r)) as [[res blobs]|];
    try destruct v; contradiction Hk; reflexivity.
  destruct (outcome_of (transcribe v P (react b))) as [scripts|e] eqn:Ht.
  2: { rewrite (submit_run v P b Hacc) in Hk. unfold after_submit in Hk.
       rewrite Hcontent, Hprobe in Hk. unfold after_miss in Hk.
       rewrite Ht in Hk. contradiction Hk. reflexivity. }
  destruct (outcome_of (synthesizeSpeech P (readingScript scripts)))
    as [audio|e] eqn:Hs.
  2: { rewrite (submit_run v P b Hacc) in Hk. unfold after_submit in Hk.
       rewrite Hcontent, Hprobe in Hk. unfold after_miss in Hk.
       rewrite Ht, Hs in Hk. contradiction Hk. reflexivity. }
  destruct (idb_fault P OpPut) eqn:Hput.
  2: { destruct (miss_complete v P b content scripts audio Hacc Hcontent
                   Hprobe Ht Hs) as (_ & Hidb & _); [congruence|].
       rewrite Hput in Hidb. rewrite Hidb in Hk.
       contradiction Hk. reflexivity. }
  2: { rewrite (submit_run v P b Hacc) in Hk. unfold after_submit in Hk.
       rewrite Hcontent, Hprobe in Hk. unfold after_miss in Hk.
       rewrite Ht, Hs, Hput in Hk. contradiction Hk. reflexivity. }
  destruct (miss_complete v P b content scripts audio Hacc Hcontent
              Hprobe Ht Hs) as (_ & Hidb & _ & Hplay & Hnot); [congruence|].
  rewrite Hput in Hidb.
  assert (Hkey : k = computeContentHash content).
  { destruct (decide (k = computeContentHash content)) as [|Hne];
      [assumption|].
    rewrite Hidb, lookup_insert_ne in Hk by congruence.
    contradiction Hk. reflexivity. }
  subst k.
  exists content, (assembled v P (react b) scripts audio), audio.
  split; [reflexivity|]. split; [reflexivity|].
  split; [rewrite Hidb; apply lookup_insert_eq|].
  split; [reflexivity|].
  split; [apply truthy_nonempty, (synthesizeSpeech_truthy P _ _ Hs)|].
  split.
  { intros Hp. destruct (Hplay Hp) as [Hstate Hresult]. auto. }
  split.
  { intros Hp. destruct (Hnot Hp) as (-> & _ & Hstate & Hmsg & Hresult & _).
    auto. }
  intros Hget. rewrite getFromCache_run, Hget in Hprobe.
  destruct (idb b !! computeContentHash content) as [[ts r]|];
    [simpl in Hprobe; discriminate | reflexivity].
Qed.

Lemma run_writes_only_its_record_witness :
  exists final,
    idb (snd (submit Version2 online iron_fresh))
      !! computeContentHash (js "Fe + HCl")
    = Some (Date_now online, final)
    /\ result (react (snd (submit Version2 online iron_fresh))) = Some final.
Proof.
  destruct (run_writes_only_its_record Version2 online iron_fresh
              (computeContentHash (js "Fe + HCl")))
    as (content & final & audio & _ & _ & Hstored & _ & _ & Hshown & _).
  - vm_compute. discriminate.
  - exists final. split; [exact Hstored | apply Hshown; exact I].
Defined.

(** X20. No run rejects: every failure inside is caught.  Started with
    no callback pending and once its own callback has fired, a run on an
    accepted input has left the application either in its done state with
    a result on the screen, or in the error state with the message of one
    error; it is never left analysing or synthesising.  In the error
    state the store is as it was, except when processContent could not
    decode the audio.  The inputs (tab, text, file) are as before the
    run. *)
Theorem run_ends_done_or_error (v : Version) (P : Platform) (b : Browser) :
  fst (submit v P b) = Resolved tt
  /\ (accepted v (react b) -> timers b = [] ->
      let r := react (settled v (snd (submit v P b))) in
      mode r = mode (react b) /\ textInput r = textInput (react b)
      /\ file r = file (react b)
      /\ ((appState r = done_state v /\ is_Some (result r))
          \/ (appState r = ERROR
              /\ exists e,
                   statusMessage r = error_message v e
                   /\ (idb (snd (submit v P b)) = idb b
                       \/ (v = Version1 /\ e = InvalidCharacterError))))).
Proof.
  split.
  - destruct (accepted_or_not v (react b)) as [Hacc|Hrej].
    + rewrite (submit_run v P b Hacc). reflexivity.
    + destruct v; [contradiction Hrej; exact I|].
      cbn [submit]. rewrite (V2_handleProcess_rejects P b Hrej). reflexivity.
  - intros Hacc Htimers. rewrite (submit_run v P b Hacc). cbn [snd].
    destruct v;
      unfold after_submit, after_miss, display, audio_to_restore, settled,
        run_timers, mbind, option_bind;
      repeat match goal with
             | |- context [match ?x with _ => _ end] => destruct x
             end;
      cbn; rewrite ?Htimers; cbn;
      (split; [reflexivity|]); (split; [reflexivity|]);
      (split; [reflexivity|]);
      solve [ left; split; [reflexivity | eauto]
            | right; split; [reflexivity|]; eexists; split;
              [reflexivity | auto] ].
Qed.

Lemma run_ends_done_or_error_witness :
  appState (react (settled Version1
                     (snd (submit Version1 offline iron_fresh))))
  = ERROR.
Proof.
  destruct (proj2 (run_ends_done_or_error Version1 offline iron_fresh)
              I eq_refl) as (_ & _ & _ & [[Hdone _]|[Herror _]]).
  - vm_compute in Hdone. discriminate.
  - exact Herror.
Defined.

(** ** The fingerprint and ill-formed text *)

Lemma ends_whole_cons (c : N) (s : jsstring) :
  s <> [] -> ends_whole (c :: s) = ends_whole s.
Proof.
  intros Hs. unfold ends_whole. destruct s as [|d s]; [congruence|].
  reflexivity.
Qed.

Lemma TextEncoder_encode_app (pre s : jsstring) :
  ends_whole pre = true ->
  TextEncoder_encode (pre ++ s) = TextEncoder_encode pre ++ TextEncoder_encode s.
Proof.
  remember (length pre) as n eqn:Hn. revert pre Hn.
  induction n as [n IH] using lt_wf_ind. intros pre Hn Hpre.
  destruct pre as [|c rest]; [reflexivity|].
  assert (Hrest : rest <> [] ->
            TextEncoder_encode (rest ++ s)
            = TextEncoder_encode rest ++ TextEncoder_encode s).
  { intros Hne. apply (IH (length rest)); [subst n; cbn; lia | reflexivity|].
    rewrite <- Hpre. symmetry. apply ends_whole_cons, Hne. }
  assert (Hrest' : TextEncoder_encode (rest ++ s)
                   = TextEncoder_encode rest ++ TextEncoder_encode s).
  { destruct rest as [|d rest']; [reflexivity|]. apply Hrest. discriminate. }
  cbn [app TextEncoder_encode].
  destruct (c <? 128); [rewrite Hrest', app_assoc; reflexivity|].
  destruct (c <? 2048); [rewrite Hrest', app_assoc; reflexivity|].
  destruct (isHighSurrogate c) eqn:Hhigh.
  - destruct rest as [|d rest'].
    + unfold ends_whole in Hpre. cbn in Hpre. rewrite Hhigh in Hpre.
      discriminate.
    + cbn [app]. destruct (isLowSurrogate d).
      * rewrite <- app_assoc. f_equal.
        destruct rest' as [|e rest'']; [reflexivity|].
        apply (IH (length (e :: rest''))); [subst n; cbn; lia | reflexivity|].
        rewrite <- Hpre. symmetry.
        rewrite !ends_whole_cons by discriminate. reflexivity.
      * change (d :: rest' ++ s) with ((d :: rest') ++ s).
        rewrite Hrest', app_assoc. reflexivity.
  - destruct (isLowSurrogate c); rewrite Hrest', app_assoc; reflexivity.
Qed.

Lemma TextEncoder_encode_lone (c : N) (rest : jsstring) :
  lone_surrogate c rest = true ->
  TextEncoder_encode (c :: rest) = TextEncoder_encode (65533 :: rest).
Proof.
  unfold lone_surrogate. intros Hlone.
  assert (Hrange : 55296 <= c <= 57343).
  { unfold isLowSurrogate, isHighSurrogate in Hlone.
    apply orb_true_iff in Hlone as [H|H].
    - apply andb_true_iff in H as [H1 H2]. apply N.leb_le in H1, H2. lia.
    - apply andb_true_iff in H as [H _].
      apply andb_true_iff in H as [H1 H2]. apply N.leb_le in H1, H2. lia. }
  change (TextEncoder_encode (65533 :: rest))
    with (replacementChar ++ TextEncoder_encode rest).
  cbn [TextEncoder_encode].
  destruct (N.ltb_spec c 128); [exfalso; lia|].
  destruct (N.ltb_spec c 2048); [exfalso; lia|].
  destruct (isHighSurrogate c) eqn:Hhigh.
  - destruct rest as [|d rest']; [reflexivity|].
    destruct (isLowSurrogate d); [|reflexivity].
    cbn [negb andb] in Hlone. rewrite orb_false_r in Hlone.
    unfold isLowSurrogate, isHighSurrogate in Hlone, Hhigh.
    apply andb_true_iff in Hlone as [Hl _], Hhigh as [_ Hh].
    apply N.leb_le in Hl, Hh. lia.
  - destruct (isLowSurrogate c); [reflexivity | discriminate].
Qed.

(** X21. The fingerprint does not tell a lone surrogate from the
    replacement character: a text with a surrogate code unit that has no
    partner gets the fingerprint of the text with U+FFFD in its place, so
    texts that differ only in such code units share one cache record. *)
Theorem computeContentHash_lone_surrogate (pre rest : jsstring) (c : N) :
  ends_whole pre = true ->
  lone_surrogate c rest = true ->
  computeContentHash (pre ++ c :: rest)
  = computeContentHash (pre ++ 65533 :: rest).
Proof.
  intros Hpre Hlone. unfold computeContentHash.
  rewrite !TextEncoder_encode_app by exact Hpre.
  rewrite (TextEncoder_encode_lone c rest Hlone). reflexivity.
Qed.

Lemma computeContentHash_lone_surrogate_witness :
  computeContentHash (js "pH " ++ [56832]) = computeContentHash (js "pH " ++ [65533])
  /\ computeContentHash (js "pH " ++ [55357; 33])
     = computeContentHash (js "pH " ++ [65533; 33]).
Proof.
  split.
  - apply (computeContentHash_lone_surrogate (js "pH ") [] 56832);
      reflexivity.
  - apply (computeContentHash_lone_surrogate (js "pH ") [33] 55357);
      reflexivity.
Defined.

(** ** The transcription of the second version *)

(** X22. The gateway of the second version has no fallback:
    generateReadingScript sends one request, with the IUPAC prompt, and
    when that attempt leaves nothing usable (the call threw, the answer was
    blocked, it had no text, or its text did not parse) it throws the
    terminal error at once; otherwise it returns the scripts of that
    answer. *)
Theorem V2_generateReadingScript_single_attempt (P : Platform) (t : jsstring)
    (f m : option jsstring) (b : Browser) :
  let single :=
    transcription_request PromptOCR_IUPAC UserInstructionIUPAC t f m in
  snd (V2.generateReadingScript P t f m b) = add_calls [single] b
  /\ (nothing_usable P single ->
      fst (V2.generateReadingScript P t f m b) = Rejected TranscriptionError)
  /\ (forall scripts,
        fst (V2.generateReadingScript P t f m b) = Resolved scripts <->
        usable_answer P single = Some scripts).
Proof.
  intros single.
  pose proof (V2_generateReadingScript_run P t f m b) as Hrun.
  cbv zeta in Hrun. fold single in Hrun. rewrite Hrun.
  pose proof (usable_answer_None P single) as Hnone.
  destruct (usable_answer P single) as [scripts|]; cbn [fst snd].
  - split; [reflexivity|]. split.
    + intros Hn. apply Hnone in Hn. discriminate.
    + intros s. split; congruence.
  - split; [reflexivity|]. split; [reflexivity|].
    intros s. split; discriminate.
Qed.

Lemma V2_generateReadingScript_single_attempt_witness :
  fst (V2.generateReadingScript (platform blocks healthy)
         (js "Fe + HCl") None None iron_fresh)
  = Rejected TranscriptionError.
Proof.
  apply (proj1 (proj2 (V2_generateReadingScript_single_attempt
                         (platform blocks healthy) (js "Fe + HCl")
                         None None iron_fresh))).
  right.
  exists {| finishReason := Some SAFETY; text := None; inlineParts := [] |}.
  split; [reflexivity|]. right. left. reflexivity.
Defined.

(** ** The store out of order *)

(** X23. When the database cannot be opened, the store behaves as empty
    and read-only, and silently so: a save and a deletion resolve without
    effect, a read resolves with null and the listing with no entry.  A
    run whose transcription and speech synthesis succeed then stores
    nothing, and shows its result as a run with a working store would:
    it ends in its done state, unless processContent cannot decode the
    audio. *)
Theorem unopenable_store_is_tolerated (P : Platform) (b : Browser) :
  (forall op, idb_fault P op = OpenFails) ->
  (forall id r, saveToCache P id r b = (Resolved tt, b))
  /\ (forall id, getFromCache P id b = (Resolved None, b))
  /\ getHistory P b = (Resolved [], b)
  /\ (forall id, deleteFromCache P id b = (Resolved tt, b))
  /\ (forall v content scripts audio,
        accepted v (react b) ->
        hashed_content v (react b) = Some content ->
        outcome_of (transcribe v P (react b)) = Resolved scripts ->
        outcome_of (synthesizeSpeech P (readingScript scripts))
        = Resolved audio ->
        idb (snd (submit v P b)) = idb b
        /\ (playable v P audio ->
            appState (react (snd (submit v P b))) = done_state v
            /\ result (react (snd (submit v P b)))
               = Some (shown v (assembled v P (react b) scripts audio)
                         (Some (next_url P b))))
        /\ (~ playable v P audio ->
            v = Version1
            /\ appState (react (snd (submit v P b))) = ERROR
            /\ statusMessage (react (snd (submit v P b)))
               = ErrorMessage InvalidCharacterError)).
Proof.
  intros Hfault.
  split; [intros id r; rewrite saveToCache_run, Hfault; reflexivity|].
  split; [intros id; rewrite getFromCache_run, Hfault; reflexivity|].
  split; [rewrite getHistory_run, Hfault; reflexivity|].
  split; [intros id; rewrite deleteFromCache_run, Hfault; reflexivity|].
  intros v content scripts audio Hacc Hcontent Ht Hs.
  destruct (store_open_failure_tolerated v P b content scripts audio
              Hfault Hacc Hcontent Ht Hs) as (_ & Hidb & Hplay & Hnot).
  auto.
Qed.

Lemma unopenable_store_is_tolerated_witness :
  getHistory (platform answers cannot_open)
    (browser mounted {[ js "f00d" := (5%Z, water) ]})
  = (Resolved [], browser mounted {[ js "f00d" := (5%Z, water) ]}).
Proof.
  apply (proj1 (proj2 (proj2 (unopenable_store_is_tolerated
                                (platform answers cannot_open)
                                (browser mounted
                                   {[ js "f00d" := (5%Z, water) ]})
                                (fun op => eq_refl))))).
Defined.

(** X24. A request on the store that fails is fatal to a run, whatever
    the platform and the input.  When the read fails, the run ends in the
    error state with the error of the read, before any request to the
    gateway.  When the write fails after a miss, a run whose stages all
    succeeded ends in the error state with the error of the write: every
    request has been sent, and the result is neither shown nor stored. *)
Theorem store_request_failure_is_fatal (v : Version) (P : Platform)
    (b : Browser) (content : jsstring) :
  accepted v (react b) ->
  hashed_content v (react b) = Some content ->
  (idb_fault P OpGet = RequestFails ->
   appState (react (snd (submit v P b))) = ERROR
   /\ statusMessage (react (snd (submit v P b)))
      = error_message v (StoreRequestError OpGet)
   /\ calls (snd (submit v P b)) = calls b
   /\ idb (snd (submit v P b)) = idb b)
  /\ (idb_fault P OpPut = RequestFails ->
      fst (getFromCache P (computeContentHash content) b) = Resolved None ->
      forall scripts audio,
        outcome_of (transcribe v P (react b)) = Resolved scripts ->
        outcome_of (synthesizeSpeech P (readingScript scripts))
        = Resolved audio ->
        appState (react (snd (submit v P b))) = ERROR
        /\ statusMessage (react (snd (submit v P b)))
           = error_message v (StoreRequestError OpPut)
        /\ result (react (snd (submit v P b))) = result_on_entry v (react b)
        /\ calls (snd (submit v P b))
           = calls b ++ requests_of (transcribe v P (react b))
             ++ later_requests v P (react b) scripts
        /\ idb (snd (submit v P b)) = idb b).
Proof.
  intros Hacc Hcontent. rewrite (submit_run v P b Hacc).
  unfold after_submit. rewrite Hcontent. cbn [snd]. split.
  - intros Hget. rewrite getFromCache_run, Hget. cbn [fst].
    repeat split; reflexivity.
  - intros Hput Hmiss scripts audio Ht Hs. rewrite Hmiss.
    unfold after_miss. rewrite Ht, Hs, Hput.
    repeat split; reflexivity.
Qed.

Lemma store_request_failure_is_fatal_witness :
  appState (react (snd (submit Version2
                          (platform answers (request_fails OpPut))
                          iron_fresh)))
  = ERROR.
Proof.
  refine (proj1 (proj2 (store_request_failure_is_fatal Version2
                          (platform answers (request_fails OpPut))
                          iron_fresh (js "Fe + HCl") _ eq_refl)
                   eq_refl eq_refl sample_scripts (js "UklGRg==") _ _)).
  - vm_compute. discriminate.
  - vm_compute. reflexivity.
  - vm_compute. reflexivity.
Defined.
